(** * Workflow graphs of the deep-research assistant

    A shallow embedding of the two LangGraph workflows of the repository:

    - [src/assistant/deep_research/graph.py]  (module [Research])
    - [src/assistant/newsletter/graph.py]     (module [Newsletter])

    together with the search functions behind their search tool and the
    configuration loader:

    - [src/assistant/common/search_tools.py]  (module [SearchTools])
    - [src/assistant/configuration.py]        (module [Configuration])

    Every node function of the source mutates a dataclass instance and may
    raise; it is embedded as a computation in a small state-and-exception
    monad [py].  The collaborators (the chat model and the search tool) are
    outside the repository: a node receives what the collaborator call
    produced (a value or a raised exception) from an oracle, and every
    theorem quantifies over all oracles.

    The executor follows the edges declared with [add_edge] and
    [add_conditional_edges]: it runs the entry node, then the successor
    chosen on the state the node left behind, and ends after a node without
    outgoing edge.  A raised exception aborts the run.  What a node returns
    is stored as LangGraph stores it: the newsletter graph is built on a
    plain dataclass, so its state object is threaded through the nodes; the
    research graph declares two of its fields with the reducer
    [operator.add], and its executor adds what a node returns under them to
    the stored lists.  The fuel of [exec] bounds how many node invocations
    are observed; [Research.ainvoke] is the whole run under LangGraph's
    recursion limit.  [print] calls are omitted except where evaluating
    their argument can raise. *)

From Stdlib Require Import ZArith.
From stdpp Require Import gmap strings list pretty.

(* set_solver clears hypotheses by name and warns when one is absent *)
Set Warnings "-clear-no-such-hyp".

(** ** Python values

    The dynamically typed values that flow through the state: whatever
    [json.loads] or the search tool hands back.  A dict is kept as its item
    list; [dict_lookup] returns the first binding of a key.  [PInt] stands
    for every number: no operation below looks at a number's value. *)

#[warnings="-register-all"]
Inductive pyval : Type :=
| PNone
| PBool (b : bool)
| PInt (z : Z)
| PStr (s : string)
| PList (l : list pyval)
| PDict (d : list (string * pyval)).

Inductive exn : Type :=
| JSONDecodeError
| KeyError
| TypeError
| AttributeError
| ValueError
| IndexError
| CollaboratorError
| GraphRecursionError.

Inductive outcome (A : Type) : Type :=
| Ret (a : A)
| Exc (e : exn).

Arguments Ret {A} a.
Arguments Exc {A} e.

Definition obind {A B} (o : outcome A) (k : A → outcome B) : outcome B :=
  match o with
  | Ret a => k a
  | Exc e => Exc e
  end.

Fixpoint omap {A B} (f : A → outcome B) (l : list A) : outcome (list B) :=
  match l with
  | [] => Ret []
  | x :: l' => obind (f x) (λ y, obind (omap f l') (λ ys, Ret (y :: ys)))
  end.

Fixpoint dict_lookup (k : string) (d : list (string * pyval)) : option pyval :=
  match d with
  | [] => None
  | (k', v) :: d' => if String.eqb k k' then Some v else dict_lookup k d'
  end.

(** [isinstance(v, dict)] *)
Definition is_dict (v : pyval) : bool :=
  match v with PDict _ => true | _ => false end.

(** [k in v] for a dict [v]; only used behind an [isinstance] test. *)
Definition has_key (k : string) (v : pyval) : bool :=
  match v with
  | PDict d => bool_decide (is_Some (dict_lookup k d))
  | _ => false
  end.

(** [v[k]] with a string key [k]. *)
Definition py_getitem (v : pyval) (k : string) : outcome pyval :=
  match v with
  | PDict d => match dict_lookup k d with
               | Some x => Ret x
               | None => Exc KeyError
               end
  | _ => Exc TypeError
  end.

(** [v.get(k, dflt)] *)
Definition py_get (v : pyval) (k : string) (dflt : pyval) : outcome pyval :=
  match v with
  | PDict d => Ret (default dflt (dict_lookup k d))
  | _ => Exc AttributeError
  end.

(** [len(v)] *)
Definition py_len (v : pyval) : outcome nat :=
  match v with
  | PStr s => Ret (String.length s)
  | PList l => Ret (length l)
  | PDict d => Ret (length d)
  | _ => Exc TypeError
  end.

(** [len(v)] is defined: [v] is a string, a list or a dict. *)
Definition sized (v : pyval) : Prop := ∃ n, py_len v = Ret n.

Fixpoint chars (s : string) : list pyval :=
  match s with
  | EmptyString => []
  | String a s' => PStr (String a EmptyString) :: chars s'
  end.

(** The items a [for] loop (or [list.extend]) draws from [v]. *)
Definition py_iter (v : pyval) : outcome (list pyval) :=
  match v with
  | PList l => Ret l
  | PStr s => Ret (chars s)
  | PDict d => Ret (PStr <$> d.*1)
  | _ => Exc TypeError
  end.

(** What an f-string prints for an [Optional[str]] field. *)
Definition fmt_opt (o : option string) : string := default "None" o.

(** ** The monad of node bodies

    A node body runs on the state object, may update it in place and may
    raise.  Updates made before an exception stay visible to the handler of
    an enclosing [try]. *)

Definition py (St A : Type) : Type := St → St * outcome A.

Definition ret {St A} (a : A) : py St A := λ s, (s, Ret a).

Definition lift {St A} (o : outcome A) : py St A := λ s, (s, o).

Definition bind {St A B} (m : py St A) (k : A → py St B) : py St B :=
  λ s, match m s with
       | (s', Ret a) => k a s'
       | (s', Exc e) => (s', Exc e)
       end.

Definition gets {St A} (f : St → A) : py St A := λ s, (s, Ret (f s)).

Definition modify {St} (f : St → St) : py St unit := λ s, (f s, Ret tt).

(** [try: body except <classes>: handler] *)
Definition try_except {St A} (body : py St A) (catches : exn → bool)
    (handler : py St A) : py St A :=
  λ s, match body s with
       | (s', Exc e) => if catches e then handler s' else (s', Exc e)
       | r => r
       end.

(** [except Exception] *)
Definition any_exception (e : exn) : bool := true.

(** [for i, x in enumerate(l, start): body] *)
Fixpoint for_each {St A} (start : nat) (l : list A)
    (body : nat → A → py St unit) : py St unit :=
  match l with
  | [] => ret tt
  | x :: l' => bind (body start x) (λ _, for_each (S start) l' body)
  end.

Declare Scope py_scope.
Delimit Scope py_scope with py.
Notation "x <~ c ;; k" := (bind c (λ x, k))
  (at level 100, c at next level, right associativity) : py_scope.
Notation "c ;;> k" := (bind c (λ _, k))
  (at level 100, right associativity) : py_scope.

(** The reply of the chat model: its [content], and what [json.loads]
    makes of that content ([None] when it raises [JSONDecodeError]). *)
Record reply : Type := Reply {
  content : string;
  parsed : option pyval
}.

Definition json_loads (r : reply) : outcome pyval :=
  match parsed r with
  | Some v => Ret v
  | None => Exc JSONDecodeError
  end.

(** The reply parses as a JSON object that has the key [key]: the
    structured format the query and reflection nodes ask for. *)
Definition structured (key : string) (r : reply) : Prop :=
  ∃ d v, parsed r = Some (PDict d) ∧ dict_lookup key d = Some v.

(** ** The research workflow ([deep_research/graph.py]) *)

Module Research.

Record State : Type := mkState {
  search_query : pyval;
  web_research_results : list pyval;
  sources_gathered : list pyval;
  research_topic : string;
  research_loop_count : Z;
  running_summary : string;
  max_iterations : Z
}.

Definition set_search_query (v : pyval) (s : State) : State :=
  mkState v (web_research_results s) (sources_gathered s) (research_topic s)
          (research_loop_count s) (running_summary s) (max_iterations s).

Definition set_web_research_results (v : list pyval) (s : State) : State :=
  mkState (search_query s) v (sources_gathered s) (research_topic s)
          (research_loop_count s) (running_summary s) (max_iterations s).

Definition set_sources_gathered (v : list pyval) (s : State) : State :=
  mkState (search_query s) (web_research_results s) v (research_topic s)
          (research_loop_count s) (running_summary s) (max_iterations s).

Definition set_research_loop_count (v : Z) (s : State) : State :=
  mkState (search_query s) (web_research_results s) (sources_gathered s)
          (research_topic s) v (running_summary s) (max_iterations s).

Definition set_running_summary (v : string) (s : State) : State :=
  mkState (search_query s) (web_research_results s) (sources_gathered s)
          (research_topic s) (research_loop_count s) v (max_iterations s).

Local Open Scope py_scope.

Definition initialize_state : py State unit :=
  modify (set_research_loop_count 0%Z) ;;>
  modify (set_web_research_results []) ;;>
  modify (set_sources_gathered []) ;;>
  modify (set_running_summary "").

(** [except (json.JSONDecodeError, KeyError)] *)
Definition decode_or_key_error (e : exn) : bool :=
  match e with
  | JSONDecodeError | KeyError => true
  | _ => false
  end.

Definition generate_search_query (response : outcome reply) : py State unit :=
  r <~ lift response ;;
  try_except
    (query_data <~ lift (json_loads r) ;;
     q <~ lift (py_getitem query_data "query") ;;
     modify (set_search_query q))
    decode_or_key_error
    (topic <~ gets research_topic ;;
     modify (set_search_query (PStr topic))).

Definition search_web (tool : outcome pyval) : py State unit :=
  search_results <~ lift tool ;;
  items <~ lift (py_iter search_results) ;;
  modify (λ s, set_web_research_results (web_research_results s ++ items) s) ;;>
  if is_dict search_results && has_key "results" search_results then
    results <~ lift (py_getitem search_results "results") ;;
    rs <~ lift (py_iter results) ;;
    urls <~ lift (omap (λ r, py_getitem r "url") rs) ;;
    modify (λ s, set_sources_gathered (sources_gathered s ++ urls) s)
  else ret tt.

Definition update_summary (response : outcome reply) : py State unit :=
  r <~ lift response ;;
  modify (set_running_summary (content r)) ;;>
  modify (set_web_research_results []).

Definition reflect_and_identify_gaps (response : outcome reply) : py State unit :=
  r <~ lift response ;;
  try_except
    (reflection_data <~ lift (json_loads r) ;;
     q <~ lift (py_getitem reflection_data "follow_up_query") ;;
     modify (set_search_query q))
    decode_or_key_error
    (topic <~ gets research_topic ;;
     modify (set_search_query (PStr ("latest developments in " +:+ topic)))) ;;>
  modify (λ s, set_research_loop_count (research_loop_count s + 1)%Z s).

Definition should_continue_research (s : State) : bool :=
  bool_decide (research_loop_count s < max_iterations s)%Z.

(** The graph: five nodes, four plain edges and the conditional edge out
    of [reflect]. *)
Inductive node : Type :=
| Initialize
| GenerateQuery
| SearchWeb
| UpdateSummary
| Reflect.

#[global] Instance node_eq_dec : EqDecision node.
Proof. solve_decision. Defined.

(** The successor of a node, evaluated on the state the node left behind;
    [None] would mean that the node has no outgoing edge and the run ends. *)
Definition next (n : node) (s : State) : option node :=
  match n with
  | Initialize => Some GenerateQuery
  | GenerateQuery => Some SearchWeb
  | SearchWeb => Some UpdateSummary
  | UpdateSummary => Some Reflect
  | Reflect => if should_continue_research s then Some SearchWeb
               else Some UpdateSummary
  end.

(** The collaborators as oracles: what the [t]-th node invocation of the
    run gets back from the chat model ([chain.invoke]) and from the call
    [search_tool.invoke(state.search_query, name="web_search")]. *)
Record World : Type := mkWorld {
  llm : nat → outcome reply;
  search : nat → outcome pyval
}.

Definition run_node (w : World) (t : nat) (n : node) : py State unit :=
  match n with
  | Initialize => initialize_state
  | GenerateQuery => generate_search_query (llm w t)
  | SearchWeb => search_web (search w t)
  | UpdateSummary => update_summary (llm w t)
  | Reflect => reflect_and_identify_gaps (llm w t)
  end.

(** *** How the graph stores what a node returns

    The graph is a [StateGraph(ResearchState)], and [common/state.py]
    declares [web_research_results] and [sources_gathered] with the reducer
    [operator.add]: what a node returns under such a field is added to the
    stored list, while every other field takes the returned value.  Each
    node returns the state object it was given, and the two lists of that
    object are the stored lists themselves.  So a node that leaves a list
    alone returns the stored list, which is added to itself; a node that
    extends a list in place ([search_web]) has extended the stored list by
    the time its return value is added to it; and a node that assigns a new
    list to the field ([initialize_state] to both, [update_summary] to the
    buffer) leaves the stored list as it was before its return value is
    added. *)

(** [state.web_research_results = ...] occurs in the node. *)
Definition assigns_web_research_results (n : node) : bool :=
  match n with
  | Initialize | UpdateSummary => true
  | _ => false
  end.

(** [state.sources_gathered = ...] occurs in the node. *)
Definition assigns_sources_gathered (n : node) : bool :=
  match n with
  | Initialize => true
  | _ => false
  end.

(** The stored state after node [n], entered in state [s], has returned
    the object [s']. *)
Definition merge (n : node) (s s' : State) : State :=
  set_sources_gathered
    ((if assigns_sources_gathered n then sources_gathered s
      else sources_gathered s') ++ sources_gathered s')
    (set_web_research_results
       ((if assigns_web_research_results n then web_research_results s
         else web_research_results s') ++ web_research_results s')
       s').

(** One node invocation by the graph: the node body, and the merge of what
    it returns.  An exception leaves the node without a merge. *)
Definition invoke (w : World) (t : nat) (n : node) : py State unit :=
  λ s, match run_node w t n s with
       | (s', Ret u) => (merge n s s', Ret u)
       | (s', Exc e) => (s', Exc e)
       end.

Inductive result : Type :=
| Finished (s : State) (visited : list node)
| Crashed (e : exn) (visited : list node)
| StillRunning (n : node) (s : State) (visited : list node).

(** [exec w fuel t n s visited]: the next [fuel] node invocations of a
    run, starting with node [n] as invocation number [t] on the stored
    state [s]. *)
Fixpoint exec (w : World) (fuel t : nat) (n : node) (s : State)
    (visited : list node) : result :=
  match fuel with
  | O => StillRunning n s visited
  | S fuel' =>
      match invoke w t n s with
      | (s', Ret _) =>
          match next n s' with
          | Some n' => exec w fuel' (S t) n' s' (visited ++ [n])
          | None => Finished s' (visited ++ [n])
          end
      | (_, Exc e) => Crashed e (visited ++ [n])
      end
  end.

(** The first [fuel] node invocations of the run on the input [s]. *)
Definition run (w : World) (fuel : nat) (s : State) : result :=
  exec w fuel 0 Initialize s [].

(** The whole run, as [graph.ainvoke(state)] makes it: LangGraph allows
    [recursion_limit] node invocations (25 unless the caller's config says
    otherwise) and raises [GraphRecursionError] when the run has not ended
    by then. *)
Definition ainvoke (w : World) (recursion_limit : nat) (s : State) : result :=
  match run w recursion_limit s with
  | StillRunning _ _ visited => Crashed GraphRecursionError visited
  | r => r
  end.

(** *** Vocabulary of the facts proved below *)

(** The ways in which [generate_search_query] and
    [reflect_and_identify_gaps] raise: the chat model raises, or its reply
    is JSON but not an object (the subscript raises [TypeError], which the
    [except] clause does not list). *)
Definition reply_raises (o : outcome reply) (e : exn) : Prop :=
  o = Exc e ∨
  (e = TypeError ∧ ∃ r v, o = Ret r ∧ parsed r = Some v ∧ is_dict v = false).

(** The ways in which [search_web] raises: the tool call raises, its result
    cannot be iterated, or it is a dict whose [results] cannot be iterated
    or hold an item without [url]. *)
Definition results_raise (o : outcome pyval) (e : exn) : Prop :=
  o = Exc e ∨
  ∃ v, o = Ret v ∧
       (py_iter v = Exc e ∨
        ∃ d found, v = PDict d ∧ dict_lookup "results" d = Some found ∧
                   obind (py_iter found) (omap (λ r, py_getitem r "url"))
                   = Exc e).

(** Node [n], as the [t]-th invocation of a run, raises [e]. *)
Definition node_raises (w : World) (t : nat) (n : node) (e : exn) : Prop :=
  match n with
  | Initialize => False
  | GenerateQuery | Reflect => reply_raises (llm w t) e
  | UpdateSummary => llm w t = Exc e
  | SearchWeb => results_raise (search w t) e
  end.

End Research.

(** ** The newsletter workflow ([newsletter/graph.py]) *)

Module Newsletter.

(** [NewsletterState] of [newsletter/state.py].  [web_research_results] is
    declared as a list but holds whatever the search tool returned; a key of
    [category_summaries] is the value of [current_category] at the time of
    the write. *)
Record State : Type := mkState {
  date : option string;
  categories : list string;
  current_category : option string;
  search_query : pyval;
  web_research_results : pyval;
  search_tool_name : string;
  category_summaries : gmap (option string) pyval;
  newsletter_summary : string;
  sources_gathered : list pyval
}.

Definition set_date (v : option string) (s : State) : State :=
  mkState v (categories s) (current_category s) (search_query s)
          (web_research_results s) (search_tool_name s)
          (category_summaries s) (newsletter_summary s) (sources_gathered s).

Definition set_categories (v : list string) (s : State) : State :=
  mkState (date s) v (current_category s) (search_query s)
          (web_research_results s) (search_tool_name s)
          (category_summaries s) (newsletter_summary s) (sources_gathered s).

Definition set_current_category (v : option string) (s : State) : State :=
  mkState (date s) (categories s) v (search_query s)
          (web_research_results s) (search_tool_name s)
          (category_summaries s) (newsletter_summary s) (sources_gathered s).

Definition set_search_query (v : pyval) (s : State) : State :=
  mkState (date s) (categories s) (current_category s) v
          (web_research_results s) (search_tool_name s)
          (category_summaries s) (newsletter_summary s) (sources_gathered s).

Definition set_web_research_results (v : pyval) (s : State) : State :=
  mkState (date s) (categories s) (current_category s) (search_query s)
          v (search_tool_name s)
          (category_summaries s) (newsletter_summary s) (sources_gathered s).

Definition set_search_tool_name (v : string) (s : State) : State :=
  mkState (date s) (categories s) (current_category s) (search_query s)
          (web_research_results s) v
          (category_summaries s) (newsletter_summary s) (sources_gathered s).

Definition set_category_summaries (v : gmap (option string) pyval)
    (s : State) : State :=
  mkState (date s) (categories s) (current_category s) (search_query s)
          (web_research_results s) (search_tool_name s)
          v (newsletter_summary s) (sources_gathered s).

Definition set_newsletter_summary (v : string) (s : State) : State :=
  mkState (date s) (categories s) (current_category s) (search_query s)
          (web_research_results s) (search_tool_name s)
          (category_summaries s) v (sources_gathered s).

Definition set_sources_gathered (v : list pyval) (s : State) : State :=
  mkState (date s) (categories s) (current_category s) (search_query s)
          (web_research_results s) (search_tool_name s)
          (category_summaries s) (newsletter_summary s) v.

(** [state.category_summaries[k] = v] *)
Definition store_summary (k : option string) (v : pyval) (s : State) : State :=
  set_category_summaries (<[k := v]> (category_summaries s)) s.

(** [cat in state.category_summaries] *)
Definition summarized (s : State) (cat : string) : bool :=
  bool_decide (is_Some (category_summaries s !! Some cat)).

(** [not x] for an [Optional[str]] *)
Definition falsy (o : option string) : bool :=
  match o with
  | None => true
  | Some x => bool_decide (x = "")
  end.

Definition default_categories : list string :=
  [ "Big Tech & Startups";
    "Science & Futuristic Technology";
    "Programming, Design & Data Science" ].

(** [l[i]] *)
Definition list_item (l : list string) (i : nat) : outcome string :=
  match l !! i with
  | Some x => Ret x
  | None => Exc IndexError
  end.

Fixpoint index_of (x : string) (l : list string) : option nat :=
  match l with
  | [] => None
  | y :: l' => if String.eqb y x then Some 0 else S <$> index_of x l'
  end.

(** [l.index(x)]: the first position of [x], [ValueError] when absent
    ([None] is never equal to a string). *)
Definition list_index (x : option string) (l : list string) : outcome nat :=
  match x with
  | Some c => match index_of c l with
              | Some i => Ret i
              | None => Exc ValueError
              end
  | None => Exc ValueError
  end.

Local Open Scope py_scope.

Definition when (b : bool) (m : py State unit) : py State unit :=
  if b then m else ret tt.

(** [today] is [datetime.now().strftime("%Y-%m-%d")], [tool_name] is
    [config.get("search_tool", "duckduckgo")]. *)
Definition initialize_state (today tool_name : string) : py State unit :=
  d <~ gets date ;;
  when (falsy d) (modify (set_date (Some today))) ;;>
  cs <~ gets categories ;;
  when (bool_decide (cs = [])) (modify (set_categories default_categories)) ;;>
  c <~ gets current_category ;;
  when (falsy c)
       (cs' <~ gets categories ;;
        first_category <~ lift (list_item cs' 0) ;;
        modify (set_current_category (Some first_category))) ;;>
  modify (set_category_summaries ∅) ;;>
  modify (set_newsletter_summary "") ;;>
  modify (set_sources_gathered []) ;;>
  modify (set_search_query (PStr "")) ;;>
  modify (set_web_research_results (PList [])) ;;>
  modify (set_search_tool_name tool_name).

(** [f"{category} latest news {date}"] *)
Definition fallback_query (category date : option string) : string :=
  fmt_opt category +:+ " latest news " +:+ fmt_opt date.

Definition generate_search_query (response : outcome reply) : py State unit :=
  try_except
    (r <~ lift response ;;
     query_data <~ lift (json_loads r) ;;
     q <~ lift (py_getitem query_data "query") ;;
     modify (set_search_query q))
    any_exception
    (c <~ gets current_category ;;
     d <~ gets date ;;
     modify (set_search_query (PStr (fallback_query c d)))).

(** Lines 134-138 and 317-321: collect the urls of a result dictionary. *)
Definition gather_sources (search_results : pyval) : py State unit :=
  if is_dict search_results && has_key "results" search_results then
    results <~ lift (py_getitem search_results "results") ;;
    rs <~ lift (py_iter results) ;;
    urls <~ lift (omap (λ r, py_getitem r "url") rs) ;;
    modify (λ s, set_sources_gathered (sources_gathered s ++ urls) s)
  else ret tt.

(** Lines 128-130 and 311-313: store the raw results and count them. *)
Definition store_results (search_results : pyval) : py State unit :=
  modify (set_web_research_results search_results) ;;>
  found <~ lift (py_get search_results "results" (PList [])) ;;
  result_count <~ lift (py_len found) ;;
  ret tt.

Definition empty_results : pyval := PDict [("results", PList [])].

Definition search_news (tool : outcome pyval) : py State unit :=
  try_except
    (search_results <~ lift tool ;;
     store_results search_results ;;>
     gather_sources search_results)
    any_exception
    (modify (set_web_research_results empty_results)).

(** Lines 170-177 and 341-348: parse the summarizer's reply into
    [category_summaries[current_category]]. *)
Definition store_summaries (response : reply) : py State unit :=
  try_except
    (summary_data <~ lift (json_loads response) ;;
     summaries <~ lift (py_getitem summary_data "summaries") ;;
     c <~ gets current_category ;;
     modify (store_summary c summaries) ;;>
     generated <~ lift (obind (py_getitem summary_data "summaries") py_len) ;;
     ret tt)
    any_exception
    (c <~ gets current_category ;;
     modify (store_summary c (PList []))).

Definition summarize_category (response : outcome reply) : py State unit :=
  r <~ lift response ;;
  store_summaries r.

Definition update_category : py State unit :=
  try_except
    (c <~ gets current_category ;;
     cs <~ gets categories ;;
     current_index <~ lift (list_index c cs) ;;
     if bool_decide (current_index + 1 < length cs) then
       next_category <~ lift (list_item cs (current_index + 1)) ;;
       modify (set_current_category (Some next_category)) ;;>
       modify (set_search_query (PStr "")) ;;>
       modify (set_web_research_results (PList []))
     else ret tt)
    any_exception
    (ret tt).

Definition should_process_next_category : py State bool :=
  try_except
    (cs <~ gets categories ;;
     s <~ gets id ;;
     let processed_categories := length (filter (λ cat, summarized s cat) cs) in
     let max_normal_processing := length cs `min` 2 in
     if bool_decide (max_normal_processing ≤ processed_categories) then
       ret false
     else
       c <~ gets current_category ;;
       current_index <~ lift (list_index c cs) ;;
       ret (bool_decide (current_index + 1 < length cs)))
    any_exception
    (ret false).

Definition end_workflow : py State unit := ret tt.

(** One round of the loop of [process_remaining_categories]; [tool] and
    [response] are what the search tool and the chat model produce in this
    round. *)
Definition process_category (tool : outcome pyval) (response : outcome reply)
    (category : string) : py State unit :=
  modify (set_current_category (Some category)) ;;>
  d <~ gets date ;;
  modify (set_search_query (PStr (fallback_query (Some category) d))) ;;>
  try_except
    (search_results <~ lift tool ;;
     store_results search_results ;;>
     gather_sources search_results ;;>
     r <~ lift response ;;
     store_summaries r)
    any_exception
    (modify (set_web_research_results empty_results) ;;>
     c <~ gets current_category ;;
     modify (store_summary c (PList []))).

Definition process_remaining_categories (tool : nat → outcome pyval)
    (chat : nat → outcome reply) : py State unit :=
  cs <~ gets categories ;;
  s <~ gets id ;;
  let unprocessed_categories := filter (λ cat, ¬ summarized s cat) cs in
  if bool_decide (unprocessed_categories ≠ []) then
    for_each 0 unprocessed_categories
             (λ i category, process_category (tool i) (chat i) category)
  else ret tt.

Definition category_emojis (category : string) : string :=
  if String.eqb category "Big Tech & Startups" then "📱"
  else if String.eqb category "Science & Futuristic Technology" then "🚀"
  else if String.eqb category "Programming, Design & Data Science" then "💻"
  else "".

Definition nl : string := String (Ascii.ascii_of_nat 10) EmptyString.

(** [f"{v}"]: a string prints as itself, [str_of] is Python's [str] on
    the other values. *)
Definition fmt (str_of : pyval → string) (v : pyval) : string :=
  match v with
  | PStr x => x
  | _ => str_of v
  end.

Definition render_article (str_of : pyval → string) (newsletter : string)
    (article : pyval) : outcome string :=
  obind (py_getitem article "title") (λ title,
  obind (py_getitem article "summary") (λ summary,
  obind (py_getitem article "url") (λ url,
  Ret (newsletter +:+ fmt str_of title +:+ nl +:+ nl
                  +:+ fmt str_of summary +:+ nl
                  +:+ "Read more: " +:+ fmt str_of url +:+ nl +:+ nl)))).

Fixpoint render_articles (str_of : pyval → string) (newsletter : string)
    (articles : list pyval) : outcome string :=
  match articles with
  | [] => Ret newsletter
  | a :: rest => obind (render_article str_of newsletter a)
                       (λ n, render_articles str_of n rest)
  end.

Fixpoint render_sections (str_of : pyval → string)
    (summaries : gmap (option string) pyval) (newsletter : string)
    (cs : list string) : outcome string :=
  match cs with
  | [] => Ret newsletter
  | category :: rest =>
      obind (py_iter (default (PList []) (summaries !! Some category)))
        (λ articles,
      obind (render_articles str_of
               (newsletter +:+ category_emojis category +:+ nl
                           +:+ category +:+ nl) articles)
        (λ n, render_sections str_of summaries n rest))
  end.

Definition generate_newsletter (str_of : pyval → string) : py State unit :=
  cs <~ gets categories ;;
  for_each 0 cs (λ _ category,
    s <~ gets id ;;
    when (negb (summarized s category))
         (modify (store_summary (Some category) (PList [])))) ;;>
  d <~ gets date ;;
  summaries <~ gets category_summaries ;;
  newsletter <~ lift (render_sections str_of summaries
                        ("🏗️ Builder's News " +:+ fmt_opt d +:+ nl +:+ nl) cs) ;;
  modify (set_newsletter_summary newsletter).

Inductive node : Type :=
| Initialize
| GenerateQuery
| Search
| Summarize
| UpdateCategory
| ProcessRemaining
| GenerateNewsletter
| End.

(** The branch taken by the conditional edge out of [update_category]. *)
Definition continue_categories (s : State) : bool :=
  match should_process_next_category s with
  | (_, Ret b) => b
  | (_, Exc _) => false
  end.

Definition next (n : node) (s : State) : option node :=
  match n with
  | Initialize => Some GenerateQuery
  | GenerateQuery => Some Search
  | Search => Some Summarize
  | Summarize => Some UpdateCategory
  | UpdateCategory => if continue_categories s then Some GenerateQuery
                      else Some ProcessRemaining
  | ProcessRemaining => Some GenerateNewsletter
  | GenerateNewsletter => Some End
  | End => None
  end.

(** Everything outside the repository that a run depends on: the clock,
    the configured tool name, Python's [str], and the collaborators'
    answers ([llm w t i]: the [i]-th call of the chat model in the [t]-th
    node invocation). *)
Record World : Type := mkWorld {
  today : string;
  tool_name : string;
  str_of : pyval → string;
  llm : nat → nat → outcome reply;
  search : nat → nat → outcome pyval
}.

Definition run_node (w : World) (t : nat) (n : node) : py State unit :=
  match n with
  | Initialize => initialize_state (today w) (tool_name w)
  | GenerateQuery => generate_search_query (llm w t 0)
  | Search => search_news (search w t 0)
  | Summarize => summarize_category (llm w t 0)
  | UpdateCategory => update_category
  | ProcessRemaining => process_remaining_categories (search w t) (llm w t)
  | GenerateNewsletter => generate_newsletter (str_of w)
  | End => end_workflow
  end.

Inductive result : Type :=
| Finished (s : State) (visited : list node)
| Crashed (e : exn) (visited : list node)
| StillRunning (n : node) (s : State) (visited : list node).

Fixpoint exec (w : World) (fuel t : nat) (n : node) (s : State)
    (visited : list node) : result :=
  match fuel with
  | O => StillRunning n s visited
  | S fuel' =>
      match run_node w t n s with
      | (s', Ret _) =>
          match next n s' with
          | Some n' => exec w fuel' (S t) n' s' (visited ++ [n])
          | None => Finished s' (visited ++ [n])
          end
      | (_, Exc e) => Crashed e (visited ++ [n])
      end
  end.

Definition run (w : World) (fuel : nat) (s : State) : result :=
  exec w fuel 0 Initialize s [].

(** *** Vocabulary of the facts proved below *)

(** The state [update_category] leaves when it moves on to [nxt]. *)
Definition advanced (nxt : string) (s : State) : State :=
  set_web_research_results (PList [])
    (set_search_query (PStr "") (set_current_category (Some nxt) s)).

(** Every stored summary satisfies [Q]. *)
Definition all_stored (Q : pyval → Prop) (s : State) : Prop :=
  map_Forall (λ _ v, Q v) (category_summaries s).

(** Every stored summary supports [len]. *)
Definition all_sized (s : State) : Prop := all_stored sized s.

(** An article that [generate_newsletter] can print, and a summary value
    it can iterate over and print. *)
Definition article_ok (a : pyval) : Prop :=
  ∃ title summary url,
    py_getitem a "title" = Ret title ∧
    py_getitem a "summary" = Ret summary ∧
    py_getitem a "url" = Ret url.

Definition renderable (v : pyval) : Prop :=
  ∃ articles, py_iter v = Ret articles ∧ Forall article_ok articles.

(** Whatever the chat model of [w] supplies under the key [summaries]
    (and [len] accepts) satisfies [Q]. *)
Definition supplies (Q : pyval → Prop) (w : World) : Prop :=
  ∀ t i r summary_data v,
    llm w t i = Ret r → parsed r = Some summary_data →
    py_getitem summary_data "summaries" = Ret v → sized v → Q v.

(** [s'] comes from [s] by work that leaves the inputs alone, only appends
    to [sources_gathered], adds exactly the keys [K] to
    [category_summaries], and stores only values that satisfy [Q]. *)
Definition grows_by (Q : pyval → Prop) (K : gset (option string))
    (s s' : State) : Prop :=
  categories s' = categories s ∧
  date s' = date s ∧
  sources_gathered s `prefix_of` sources_gathered s' ∧
  dom (category_summaries s') = dom (category_summaries s) ∪ K ∧
  (all_stored Q s → all_stored Q s').

(** A summary as a run stores it: the empty list, or a value with a length
    that a call of the chat model returned under the key [summaries]. *)
Definition from_summarizer (w : World) (v : pyval) : Prop :=
  v = PList [] ∨
  (sized v ∧
   ∃ t i r summary_data,
     llm w t i = Ret r ∧ parsed r = Some summary_data ∧
     py_getitem summary_data "summaries" = Ret v).

(** A state with the given categories, current category and summary keys. *)
Definition with_keys (cs : list string) (c : option string)
    (K : gset (option string)) : State :=
  mkState None cs c PNone PNone "" (gset_to_gmap PNone K) "" [].

End Newsletter.

(** ** Concrete collaborators and states used by the examples below *)

Module Scenarios.

(** A search tool that finds nothing and a chat model whose reply is plain
    prose (not JSON). *)
Definition no_results : pyval := PDict [("results", PList [])].

Definition prose : reply := Reply "notes" None.

Definition quiet_research : Research.World :=
  Research.mkWorld (λ _, Ret prose) (λ _, Ret no_results).

(** A search tool that fails, as [tavily_search] and [perplexity_search] do
    on a network error. *)
Definition offline_research : Research.World :=
  Research.mkWorld (λ _, Ret prose) (λ _, Exc CollaboratorError).

(** The research graph with the tool that [get_search_tool] builds: the
    call [search_tool.invoke(state.search_query, name="web_search")] hands
    LangChain's [Tool] a second [name] for its callbacks, and the call
    raises [TypeError] before the search function is run. *)
Definition tool_call_raises : Research.World :=
  Research.mkWorld (λ _, Ret prose) (λ _, Exc TypeError).

(** [ResearchState(research_topic=topic, max_iterations=depth)] *)
Definition research_input (topic : string) (depth : Z) : Research.State :=
  Research.mkState (PStr "") [] [] topic 0 "" depth.

(** A research state that already lists one source. *)
Definition research_with_source : Research.State :=
  Research.mkState (PStr "") [] [PStr "https://example.org"] "X" 0 "" 3.

Definition quiet_newsletter : Newsletter.World :=
  Newsletter.mkWorld "2025-03-04" "duckduckgo" (λ _, "?")
                     (λ _ _, Ret prose) (λ _ _, Ret no_results).

(** [NewsletterState(categories=cs, current_category=c)] *)
Definition newsletter_input (cs : list string) (c : option string)
    : Newsletter.State :=
  Newsletter.mkState None cs c (PStr "") (PList []) "duckduckgo" ∅ "" [].

(** A newsletter input that already lists one source. *)
Definition newsletter_with_source : Newsletter.State :=
  Newsletter.mkState None ["A"] None (PStr "") (PList []) "duckduckgo" ∅ ""
                     [PStr "https://example.org"].

(** A state in which the only category has been summarised. *)
Definition all_summarized : Newsletter.State :=
  Newsletter.mkState (Some "2025-03-04") ["A"] (Some "A") (PStr "") (PList [])
                     "duckduckgo" {[ Some "A" := PList [] ]} "" [].

(** A caller-supplied current category that is not one of the categories,
    and the state in which such a run reaches [update_category]. *)
Definition stray_input : Newsletter.State :=
  newsletter_input ["A"; "B"; "C"] (Some "Z").

Definition stray_category : Newsletter.State :=
  Newsletter.mkState (Some "2025-03-04") ["A"; "B"; "C"] (Some "Z")
                     (PStr "Z latest news 2025-03-04") no_results
                     "duckduckgo" {[ Some "Z" := PList [] ]} "" [].

End Scenarios.

(** ** More of Python's value operations

    Used by the search tools and the configuration loader.  [py_truthy] is
    the one operation that looks at a number: zero is falsy. *)

(** [bool(v)] *)
Definition py_truthy (v : pyval) : bool :=
  match v with
  | PNone => false
  | PBool b => b
  | PInt z => negb (z =? 0)%Z
  | PStr s => negb (String.eqb s "")
  | PList l => negb (bool_decide (l = []))
  | PDict d => negb (bool_decide (d = []))
  end.

(** [v[i]] with an integer index [i ≥ 0]; a dict made from JSON has no
    integer key. *)
Definition py_index (v : pyval) (i : nat) : outcome pyval :=
  match v with
  | PList l => match l !! i with
               | Some x => Ret x
               | None => Exc IndexError
               end
  | PStr s => match chars s !! i with
              | Some x => Ret x
              | None => Exc IndexError
              end
  | PDict _ => Exc KeyError
  | _ => Exc TypeError
  end.

(** The items of the slice [v[1:]]; slicing a dict raises ([TypeError]
    up to Python 3.11, [KeyError] from 3.12 on). *)
Definition py_rest (v : pyval) : outcome (list pyval) :=
  match v with
  | PList l => Ret (tail l)
  | PStr s => Ret (tail (chars s))
  | _ => Exc TypeError
  end.

(** ** The search tools ([common/search_tools.py])

    The network is outside the repository: [duckduckgo_search] is given what
    [list(ddgs.text(...))] produced and what fetching a page produces,
    [tavily_search] what the Tavily client returned, and
    [perplexity_search] the body of the HTTP response (or the exception
    raised by the request, [raise_for_status] or the decoding). *)

Module SearchTools.

(** [all([url, title, content])] *)
Definition complete (url title content : pyval) : bool :=
  py_truthy url && py_truthy title && py_truthy content.

(** One round of the loop over the hits: [None] is [continue]. *)
Definition duckduckgo_result (fetch : pyval → outcome pyval)
    (fetch_full_page : bool) (r : pyval) : outcome (option pyval) :=
  obind (py_get r "href" PNone) (λ url,
  obind (py_get r "title" PNone) (λ title,
  obind (py_get r "body" PNone) (λ content,
  if negb (complete url title content) then Ret None
  else
    let raw_content :=
      if fetch_full_page then
        match fetch url with
        | Ret page => page
        | Exc _ => content
        end
      else content in
    Ret (Some (PDict [("title", title); ("url", url); ("content", content);
                      ("raw_content", raw_content)]))))).

Fixpoint duckduckgo_results (fetch : pyval → outcome pyval)
    (fetch_full_page : bool) (search_results : list pyval)
    : outcome (list pyval) :=
  match search_results with
  | [] => Ret []
  | r :: rest =>
      obind (duckduckgo_result fetch fetch_full_page r) (λ o,
      obind (duckduckgo_results fetch fetch_full_page rest) (λ results,
      Ret (match o with
           | Some result => result :: results
           | None => results
           end)))
  end.

Definition duckduckgo_search (hits : outcome (list pyval))
    (fetch : pyval → outcome pyval) (fetch_full_page : bool)
    : outcome pyval :=
  match obind hits (duckduckgo_results fetch fetch_full_page) with
  | Ret results => Ret (PDict [("results", PList results)])
  | Exc _ => Ret (PDict [("results", PList [])])
  end.

Definition tavily_search (client : outcome pyval) : outcome pyval := client.

(** [f"Perplexity Search {n + 1}, Source {i}"] *)
Definition perplexity_title (perplexity_search_loop_count : Z) (i : nat)
    : string :=
  "Perplexity Search " +:+ pretty (perplexity_search_loop_count + 1)%Z
    +:+ ", Source " +:+ pretty i.

Definition perplexity_search (http : outcome pyval)
    (perplexity_search_loop_count : Z) : outcome pyval :=
  obind http (λ data,
  obind (py_getitem data "choices") (λ choices,
  obind (py_index choices 0) (λ choice,
  obind (py_getitem choice "message") (λ message,
  obind (py_getitem message "content") (λ content,
  obind (py_get data "citations" (PList [PStr "https://perplexity.ai"]))
    (λ citations,
  obind (py_index citations 0) (λ first_citation,
  obind (py_rest citations) (λ other_citations,
  Ret (PDict [("results", PList (
    PDict [("title", PStr (perplexity_title perplexity_search_loop_count 1));
           ("url", first_citation);
           ("content", content);
           ("raw_content", content)]
    :: imap (λ i citation,
         PDict [("title",
                 PStr (perplexity_title perplexity_search_loop_count (2 + i)));
                ("url", citation);
                ("content", PStr "See above for full content");
                ("raw_content", PNone)])
       other_citations))]))))))))).

(** The three entries of [search_functions]; the perplexity entry is the
    lambda that fixes the loop count to 0. *)
Inductive search_function : Type :=
| DuckDuckGo
| Tavily
| Perplexity.

Definition get_search_function (search_tool_name : string) : search_function :=
  if String.eqb search_tool_name "duckduckgo" then DuckDuckGo
  else if String.eqb search_tool_name "tavily" then Tavily
  else if String.eqb search_tool_name "perplexity" then Perplexity
  else DuckDuckGo.

(** What the network answers during one call of a search function. *)
Record Network : Type := mkNetwork {
  ddgs_text : outcome (list pyval);
  page_text : pyval → outcome pyval;
  tavily_client : outcome pyval;
  perplexity_http : outcome pyval
}.

(** Calling the function with the query alone, as the tool built by
    [get_search_tool] does: the other parameters take their defaults. *)
Definition call (f : search_function) (net : Network) : outcome pyval :=
  match f with
  | DuckDuckGo => duckduckgo_search (ddgs_text net) (page_text net) false
  | Tavily => tavily_search (tavily_client net)
  | Perplexity => perplexity_search (perplexity_http net) 0
  end.

(** The value a hit carries under [k], [None] when it has none. *)
Definition hit_field (k : string) (r : pyval) : pyval :=
  match r with
  | PDict d => default PNone (dict_lookup k d)
  | _ => PNone
  end.

(** A hit that survives the completeness test of [duckduckgo_search]. *)
Definition hit_complete (r : pyval) : bool :=
  complete (hit_field "href" r) (hit_field "title" r) (hit_field "body" r).

(** The entry [duckduckgo_search] builds from a hit. *)
Definition hit_result (fetch : pyval → outcome pyval) (fetch_full_page : bool)
    (r : pyval) : pyval :=
  PDict [("title", hit_field "title" r); ("url", hit_field "href" r);
         ("content", hit_field "body" r);
         ("raw_content",
          if fetch_full_page then
            match fetch (hit_field "href" r) with
            | Ret page => page
            | Exc _ => hit_field "body" r
            end
          else hit_field "body" r)].

(** An entry as the search tools of this module build them: the four keys
    in this order, with a title, a url and a content that are not falsy. *)
Definition entry_ok (fetch_full_page : bool) (r : pyval) : Prop :=
  ∃ title url content raw_content,
    r = PDict [("title", title); ("url", url); ("content", content);
               ("raw_content", raw_content)] ∧
    py_truthy url ∧ py_truthy title ∧ py_truthy content ∧
    (fetch_full_page = false → raw_content = content).

End SearchTools.

(** ** The configuration loader ([configuration.py]) *)

Module Configuration.

Inductive SearchAPI : Type :=
| PERPLEXITY
| TAVILY
| DUCKDUCKGO.

(** The value of a field: a member of [SearchAPI] (only the default of
    [search_api] is one) or any other Python value. *)
Inductive field_value : Type :=
| Member (a : SearchAPI)
| Value (v : pyval).

Record Configuration : Type := mkConfiguration {
  max_web_research_loops : field_value;
  local_llm : field_value;
  search_api : field_value;
  fetch_full_page : field_value;
  ollama_base_url : field_value
}.

(** [fields(cls)], in declaration order. *)
Definition field_names : list string :=
  [ "max_web_research_loops"; "local_llm"; "search_api"; "fetch_full_page";
    "ollama_base_url" ].

(** [str.upper] on ASCII text. *)
Definition upper_char (a : Ascii.ascii) : Ascii.ascii :=
  let n := Ascii.nat_of_ascii a in
  if (97 <=? n)%nat && (n <=? 122)%nat then Ascii.ascii_of_nat (n - 32)
  else a.

Fixpoint upper (s : string) : string :=
  match s with
  | EmptyString => EmptyString
  | String a s' => String (upper_char a) (upper s')
  end.

(** [config.get("configurable", {}) if config else {}] *)
Definition configurable_settings (config : option pyval) : outcome pyval :=
  match config with
  | Some c => if py_truthy c then py_get c "configurable" (PDict [])
              else Ret (PDict [])
  | None => Ret (PDict [])
  end.

(** [os.environ.get(env_var_name) or configurable_settings.get(field_name)]:
    the right operand is evaluated only when the left one is falsy. *)
Definition lookup_setting (environ : string → option string)
    (settings : pyval) (field_name : string) : outcome pyval :=
  match environ (upper field_name) with
  | Some x => if String.eqb x "" then py_get settings field_name PNone
              else Ret (PStr x)
  | None => py_get settings field_name PNone
  end.

(** The loop that fills [config_values]. *)
Fixpoint collect (environ : string → option string) (settings : pyval)
    (names : list string) : outcome (list (string * pyval)) :=
  match names with
  | [] => Ret []
  | field_name :: rest =>
      obind (lookup_setting environ settings field_name) (λ value,
      obind (collect environ settings rest) (λ config_values,
      Ret (match value with
           | PNone => config_values
           | _ => (field_name, value) :: config_values
           end)))
  end.

(** The constructor call with [config_values] as keyword arguments: a
    field takes the given value or its default. *)
Definition field (config_values : list (string * pyval)) (name : string)
    (dflt : field_value) : field_value :=
  match dict_lookup name config_values with
  | Some v => Value v
  | None => dflt
  end.

Definition construct (config_values : list (string * pyval)) : Configuration :=
  mkConfiguration
    (field config_values "max_web_research_loops" (Value (PInt 3)))
    (field config_values "local_llm" (Value (PStr "deepseek-r1:32b")))
    (field config_values "search_api" (Member DUCKDUCKGO))
    (field config_values "fetch_full_page" (Value (PBool false)))
    (field config_values "ollama_base_url"
           (Value (PStr "http://localhost:11434/"))).

Definition from_runnable_config (environ : string → option string)
    (config : option pyval) : outcome Configuration :=
  obind (configurable_settings config) (λ settings,
  obind (collect environ settings field_names) (λ config_values,
  Ret (construct config_values))).

(** The fields of the dataclass: name, accessor and default. *)
Definition declared_fields
    : list (string * (Configuration → field_value) * field_value) :=
  [ ("max_web_research_loops", max_web_research_loops, Value (PInt 3));
    ("local_llm", local_llm, Value (PStr "deepseek-r1:32b"));
    ("search_api", search_api, Member DUCKDUCKGO);
    ("fetch_full_page", fetch_full_page, Value (PBool false));
    ("ollama_base_url", ollama_base_url,
     Value (PStr "http://localhost:11434/")) ].

(** The environment sets the variable to a string that is not empty. *)
Definition env_set (environ : string → option string) (var : string) : Prop :=
  ∃ x, environ var = Some x ∧ x ≠ "".

End Configuration.

(** ** Proof automation for node bodies *)

Ltac py_unfold :=
  unfold try_except, bind, lift, gets, modify, ret, any_exception in *.

(** ** Generic facts *)

Lemma filter_none {A} (P : A → Prop) `{!∀ x, Decision (P x)} (l : list A) :
  (∀ x, x ∈ l → ¬ P x) → filter P l = [].
Proof.
  induction l as [|x l IH]; intros Hall; [done|].
  rewrite filter_cons_False by (apply Hall; left).
  apply IH. intros y Hy. apply Hall. by right.
Qed.

Lemma bind_ok {St A B} (m : py St A) (k : A → py St B) (s s1 : St) (a : A) :
  m s = (s1, Ret a) → bind m k s = k a s1.
Proof. intros H. unfold bind. by rewrite H. Qed.

Lemma count_adjacent {A} (P : A → Prop) `{!∀ x, Decision (P x)}
    (l : list A) (i : nat) (a b : A) :
  l !! i = Some a → l !! S i = Some b → P a → P b →
  2 ≤ length (filter P l).
Proof.
  intros Ha Hb Pa Pb.
  rewrite <-(take_drop_middle l i a Ha), filter_app, length_app.
  rewrite (filter_cons_True P a) by done. simpl.
  rewrite <-(take_drop_middle l (S i) b Hb) in Ha |- *.
  rewrite drop_app_length' by (rewrite length_take; apply lookup_lt_Some in Hb; lia).
  rewrite (filter_cons_True P b) by done. simpl. lia.
Qed.

(** ** The research workflow: facts *)

Module ResearchFacts.
Import Research Scenarios.

Lemma next_total (n : node) (s : State) : is_Some (next n s).
Proof.
  destruct n; simpl; eauto.
  destruct (should_continue_research s); eauto.
Qed.

Lemma invoke_ret (w : World) (t : nat) (n : node) (s s' : State) :
  run_node w t n s = (s', Ret tt) → invoke w t n s = (merge n s s', Ret tt).
Proof. intros H. unfold invoke. by rewrite H. Qed.

Lemma invoke_exc (w : World) (t : nat) (n : node) (s s' : State) (e : exn) :
  run_node w t n s = (s', Exc e) → invoke w t n s = (s', Exc e).
Proof. intros H. unfold invoke. by rewrite H. Qed.

(** No run of the research graph ever finishes: every node, [reflect] on
    its stop branch included, has a successor. *)
Lemma exec_never_finishes (w : World) (fuel t : nat) (n : node) (s : State)
    (visited : list node) (s' : State) (visited' : list node) :
  exec w fuel t n s visited ≠ Finished s' visited'.
Proof.
  revert t n s visited.
  induction fuel as [|fuel IH]; intros t n s visited; simpl; [done|].
  destruct (invoke w t n s) as [s1 [[]|e]]; [|done].
  destruct (next_total n s1) as [n' ->].
  apply IH.
Qed.

Lemma query_node_shape (response : outcome reply) (s : State) :
  (∃ q, generate_search_query response s = (set_search_query q s, Ret tt)) ∨
  (∃ e, generate_search_query response s = (s, Exc e)).
Proof.
  unfold generate_search_query, json_loads. py_unfold.
  destruct response as [r|e]; simpl; [|eauto].
  destruct (parsed r) as [v|]; simpl; [|eauto].
  destruct (py_getitem v "query") as [q|[]]; simpl; eauto.
Qed.

Lemma search_web_shape (tool : outcome pyval) (s : State) :
  ∃ items urls o,
    search_web tool s =
    (set_sources_gathered (sources_gathered s ++ urls)
       (set_web_research_results (web_research_results s ++ items) s), o).
Proof.
  assert (∀ o : outcome unit, ∃ items urls o',
            (s, o) = (set_sources_gathered (sources_gathered s ++ urls)
                        (set_web_research_results
                           (web_research_results s ++ items) s), o')) as Hsame.
  { intros o. exists [], [], o. rewrite !app_nil_r. by destruct s. }
  unfold search_web. py_unfold.
  destruct tool as [v|e]; simpl; [|apply Hsame].
  destruct (py_iter v) as [items|e]; simpl; [|apply Hsame].
  destruct (is_dict v && has_key "results" v); simpl.
  2:{ exists items, [], (Ret tt). rewrite app_nil_r. by destruct s. }
  destruct (py_getitem v "results") as [rs|e]; simpl.
  2:{ exists items, [], (Exc e). rewrite app_nil_r. by destruct s. }
  destruct (py_iter rs) as [l|e]; simpl.
  2:{ exists items, [], (Exc e). rewrite app_nil_r. by destruct s. }
  destruct (omap _ l) as [urls|e]; simpl.
  - by exists items, urls, (Ret tt).
  - exists items, [], (Exc e). rewrite app_nil_r. by destruct s.
Qed.

Lemma update_summary_shape (response : outcome reply) (s : State) :
  update_summary response s =
  match response with
  | Ret r => (set_web_research_results [] (set_running_summary (content r) s),
              Ret tt)
  | Exc e => (s, Exc e)
  end.
Proof. by destruct response. Qed.

Lemma reflect_shape (response : outcome reply) (s : State) :
  (∃ q, reflect_and_identify_gaps response s =
        (set_research_loop_count (research_loop_count s + 1)
           (set_search_query q s), Ret tt)) ∨
  (∃ e, reflect_and_identify_gaps response s = (s, Exc e)).
Proof.
  unfold reflect_and_identify_gaps, json_loads. py_unfold.
  destruct response as [r|e]; simpl; [|eauto].
  destruct (parsed r) as [v|]; simpl; [|eauto].
  destruct (py_getitem v "follow_up_query") as [q|[]]; simpl; eauto.
Qed.

Lemma research_node_keeps_sources (w : World) (t : nat) (n : node) (s : State) :
  n ≠ Initialize →
  sources_gathered s `prefix_of` sources_gathered (run_node w t n s).1.
Proof.
  intros Hn. destruct n; [done| | | |]; simpl.
  - by destruct (query_node_shape (llm w t) s) as [[q ->]|[e ->]].
  - destruct (search_web_shape (search w t) s) as (items & urls & o & ->).
    simpl. by apply prefix_app_r.
  - rewrite update_summary_shape. by destruct (llm w t).
  - by destruct (reflect_shape (llm w t) s) as [[q ->]|[e ->]].
Qed.

(** Across a node invocation by the graph, [initialize] included, the
    stored list of sources only grows. *)
Lemma invoke_keeps_sources (w : World) (t : nat) (n : node) (s : State) :
  sources_gathered s `prefix_of` sources_gathered (invoke w t n s).1.
Proof.
  destruct (decide (n = Initialize)) as [->|Hn].
  { simpl. by rewrite app_nil_r. }
  pose proof (research_node_keeps_sources w t n s Hn) as Hp.
  unfold invoke. destruct (run_node w t n s) as [s' [u|e]]; [|done].
  simpl in *. replace (assigns_sources_gathered n) with false by (by destruct n).
  by apply prefix_app_r.
Qed.

Lemma research_node_keeps_buffer (w : World) (t : nat) (n : node) (s s' : State) :
  run_node w t n s = (s', Ret tt) →
  if assigns_web_research_results n then web_research_results s' = []
  else web_research_results s `prefix_of` web_research_results s'.
Proof.
  destruct n; simpl.
  - by intros [= <-].
  - destruct (query_node_shape (llm w t) s) as [[q ->]|[e ->]]; [|done].
    by intros [= <-].
  - destruct (search_web_shape (search w t) s) as (items & urls & o & ->).
    intros [= <- _]. simpl. by apply prefix_app_r.
  - rewrite update_summary_shape. destruct (llm w t); [|done]. by intros [= <-].
  - destruct (reflect_shape (llm w t) s) as [[q ->]|[e ->]]; [|done].
    by intros [= <-].
Qed.

(** What a node invocation that returns does to the fields without
    reducer. *)
Lemma invoke_frame (w : World) (t : nat) (n : node) (s s1 : State) :
  invoke w t n s = (s1, Ret tt) →
  max_iterations s1 = max_iterations s ∧
  research_topic s1 = research_topic s ∧
  research_loop_count s1 =
    (if decide (n = Initialize) then 0
     else research_loop_count s + if decide (n = Reflect) then 1 else 0)%Z.
Proof.
  unfold invoke. destruct (run_node w t n s) as [s' [[]|e]] eqn:Hrun; [|done].
  intros [= <-]. revert Hrun. destruct n; simpl.
  - by intros [= <-].
  - destruct (query_node_shape (llm w t) s) as [[q ->]|[e ->]]; [|done].
    intros [= <-]. simpl. repeat split; lia.
  - destruct (search_web_shape (search w t) s) as (items & urls & o & ->).
    intros [= <- _]. simpl. repeat split; lia.
  - rewrite update_summary_shape. destruct (llm w t); [|done].
    intros [= <-]. simpl. repeat split; lia.
  - destruct (reflect_shape (llm w t) s) as [[q ->]|[e ->]]; [|done].
    by intros [= <-].
Qed.

Lemma query_node_raises (o : outcome reply) (s : State) (e : exn) :
  (∃ s', generate_search_query o s = (s', Exc e)) ↔ reply_raises o e.
Proof.
  unfold generate_search_query, reply_raises, json_loads. py_unfold.
  destruct o as [r|e']; simpl.
  2:{ split; [intros (? & [= _ <-]); by left|].
      intros [[= <-]|(_ & ? & ? & ? & _)]; [by eexists|done]. }
  destruct (parsed r) as [[| | | | |d]|] eqn:Hp; simpl;
    try (split; [intros (? & [= _ <-]); right; split; [done|];
                 eexists r, _; by repeat split
                |intros [?|(-> & _)]; [done|by eexists]]).
  - destruct (dict_lookup "query" d); simpl;
      (split; [by intros (? & ?)|];
       intros [?|(_ & ? & ? & [= <-] & Hv & Hd)]; [done|];
       rewrite Hp in Hv; by injection Hv as <-).
  - split; [by intros (? & ?)|].
    intros [?|(_ & ? & ? & [= <-] & Hv & Hd)]; [done|]. congruence.
Qed.

Lemma reflect_raises (o : outcome reply) (s : State) (e : exn) :
  (∃ s', reflect_and_identify_gaps o s = (s', Exc e)) ↔ reply_raises o e.
Proof.
  unfold reflect_and_identify_gaps, reply_raises, json_loads. py_unfold.
  destruct o as [r|e']; simpl.
  2:{ split; [intros (? & [= _ <-]); by left|].
      intros [[= <-]|(_ & ? & ? & ? & _)]; [by eexists|done]. }
  destruct (parsed r) as [[| | | | |d]|] eqn:Hp; simpl;
    try (split; [intros (? & [= _ <-]); right; split; [done|];
                 eexists r, _; by repeat split
                |intros [?|(-> & _)]; [done|by eexists]]).
  - destruct (dict_lookup "follow_up_query" d); simpl;
      (split; [by intros (? & ?)|];
       intros [?|(_ & ? & ? & [= <-] & Hv & Hd)]; [done|];
       rewrite Hp in Hv; by injection Hv as <-).
  - split; [by intros (? & ?)|].
    intros [?|(_ & ? & ? & [= <-] & Hv & Hd)]; [done|]. congruence.
Qed.

Lemma search_web_raises (o : outcome pyval) (s : State) (e : exn) :
  (∃ s', search_web o s = (s', Exc e)) ↔ results_raise o e.
Proof.
  unfold search_web, results_raise. py_unfold.
  destruct o as [v|e']; simpl.
  2:{ split; [intros (? & [= _ <-]); by left|].
      intros [[= <-]|(? & ? & _)]; [by eexists|done]. }
  destruct (py_iter v) as [items|e'] eqn:Hit; simpl.
  2:{ split.
      - intros (? & [= _ <-]). right. exists v. split; [done|by left].
      - intros [?|(? & [= <-] & [Hi|(d & ? & -> & _)])]; [done| |done].
        rewrite Hit in Hi. injection Hi as <-. by eexists. }
  destruct v as [| | | | |d]; simpl;
    try (split; [by intros (? & ?)
                |intros [?|(? & [= <-] & [Hi|(? & ? & ? & _)])]; try done;
                 rewrite Hit in Hi; done]).
  destruct (dict_lookup "results" d) as [found|] eqn:Hf; simpl.
  2:{ split; [by intros (? & ?)|].
      intros [?|(? & [= <-] & [Hi|(d' & ? & [= <-] & Hd & _)])];
        [done|done|congruence]. }
  destruct (py_iter found) as [rs|e'] eqn:Hrs; simpl.
  2:{ split.
      - intros (? & [= _ <-]). right. eexists. split; [done|]. right.
        exists d, found. by rewrite Hrs.
      - intros [?|(? & [= <-] & [Hi|(d' & f' & [= <-] & Hd & He)])];
          [done|done|].
        rewrite Hf in Hd. injection Hd as <-. rewrite Hrs in He.
        injection He as <-. by eexists. }
  destruct (omap _ rs) as [urls|e'] eqn:Hu; simpl.
  + split; [by intros (? & ?)|].
    intros [?|(? & [= <-] & [Hi|(d' & f' & [= <-] & Hd & He)])];
      [done|done|].
    rewrite Hf in Hd. injection Hd as <-. rewrite Hrs in He. simpl in He.
    congruence.
  + split.
    * intros (? & [= _ <-]). right. eexists. split; [done|]. right.
      exists d, found. rewrite Hrs. simpl. by rewrite Hu.
    * intros [?|(? & [= <-] & [Hi|(d' & f' & [= <-] & Hd & He)])];
        [done|done|].
      rewrite Hf in Hd. injection Hd as <-. rewrite Hrs in He. simpl in He.
      rewrite Hu in He. injection He as <-. by eexists.
Qed.

(** When a node raises depends on the collaborators alone. *)
Lemma node_raises_iff (w : World) (t : nat) (n : node) (s : State) (e : exn) :
  (∃ s', run_node w t n s = (s', Exc e)) ↔ node_raises w t n e.
Proof.
  destruct n; simpl.
  - split; [by intros (? & ?)|done].
  - apply query_node_raises.
  - apply search_web_raises.
  - rewrite update_summary_shape. destruct (llm w t) as [r|e'].
    + split; [by intros (? & ?)|done].
    + split; [by intros (? & [= _ <-])|intros [= <-]; by eexists].
  - apply reflect_raises.
Qed.

Lemma invoke_raises (w : World) (t : nat) (n : node) (s s' : State) (e : exn) :
  invoke w t n s = (s', Exc e) → node_raises w t n e.
Proof.
  unfold invoke. destruct (run_node w t n s) as [s1 [u|e1]] eqn:Hrun; [done|].
  intros [= <- <-]. apply (node_raises_iff w t n s). by eexists.
Qed.

Lemma invoke_returns (w : World) (t : nat) (n : node) (s : State) :
  (∀ e, ¬ node_raises w t n e) → ∃ s', invoke w t n s = (s', Ret tt).
Proof.
  intros Hok. destruct (invoke w t n s) as [s' [[]|e]] eqn:Hinv; [by eexists|].
  by apply invoke_raises, Hok in Hinv.
Qed.

Lemma exec_step (w : World) (fuel t : nat) (n n' : node) (s s' : State)
    (v : list node) :
  invoke w t n s = (s', Ret tt) → next n s' = Some n' →
  exec w (S fuel) t n s v = exec w fuel (S t) n' s' (v ++ [n]).
Proof. intros Hrun Hnext. simpl. by rewrite Hrun, Hnext. Qed.

Lemma exec_crash (w : World) (fuel t : nat) (n : node) (s s' : State)
    (v : list node) (e : exn) :
  invoke w t n s = (s', Exc e) →
  exec w (S fuel) t n s v = Crashed e (v ++ [n]).
Proof. intros Hrun. simpl. by rewrite Hrun. Qed.

(** A run observed for [f1 + f2] invocations is the run observed for [f1]
    invocations, continued for [f2] more. *)
Lemma exec_split (w : World) (f2 : nat) :
  ∀ f1 t n s v,
    exec w (f1 + f2) t n s v =
    match exec w f1 t n s v with
    | StillRunning n' s' v' => exec w f2 (f1 + t) n' s' v'
    | r => r
    end.
Proof.
  induction f1 as [|f1 IH]; intros t n s v; simpl; [done|].
  destruct (invoke w t n s) as [s1 [[]|e]]; [|done].
  destruct (next n s1); [|done].
  rewrite IH. by replace (f1 + S t) with (S (f1 + t)) by lia.
Qed.




(** Once [reflect] has chosen the stop branch, [update_summary] and
    [reflect] alternate, and each pass adds one to the counter. *)
Lemma stop_branch_loops (w : World) (fuel t : nat) (s : State)
    (v : list node) :
  (max_iterations s ≤ research_loop_count s)%Z →
  (∃ e v', exec w (2 + fuel) t UpdateSummary s v = Crashed e v') ∨
  ∃ s', research_loop_count s' = (research_loop_count s + 1)%Z ∧
        max_iterations s' = max_iterations s ∧
        exec w (2 + fuel) t UpdateSummary s v =
        exec w fuel (2 + t) UpdateSummary s' (v ++ [UpdateSummary; Reflect]).
Proof.
  intros Hover. replace (2 + fuel) with (S (S fuel)) by lia.
  destruct (invoke w t UpdateSummary s) as [s1 [[]|e]] eqn:H1;
    [|left; rewrite (exec_crash w _ t UpdateSummary s s1 _ e H1); eauto].
  destruct (invoke_frame w t UpdateSummary s s1 H1) as (Hm1 & _ & Hc1).
  rewrite (exec_step w _ t UpdateSummary Reflect s s1 _ H1 eq_refl).
  destruct (invoke w (S t) Reflect s1) as [s2 [[]|e]] eqn:H2;
    [|left; rewrite (exec_crash w _ (S t) Reflect s1 s2 _ e H2); eauto].
  destruct (invoke_frame w (S t) Reflect s1 s2 H2) as (Hm2 & _ & Hc2).
  simpl in Hc1, Hc2.
  right. exists s2. split; [lia|]. split; [congruence|].
  rewrite (exec_step w _ (S t) Reflect UpdateSummary s1 s2 _ H2).
  - by rewrite <-!app_assoc.
  - simpl. unfold should_continue_research.
    by rewrite bool_decide_false by lia.
Qed.






(** The stop branch is reached in the model when the tool call returns. *)
Lemma stop_branch_reached :
  ∃ s visited,
    Research.run quiet_research 5 (research_input "X" 1)
      = StillRunning UpdateSummary s visited ∧
    research_loop_count s = 1%Z ∧ max_iterations s = 1%Z.
Proof. eexists _, _. split; [vm_compute; reflexivity|]. by split. Qed.

(** C2 (the code departs from the claim).  Reaching [max_iterations]
    never ends a run.  No node has an edge to the end, so every run is
    ended by an exception: one raised by a node or LangGraph's
    [GraphRecursionError].  With the tool built by the repository the call
    in [search_web] raises on the third node invocation of every run, when
    the counter is still 0.  And whenever a run is at [update_summary] with
    the bound reached, as it is after [reflect] has selected the stop
    branch, the next two invocations are [update_summary] and [reflect]
    again and leave the counter above [max_iterations], unless one of them
    raises. *)
Theorem loop_count_exceeds_max :
  Research.run tool_call_raises 3 (research_input "X" 1) =
    Crashed TypeError [Initialize; GenerateQuery; SearchWeb] ∧
  (∀ (w : World) (fuel : nat) (s0 : State) (e0 : exn),
     search w 2 = Exc e0 → 3 ≤ fuel →
     ∃ e, (Research.run w fuel s0 = Crashed e [Initialize; GenerateQuery] ∧
           node_raises w 1 GenerateQuery e) ∨
          (Research.run w fuel s0 =
             Crashed e [Initialize; GenerateQuery; SearchWeb] ∧ e = e0)) ∧
  (∀ (w : World) (recursion_limit : nat) (s0 : State),
     ∃ e visited, ainvoke w recursion_limit s0 = Crashed e visited) ∧
  (∀ (w : World) (fuel : nat) (s0 s : State) (visited : list node),
     Research.run w fuel s0 = StillRunning UpdateSummary s visited →
     (max_iterations s ≤ research_loop_count s)%Z →
     match Research.run w (fuel + 2) s0 with
     | StillRunning n s' visited' =>
         n = UpdateSummary ∧
         visited' = visited ++ [UpdateSummary; Reflect] ∧
         research_loop_count s' = (research_loop_count s + 1)%Z ∧
         (max_iterations s' < research_loop_count s')%Z
     | Crashed e visited' =>
         visited' = visited ++ [UpdateSummary] ∨
         visited' = visited ++ [UpdateSummary; Reflect]
     | Finished _ _ => False
     end).
Proof.
  split; [vm_compute; reflexivity|]. split; [|split].
  - intros w fuel s0 e0 Hs Hfuel.
    destruct fuel as [|[|[|fuel]]]; [lia..|]. unfold run.
    destruct (invoke w 0 Initialize s0) as [s1 [[]|e]] eqn:H0; [|done].
    rewrite (exec_step w _ 0 Initialize GenerateQuery s0 s1 [] H0 eq_refl).
    destruct (invoke w 1 GenerateQuery s1) as [s2 [[]|e]] eqn:H1.
    + rewrite (exec_step w _ 1 GenerateQuery SearchWeb s1 s2 _ H1 eq_refl).
      exists e0. right. split; [|done].
      apply (exec_crash w _ 2 SearchWeb s2 s2). apply invoke_exc.
      simpl. by rewrite Hs.
    + exists e. left.
      rewrite (exec_crash w _ 1 GenerateQuery s1 s2 _ e H1).
      split; [done|]. by eapply invoke_raises.
  - intros w limit s0. unfold ainvoke.
    pose proof (exec_never_finishes w limit 0 Initialize s0 []) as Hnf.
    fold (run w limit s0) in Hnf.
    destruct (run w limit s0) as [sf v|e v|n s v]; [by destruct (Hnf sf v)|..];
      by eexists _, _.
  - intros w fuel s0 s visited Hrun Hover. unfold run in *.
    rewrite exec_split, Hrun.
    destruct (stop_branch_loops w 0 (fuel + 0) s visited Hover)
      as [(e & v' & Hx)|(s' & Hc & Hm & Hx)].
    + change (2 + 0) with 2 in Hx. rewrite Hx. revert Hx. simpl.
      destruct (invoke w (fuel + 0) UpdateSummary s) as [s1 [[]|e1]];
        [|intros [= _ <-]; by left].
      destruct (invoke w (S (fuel + 0)) Reflect s1) as [s2 [[]|e2]];
        [by destruct (should_continue_research s2)|].
      intros [= _ <-]. right. by rewrite <-app_assoc.
    + change (2 + 0) with 2 in Hx. rewrite Hx. simpl.
      split; [done|]. split; [done|]. split; [done|]. lia.
Qed.

(** C9 (the code departs from the claim, research half).  [search_web]
    has no [try]: an exception raised by the search tool leaves the node
    as it is, and the executor's run is aborted by it. *)
Theorem search_web_propagates :
  search_web (Exc CollaboratorError) (research_input "X" 3) =
    (research_input "X" 3, Exc CollaboratorError) ∧
  Research.run offline_research 3 (research_input "X" 3) =
    Crashed CollaboratorError [Initialize; GenerateQuery; SearchWeb] ∧
  ∀ (e : exn) (s : State) (w : World) (fuel t : nat) (visited : list node),
    search w t = Exc e →
    exec w (S fuel) t SearchWeb s visited = Crashed e (visited ++ [SearchWeb]).
Proof.
  split; [reflexivity|]. split; [vm_compute; reflexivity|].
  intros e s w fuel t visited Hs. apply (exec_crash w fuel t SearchWeb s s).
  apply invoke_exc. simpl. by rewrite Hs.
Qed.

End ResearchFacts.

(** ** The newsletter workflow: facts *)

Module NewsletterFacts.
Import Newsletter Scenarios.

Lemma generate_search_query_shape (response : outcome reply) (s : State) :
  ∃ q, generate_search_query response s = (set_search_query q s, Ret tt).
Proof.
  unfold generate_search_query. py_unfold.
  destruct response as [r|e]; simpl; [|eauto].
  unfold json_loads. destruct (parsed r) as [v|]; simpl; [|eauto].
  destruct (py_getitem v "query"); simpl; eauto.
Qed.

Lemma gather_sources_shape (v : pyval) (s : State) :
  (∃ urls, gather_sources v s = (set_sources_gathered (sources_gathered s ++ urls) s, Ret tt)) ∨
  (∃ e, gather_sources v s = (s, Exc e)) \/ gather_sources v s = (s, Ret tt).
Proof.
  unfold gather_sources. py_unfold.
  destruct (is_dict v && has_key "results" v); simpl; [|eauto].
  destruct (py_getitem v "results") as [rs|e]; simpl; [|eauto].
  destruct (py_iter rs) as [l|e]; simpl; [|eauto].
  destruct (omap _ l) as [urls|e]; simpl; eauto.
Qed.

Lemma store_results_shape (v : pyval) (s : State) :
  ∃ o, store_results v s = (set_web_research_results v s, o).
Proof.
  unfold store_results. py_unfold. simpl.
  destruct (py_get v "results" (PList [])) as [f|e]; simpl; [|eauto].
  destruct (py_len f); simpl; eauto.
Qed.

Lemma search_news_shape (tool : outcome pyval) (s : State) :
  ∃ wr urls, search_news tool s =
    (set_sources_gathered (sources_gathered s ++ urls) (set_web_research_results wr s), Ret tt).
Proof.
  unfold search_news.
  destruct tool as [v|e]; py_unfold; simpl.
  - destruct (store_results_shape v s) as [o Ho]. rewrite Ho.
    destruct o as [[]|e]; simpl.
    + destruct (gather_sources_shape v (set_web_research_results v s)) as [[urls H]|[[e H]|H]];
        rewrite H; simpl.
      * by exists v, urls.
      * exists empty_results, []. rewrite app_nil_r. by destruct s.
      * exists v, []. rewrite app_nil_r. by destruct s.
    + exists empty_results, []. rewrite app_nil_r. by destruct s.
  - exists empty_results, []. rewrite app_nil_r. by destruct s.
Qed.

Lemma sized_empty_list : sized (PList []).
Proof. by exists 0. Qed.

Lemma store_summary_twice (k : option string) (v v' : pyval) (s : State) :
  store_summary k v' (store_summary k v s) = store_summary k v' s.
Proof. unfold store_summary, set_category_summaries. simpl. by rewrite insert_insert_eq. Qed.

Lemma store_summaries_shape (r : reply) (s : State) :
  ∃ v, (v = PList [] ∨
        (sized v ∧ ∃ summary_data, parsed r = Some summary_data ∧
                     py_getitem summary_data "summaries" = Ret v)) ∧
       store_summaries r s = (store_summary (current_category s) v s, Ret tt).
Proof.
  unfold store_summaries, json_loads. py_unfold.
  destruct (parsed r) as [sd|]; simpl; [|exists (PList []); by split; [left|]].
  destruct (py_getitem sd "summaries") as [v|e] eqn:Hv; simpl;
    [|exists (PList []); by split; [left|]].
  destruct (py_len v) as [n|e] eqn:Hlen; simpl.
  - exists v. split; [right|done]. split; [by exists n|by exists sd].
  - exists (PList []). split; [by left|].
    by rewrite store_summary_twice.
Qed.

Lemma summarize_category_shape (response : outcome reply) (s : State) :
  match response with
  | Ret _ => ∃ v, summarize_category response s =
                  (store_summary (current_category s) v s, Ret tt)
  | Exc e => summarize_category response s = (s, Exc e)
  end.
Proof.
  destruct response as [r|e]; [|done].
  unfold summarize_category. py_unfold. simpl.
  destruct (store_summaries_shape r s) as (v & _ & ->). by exists v.
Qed.

Lemma index_of_lookup (c : string) (cs : list string) (i : nat) :
  index_of c cs = Some i → cs !! i = Some c ∧ c ∉ take i cs.
Proof.
  revert i. induction cs as [|y cs IH]; intros i; simpl; [done|].
  destruct (String.eqb_spec y c) as [->|Hne].
  - intros [= <-]. split; [done|]. simpl. apply not_elem_of_nil.
  - destruct (index_of c cs) as [j|]; [|done]. simpl. intros [= <-].
    destruct (IH j eq_refl) as [Hl Hn]. split; [done|].
    simpl. rewrite not_elem_of_cons. split; [congruence|done].
Qed.

Lemma index_of_none (c : string) (cs : list string) :
  index_of c cs = None ↔ c ∉ cs.
Proof.
  induction cs as [|y cs IH]; simpl.
  - split; [intros _; apply not_elem_of_nil|done].
  - rewrite not_elem_of_cons. destruct (String.eqb_spec y c) as [->|Hne].
    + split; [done|]. intros [? _]. done.
    + destruct (index_of c cs) as [j|]; simpl.
      * split; [done|]. intros [_ H]. by apply IH in H.
      * split; [|done]. intros _. split; [congruence|]. by apply IH.
Qed.

Lemma list_index_absent (s : State) :
  (∀ c, current_category s = Some c → c ∉ categories s) →
  list_index (current_category s) (categories s) = Exc ValueError.
Proof.
  intros H. unfold list_index. destruct (current_category s) as [c|]; [|done].
  specialize (H c eq_refl). apply index_of_none in H. by rewrite H.
Qed.

Lemma update_category_shape (s : State) :
  update_category s = (s, Ret tt) ∨
  ∃ c i nxt, current_category s = Some c ∧ index_of c (categories s) = Some i ∧
             categories s !! S i = Some nxt ∧
             update_category s = (advanced nxt s, Ret tt).
Proof.
  unfold update_category, list_index, list_item. py_unfold. simpl.
  destruct (current_category s) as [c|] eqn:Hc; simpl; [|by left].
  destruct (index_of c (categories s)) as [i|] eqn:Hi; simpl; [|by left].
  case_bool_decide as Hlt; simpl; [|by left].
  replace (i + 1) with (S i) by lia.
  destruct (categories s !! S i) as [nxt|] eqn:Hn; simpl; [|by left].
  right. by exists c, i, nxt.
Qed.

Lemma update_category_absent (s : State) :
  (∀ c, current_category s = Some c → c ∉ categories s) →
  update_category s = (s, Ret tt).
Proof.
  intros H. unfold update_category. py_unfold. simpl.
  by rewrite (list_index_absent s H).
Qed.

Lemma index_of_app_fresh (c : string) (front l : list string) :
  c ∉ front → index_of c (front ++ l) = (λ i, length front + i) <$> index_of c l.
Proof.
  induction front as [|y front IH]; simpl; intros Hn.
  - by destruct (index_of c l).
  - apply not_elem_of_cons in Hn as [Hne Hn].
    destruct (String.eqb_spec y c) as [->|_]; [done|].
    rewrite (IH Hn). by destruct (index_of c l).
Qed.

Lemma continue_categories_true (s : State) :
  continue_categories s = true ↔
    length (filter (λ cat, summarized s cat) (categories s))
      < length (categories s) `min` 2 ∧
    ∃ c i, current_category s = Some c ∧
           index_of c (categories s) = Some i ∧ i + 1 < length (categories s).
Proof.
  unfold continue_categories, should_process_next_category, list_index.
  py_unfold. simpl.
  case_bool_decide as Hcap; simpl.
  { split; [done|]. intros [? _]. lia. }
  destruct (current_category s) as [c|]; simpl.
  2:{ split; [done|]. by intros [_ (? & ? & ? & _)]. }
  destruct (index_of c (categories s)) as [i|] eqn:Hidx; simpl.
  2:{ split; [done|]. intros [_ (? & ? & [= <-] & ? & _)]. congruence. }
  rewrite bool_decide_eq_true. split.
  - intros Hi. split; [lia|]. by exists c, i.
  - intros [_ (? & ? & [= <-] & Hi & Hmore)]. congruence.
Qed.

(** The predicate of the conditional edge answers stop exactly in three
    cases: the cap is reached, the current category is not in the list, or
    its first occurrence is the last entry of the list. *)
Lemma stop_cases (s : State) :
  continue_categories s = false ↔
    length (categories s) `min` 2
      ≤ length (filter (λ cat, summarized s cat) (categories s))
    ∨ (∀ c, current_category s = Some c → c ∉ categories s)
    ∨ (∃ c front, current_category s = Some c ∧
                  categories s = front ++ [c] ∧ c ∉ front).
Proof.
  rewrite <-not_true_iff_false, continue_categories_true. split.
  - intros Hno.
    destruct (decide (length (categories s) `min` 2
                      ≤ length (filter (λ cat, summarized s cat) (categories s))))
      as [Hcap|Hcap]; [by left|right].
    destruct (current_category s) as [c|] eqn:Hc; [|by left].
    destruct (index_of c (categories s)) as [i|] eqn:Hi.
    + right. exists c, (take i (categories s)).
      destruct (index_of_lookup _ _ _ Hi) as [Hl Hfresh].
      split; [done|]. split; [|done].
      assert (i + 1 = length (categories s)) as Hlast.
      { apply lookup_lt_Some in Hl.
        destruct (decide (i + 1 < length (categories s))); [|lia].
        exfalso. apply Hno. split; [lia|]. by exists c, i. }
      rewrite <-(take_drop_middle _ _ _ Hl) at 1.
      rewrite drop_ge by lia. done.
    + left. intros ? [= <-]. by apply index_of_none.
  - intros [Hcap|[Habs|(c & front & Hc & Hcs & Hfresh)]] [Hlt (c' & i & Hc' & Hi & Hmore)].
    + lia.
    + apply (Habs c' Hc'). apply index_of_lookup in Hi as [Hl _].
      by eapply list_elem_of_lookup_2.
    + rewrite Hc in Hc'. injection Hc' as <-.
      rewrite Hcs, index_of_app_fresh in Hi by done. simpl in Hi.
      rewrite String.eqb_refl in Hi. simpl in Hi. injection Hi as <-.
      rewrite Hcs, length_app in Hmore. simpl in Hmore. lia.
Qed.

Section Stored.
Context (Q : pyval → Prop) (HQ0 : Q (PList [])).

Lemma grows_by_refl (s : State) : grows_by Q ∅ s s.
Proof. unfold grows_by. repeat split; [done|set_solver|done]. Qed.

Lemma grows_by_trans (K1 K2 : gset (option string)) (s1 s2 s3 : State) :
  grows_by Q K1 s1 s2 → grows_by Q K2 s2 s3 → grows_by Q (K1 ∪ K2) s1 s3.
Proof.
  intros (Hc1 & Hd1 & Hp1 & Hk1 & Hs1) (Hc2 & Hd2 & Hp2 & Hk2 & Hs2).
  unfold grows_by. repeat split; [congruence|congruence|by etrans| |auto].
  rewrite Hk2, Hk1. set_solver.
Qed.

Lemma grows_by_proper (K1 K2 : gset (option string)) (s s' : State) :
  K1 ∪ dom (category_summaries s) = K2 ∪ dom (category_summaries s) →
  grows_by Q K1 s s' → grows_by Q K2 s s'.
Proof.
  intros HK (Hc & Hd & Hp & Hk & Hs). unfold grows_by.
  repeat split; [done|done|done| |done]. rewrite Hk. set_solver.
Qed.

Lemma grows_by_store (k : option string) (v : pyval) (s : State) :
  Q v → grows_by Q {[ k ]} s (store_summary k v s).
Proof.
  intros Hv. unfold grows_by, all_stored. simpl. repeat split; [done| |].
  - rewrite dom_insert_L. set_solver.
  - intros Hs. by apply map_Forall_insert_2.
Qed.

Lemma generate_search_query_grows (response : outcome reply) (s : State) :
  ∃ s', generate_search_query response s = (s', Ret tt) ∧ grows_by Q ∅ s s' ∧
        current_category s' = current_category s.
Proof.
  destruct (generate_search_query_shape response s) as [q ->].
  eexists. split; [done|]. split; [|done].
  unfold grows_by, all_stored. simpl. repeat split; [done|set_solver|done].
Qed.

Lemma search_news_grows (tool : outcome pyval) (s : State) :
  ∃ s', search_news tool s = (s', Ret tt) ∧ grows_by Q ∅ s s' ∧
        current_category s' = current_category s.
Proof.
  destruct (search_news_shape tool s) as (wr & urls & ->).
  eexists. split; [done|]. split; [|done].
  unfold grows_by, all_stored. simpl. repeat split; [|set_solver|done].
  by apply prefix_app_r.
Qed.

Lemma update_category_grows (s : State) :
  ∃ s', update_category s = (s', Ret tt) ∧ grows_by Q ∅ s s'.
Proof.
  destruct (update_category_shape s) as [->|(c & i & nxt & _ & _ & _ & ->)];
    (eexists; split; [done|]); [apply grows_by_refl|].
  unfold grows_by, all_stored. simpl. repeat split; [done|set_solver|done].
Qed.

Lemma store_summaries_grows (r : reply) (s : State) :
  (∀ summary_data v, parsed r = Some summary_data →
     py_getitem summary_data "summaries" = Ret v → sized v → Q v) →
  ∃ s', store_summaries r s = (s', Ret tt) ∧
        grows_by Q {[ current_category s ]} s s' ∧
        current_category s' = current_category s.
Proof.
  intros Hr. destruct (store_summaries_shape r s) as (v & Hv & ->).
  eexists. split; [done|]. split; [|done]. apply grows_by_store.
  destruct Hv as [->|(Hlen & sd & Hp & Hg)]; [done|by eapply Hr].
Qed.

Lemma summarize_category_grows (r : reply) (s : State) :
  (∀ summary_data v, parsed r = Some summary_data →
     py_getitem summary_data "summaries" = Ret v → sized v → Q v) →
  ∃ s', summarize_category (Ret r) s = (s', Ret tt) ∧
        grows_by Q {[ current_category s ]} s s' ∧
        current_category s' = current_category s.
Proof. apply store_summaries_grows. Qed.

Lemma process_category_grows (tool : outcome pyval) (response : outcome reply)
    (category : string) (s : State) :
  (∀ r summary_data v, response = Ret r → parsed r = Some summary_data →
     py_getitem summary_data "summaries" = Ret v → sized v → Q v) →
  ∃ s', process_category tool response category s = (s', Ret tt) ∧
        grows_by Q {[ Some category ]} s s'.
Proof.
  intros Hresp. unfold process_category. py_unfold. simpl.
  set (s1 := set_search_query _ _).
  assert (grows_by Q ∅ s s1 ∧ current_category s1 = Some category) as [H1 Hc1].
  { split; [|done]. unfold grows_by, all_stored. simpl.
    repeat split; [done|set_solver|done]. }
  assert (∀ s2, grows_by Q ∅ s1 s2 → current_category s2 = Some category →
    ∃ s', (store_summary (current_category (set_web_research_results empty_results s2))
             (PList []) (set_web_research_results empty_results s2), Ret tt)
          = (s', @Ret unit tt) ∧ grows_by Q {[ Some category ]} s s') as Hfail.
  { intros s2 H2 Hc2. eexists. split; [done|]. simpl. rewrite Hc2.
    eapply grows_by_proper; [|eapply grows_by_trans; [exact H1|]].
    2:{ eapply grows_by_trans; [exact H2|].
        eapply (grows_by_trans ∅ {[Some category]} _ (set_web_research_results empty_results s2)).
        - unfold grows_by, all_stored. simpl. repeat split; [done|set_solver|done].
        - apply (grows_by_store (Some category) (PList [])), HQ0. }
    set_solver. }
  destruct tool as [v|e]; simpl; [|by apply Hfail].
  destruct (store_results_shape v s1) as [o Ho]. rewrite Ho.
  assert (grows_by Q ∅ s1 (set_web_research_results v s1)) as Hw.
  { unfold grows_by, all_stored. simpl. repeat split; [done|set_solver|done]. }
  destruct o as [[]|e]; simpl; [|by apply Hfail].
  destruct (gather_sources_shape v (set_web_research_results v s1))
    as [[urls Hg]|[[e Hg]|Hg]]; rewrite Hg; simpl; [| by apply Hfail |].
  - set (s3 := set_sources_gathered _ _).
    assert (grows_by Q ∅ s1 s3) as H3.
    { unfold grows_by, all_stored. simpl. repeat split; [|set_solver|done].
      by apply prefix_app_r. }
    destruct response as [r|e]; simpl; [|by apply Hfail].
    destruct (store_summaries_grows r s3 (λ sd v, Hresp r sd v eq_refl))
      as (s' & -> & Hs' & _).
    exists s'. split; [done|].
    eapply grows_by_proper; [|eapply grows_by_trans; [exact H1|];
                              eapply grows_by_trans; [exact H3|exact Hs']].
    simpl. set_solver.
  - destruct response as [r|e]; simpl; [|by apply Hfail].
    destruct (store_summaries_grows r (set_web_research_results v s1)
                (λ sd v0, Hresp r sd v0 eq_refl))
      as (s' & -> & Hs' & _).
    exists s'. split; [done|].
    eapply grows_by_proper; [|eapply grows_by_trans; [exact H1|];
                              eapply grows_by_trans; [exact Hw|exact Hs']].
    simpl. set_solver.
Qed.

Lemma for_each_grows {A} (key : A → option string)
    (body : nat → A → py State unit) (l : list A) :
  (∀ i x s, ∃ s', body i x s = (s', Ret tt) ∧ grows_by Q {[ key x ]} s s') →
  ∀ start s, ∃ s', for_each start l body s = (s', Ret tt) ∧
                   grows_by Q (list_to_set (key <$> l)) s s'.
Proof.
  intros Hbody. induction l as [|x l IH]; intros start s; simpl.
  - exists s. split; [done|]. apply grows_by_refl.
  - unfold bind. destruct (Hbody start x s) as (s1 & -> & H1).
    destruct (IH (S start) s1) as (s2 & -> & H2).
    exists s2. split; [done|]. by eapply grows_by_trans.
Qed.

Lemma summarized_dom (s : State) (cat : string) :
  summarized s cat ↔ Some cat ∈ dom (category_summaries s).
Proof. unfold summarized. by rewrite bool_decide_spec, elem_of_dom. Qed.

Lemma process_remaining_categories_grows (tool : nat → outcome pyval)
    (chat : nat → outcome reply) (s : State) :
  (∀ i r summary_data v, chat i = Ret r → parsed r = Some summary_data →
     py_getitem summary_data "summaries" = Ret v → sized v → Q v) →
  ∃ s', process_remaining_categories tool chat s = (s', Ret tt) ∧
        grows_by Q (list_to_set (Some <$> categories s)) s s'.
Proof.
  intros Hchat. unfold process_remaining_categories. py_unfold. simpl.
  set (todo := filter _ _).
  assert (list_to_set (Some <$> todo) ∪ dom (category_summaries s)
          = list_to_set (Some <$> categories s) ∪ dom (category_summaries s))
    as Hsame.
  { apply set_eq. intros k.
    rewrite !elem_of_union, !elem_of_list_to_set, !list_elem_of_fmap.
    split; (intros [(c & -> & Hc)|Hk]; [|by right]).
    - left. exists c. split; [done|]. by apply list_elem_of_filter in Hc as [_ ?].
    - destruct (decide (Some c ∈ dom (category_summaries s))) as [Hin|Hout];
        [by right|left].
      exists c. split; [done|]. apply list_elem_of_filter. split; [|done].
      by rewrite summarized_dom. }
  case_bool_decide as Hne.
  - destruct (for_each_grows Some
                (λ i category, process_category (tool i) (chat i) category) todo
                (λ i x s0, process_category_grows (tool i) (chat i) x s0
                             (Hchat i)) 0 s)
      as (s' & Hrun & Hg).
    exists s'. split; [exact Hrun|]. by eapply grows_by_proper.
  - exists s. split; [done|].
    eapply grows_by_proper; [|apply grows_by_refl].
    rewrite <-Hsame, Hne. done.
Qed.

Lemma catchup_is_noop (tool : nat → outcome pyval) (chat : nat → outcome reply)
    (s : State) :
  (∀ c, c ∈ categories s → is_Some (category_summaries s !! Some c)) →
  process_remaining_categories tool chat s = (s, Ret tt).
Proof.
  intros Hall. unfold process_remaining_categories. py_unfold. simpl.
  assert (filter (λ cat, ¬ summarized s cat) (categories s) = []) as ->.
  { apply filter_none. intros c Hc Hno. apply Hno.
    unfold summarized. by apply bool_decide_pack, Hall. }
  done.
Qed.

Lemma update_category_eq (s : State) :
  update_category s =
  (match current_category s with
   | Some c => match index_of c (categories s) with
               | Some i => match categories s !! S i with
                           | Some nxt => advanced nxt s
                           | None => s
                           end
               | None => s
               end
   | None => s
   end, Ret tt).
Proof.
  unfold update_category, list_index, list_item. py_unfold. simpl.
  destruct (current_category s) as [c|]; simpl; [|done].
  destruct (index_of c (categories s)) as [i|]; simpl; [|done].
  replace (i + 1) with (S i) by lia.
  case_bool_decide as Hlt; simpl.
  - by destruct (categories s !! S i).
  - by rewrite lookup_ge_None_2 by lia.
Qed.

Lemma continue_categories_ext (s s' : State) :
  categories s = categories s' →
  current_category s = current_category s' →
  dom (category_summaries s) = dom (category_summaries s') →
  continue_categories s = continue_categories s'.
Proof.
  intros Hcs Hc Hd.
  assert (∀ cat, summarized s cat ↔ summarized s' cat) as Hsum.
  { intros cat. by rewrite !summarized_dom, Hd. }
  apply eq_true_iff_eq. rewrite !continue_categories_true, <-Hcs, <-Hc.
  by rewrite (list_filter_iff _ _ _ Hsum).
Qed.

Lemma initialize_state_eq (today tool : string) (s : State) :
  let cs := if bool_decide (categories s = []) then default_categories
            else categories s in
  initialize_state today tool s =
  (mkState (if falsy (date s) then Some today else date s) cs
           (if falsy (current_category s) then head cs else current_category s)
           (PStr "") (PList []) tool ∅ "" [], Ret tt).
Proof.
  unfold initialize_state, when, list_item. py_unfold. simpl.
  destruct s as [d cs c q wr tn m txt sg]; simpl.
  destruct (falsy d); simpl;
    case_bool_decide as Hcs; simpl;
    destruct (falsy c); simpl; try done;
    destruct cs; done.
Qed.

Lemma fill_missing_grows (category : string) (s : State) :
  ∃ s', (bind (gets id) (λ s0, when (negb (summarized s0 category))
           (modify (store_summary (Some category) (PList []))))) s = (s', Ret tt) ∧
        grows_by Q {[ Some category ]} s s'.
Proof.
  unfold when. py_unfold. simpl.
  destruct (summarized s category) eqn:Hs; simpl.
  - exists s. split; [done|].
    eapply grows_by_proper; [|apply grows_by_refl].
    apply Is_true_true, summarized_dom in Hs. set_solver.
  - eexists. split; [done|]. apply grows_by_store, HQ0.
Qed.

Lemma generate_newsletter_grows (str : pyval → string) (s : State) :
  ∃ s1, grows_by Q (list_to_set (Some <$> categories s)) s s1 ∧
        ((∃ e header,
            render_sections str (category_summaries s1) header (categories s)
            = Exc e ∧
            generate_newsletter str s = (s1, Exc e)) ∨
         (∃ text, generate_newsletter str s =
                  (set_newsletter_summary text s1, Ret tt))).
Proof.
  unfold generate_newsletter.
  rewrite (bind_ok (gets categories) _ s s (categories s)) by done.
  destruct (for_each_grows Some
              (λ _ category, bind (gets id) (λ s0,
                 when (negb (summarized s0 category))
                      (modify (store_summary (Some category) (PList [])))))
              (categories s)
              (λ _ x s0, fill_missing_grows x s0) 0 s) as (s1 & Hrun & H1).
  rewrite (bind_ok _ _ s s1 tt Hrun).
  exists s1. split; [done|]. py_unfold. simpl.
  destruct (render_sections _ _ _ _) as [text|e] eqn:Hrender; simpl;
    [right|left]; eauto.
Qed.

Lemma update_category_run (s s' : State) (o : outcome unit) :
  update_category s = (s', o) → o = Ret tt ∧ grows_by Q ∅ s s'.
Proof.
  destruct (update_category_grows s) as (s1 & -> & Hg). by intros [= <- <-].
Qed.

Lemma second_round_stops (s1 s3 s4 s7 s8 : State) :
  grows_by Q {[ current_category s1 ]} s1 s3 →
  current_category s3 = current_category s1 →
  update_category s3 = (s4, Ret tt) →
  continue_categories s4 = true →
  grows_by Q {[ current_category s4 ]} s4 s7 →
  update_category s7 = (s8, Ret tt) →
  continue_categories s8 = false.
Proof.
  intros H13 Hc3 Hu3 Hgo H47 Hu7.
  apply update_category_run in Hu7 as [_ H78].
  apply not_true_iff_false. intros Hgo8.
  apply continue_categories_true in Hgo8 as [Hcap8 _].
  apply continue_categories_true in Hgo as [_ (c & j & Hc4 & Hj & Hmore)].
  rewrite update_category_eq in Hu3. injection Hu3 as Hs4.
  destruct (current_category s3) as [c0|] eqn:Hc0;
    [|subst s4; congruence].
  destruct (index_of c0 (categories s3)) as [i|] eqn:Hi;
    [|subst s4; congruence].
  destruct (categories s3 !! S i) as [nxt|] eqn:Hn.
  2:{ subst s4. rewrite Hc0 in Hc4. injection Hc4 as <-.
      rewrite Hi in Hj. injection Hj as <-.
      apply lookup_ge_None_1 in Hn. lia. }
  apply index_of_lookup in Hi as [Hi _].
  destruct H13 as (_ & _ & _ & Hd3 & _).
  destruct H47 as (Hcs7 & _ & _ & Hd7 & _).
  destruct H78 as (Hcs8 & _ & _ & Hd8 & _).
  assert (categories s8 = categories s3) as Hcs by (subst s4; simpl in *; congruence).
  assert (∀ cat, Some cat ∈ dom (category_summaries s7) → summarized s8 cat)
    as Hin.
  { intros cat Hcat. apply summarized_dom. rewrite Hd8. set_solver. }
  assert (2 ≤ length (filter (λ cat, summarized s8 cat) (categories s8))).
  { rewrite Hcs. apply (count_adjacent _ _ i c0 nxt Hi Hn).
    - apply Hin. rewrite Hd7. subst s4. simpl. rewrite Hd3, <-Hc3.
      set_solver.
    - apply Hin. rewrite Hd7. subst s4. simpl. set_solver. }
  lia.
Qed.

Lemma exec_ok (w : World) (fuel t : nat) (n n' : node) (s s' : State)
    (v : list node) :
  run_node w t n s = (s', Ret tt) → next n s' = Some n' →
  exec w (S fuel) t n s v = exec w fuel (S t) n' s' (v ++ [n]).
Proof. intros Hrun Hnext. simpl. by rewrite Hrun, Hnext. Qed.

Lemma exec_cycle (w : World) (fuel t : nat) (s : State) (v : list node) :
  supplies Q w →
  (∃ e, llm w (S (S t)) 0 = Exc e ∧
        exec w (4 + fuel) t GenerateQuery s v =
        Crashed e (v ++ [GenerateQuery; Search; Summarize])) ∨
  ∃ s3 s4, grows_by Q {[ current_category s ]} s s3 ∧
           current_category s3 = current_category s ∧
           update_category s3 = (s4, Ret tt) ∧
           exec w (4 + fuel) t GenerateQuery s v =
           exec w fuel (4 + t)
                (if continue_categories s4 then GenerateQuery
                 else ProcessRemaining)
                s4 (v ++ [GenerateQuery; Search; Summarize; UpdateCategory]).
Proof.
  intros Hsup.
  destruct (generate_search_query_grows (llm w t 0) s) as (s1 & Hr1 & H1 & Hc1).
  destruct (search_news_grows (search w (S t) 0) s1) as (s2 & Hr2 & H2 & Hc2).
  replace (4 + fuel) with (S (S (S (S fuel)))) by lia.
  rewrite (exec_ok w _ t GenerateQuery Search s s1) by done.
  rewrite (exec_ok w _ (S t) Search Summarize s1 s2) by done.
  rewrite <-!app_assoc. simpl app.
  destruct (llm w (S (S t)) 0) as [r|e] eqn:Hllm.
  - right.
    destruct (summarize_category_grows r s2 (λ sd v, Hsup _ _ r sd v Hllm))
      as (s3 & Hr3 & H3 & Hc3).
    destruct (update_category_grows s3) as (s4 & Hr4 & H4).
    exists s3, s4. split; [|split; [congruence|split; [done|]]].
    + eapply grows_by_proper;
        [|eapply grows_by_trans; [exact H1|eapply grows_by_trans; [exact H2|exact H3]]].
      rewrite Hc2, Hc1. set_solver.
    + rewrite (exec_ok w _ (S (S t)) Summarize UpdateCategory s2 s3);
        [|simpl; by rewrite Hllm|done].
      simpl exec at 1. rewrite Hr4. simpl next.
      rewrite <-!app_assoc. simpl app.
      by destruct (continue_categories s4).
  - left. exists e. split; [done|]. simpl exec. by rewrite Hllm, <-!app_assoc.
Qed.

Lemma exec_tail (w : World) (fuel t : nat) (s : State) (v : list node) :
  supplies Q w →
  (∃ e s1 header,
     grows_by Q (list_to_set (Some <$> categories s)) s s1 ∧
     render_sections (str_of w) (category_summaries s1) header (categories s)
     = Exc e ∧
     exec w (3 + fuel) t ProcessRemaining s v =
     Crashed e (v ++ [ProcessRemaining; GenerateNewsletter])) ∨
  ∃ sf, grows_by Q (list_to_set (Some <$> categories s)) s sf ∧
        exec w (3 + fuel) t ProcessRemaining s v =
        Finished sf (v ++ [ProcessRemaining; GenerateNewsletter; End]).
Proof.
  intros Hsup.
  destruct (process_remaining_categories_grows (search w t) (llm w t) s
              (λ i r sd v, Hsup t i r sd v))
    as (s1 & Hr1 & H1).
  replace (3 + fuel) with (S (S (S fuel))) by lia.
  rewrite (exec_ok w _ t ProcessRemaining GenerateNewsletter s s1) by done.
  destruct (generate_newsletter_grows (str_of w) s1)
    as (s2 & H2 & [(e & header & Hrender & Hr2)|[text Hr2]]).
  - left. exists e, s2, header. split; [|split].
    + eapply grows_by_proper; [|eapply grows_by_trans; [exact H1|exact H2]].
      destruct H1 as (-> & _). set_solver.
    + by destruct H1 as (<- & _).
    + simpl exec. by rewrite Hr2, <-!app_assoc.
  - right. exists (set_newsletter_summary text s2). split.
    + eapply grows_by_proper; [|eapply grows_by_trans; [exact H1|]].
      2:{ eapply (grows_by_trans _ ∅); [exact H2|].
          unfold grows_by, all_stored. simpl. repeat split; [done|set_solver|done]. }
      destruct H1 as (-> & _). set_solver.
    + simpl exec. rewrite Hr2. simpl. by rewrite <-!app_assoc.
Qed.

(** The three ways a run can go on from [generate_query]: the summarizer
    call raises, rendering the newsletter raises, or the run finishes. *)
Lemma exec_categories (w : World) (fuel t : nat) (s : State) (v : list node) :
  supplies Q w →
  (∃ e t' v', llm w t' 0 = Exc e ∧
              exec w (11 + fuel) t GenerateQuery s v = Crashed e v' ∧
              last v' = Some Summarize) ∨
  (∃ e s1 header v',
     grows_by Q ({[ current_category s ]} ∪ list_to_set (Some <$> categories s))
              s s1 ∧
     render_sections (str_of w) (category_summaries s1) header (categories s)
     = Exc e ∧
     exec w (11 + fuel) t GenerateQuery s v = Crashed e v' ∧
     last v' = Some GenerateNewsletter) ∨
  (∃ sf v',
     grows_by Q ({[ current_category s ]} ∪ list_to_set (Some <$> categories s))
              s sf ∧
     exec w (11 + fuel) t GenerateQuery s v = Finished sf v').
Proof.
  intros Hsup.
  destruct (exec_cycle w (7 + fuel) t s v Hsup)
    as [(e & Hllm & Hx)|(s3 & s4 & H3 & Hc3 & Hu3 & Hx)];
    replace (4 + (7 + fuel)) with (11 + fuel) in Hx by lia; rewrite Hx.
  { left. exists e, (S (S t)), (v ++ [GenerateQuery; Search; Summarize]).
    split; [done|]. split; [done|]. by rewrite last_app. }
  pose proof (update_category_run _ _ _ Hu3) as [_ H4].
  assert (grows_by Q {[ current_category s ]} s s4) as H14.
  { eapply grows_by_proper; [|eapply grows_by_trans; [exact H3|exact H4]].
    set_solver. }
  assert (categories s4 = categories s) as Hcs4 by (by destruct H14 as (? & _)).
  destruct (continue_categories s4) eqn:Hgo.
  - replace (7 + fuel) with (4 + (3 + fuel)) by lia.
    destruct (exec_cycle w (3 + fuel) (4 + t) s4
                (v ++ [GenerateQuery; Search; Summarize; UpdateCategory]) Hsup)
      as [(e & Hllm & Hy)|(s7 & s8 & H7 & Hc7 & Hu7 & Hy)]; rewrite Hy.
    { left. eexists e, (S (S (4 + t))), _.
      split; [done|]. split; [done|]. by rewrite last_app. }
    rewrite (second_round_stops s s3 s4 s7 s8) by done.
    pose proof (update_category_run _ _ _ Hu7) as [_ H8].
    assert (grows_by Q ({[current_category s]} ∪ {[current_category s4]}) s s8)
      as H18.
    { eapply grows_by_proper;
        [|eapply grows_by_trans; [exact H14|]; eapply grows_by_trans;
          [exact H7|exact H8]]. set_solver. }
    assert (categories s8 = categories s) as Hcs8 by (by destruct H18 as (? & _)).
    assert (current_category s4 ∈ ({[current_category s]} : gset (option string))
              ∪ list_to_set (Some <$> categories s)) as Hin.
    { rewrite update_category_eq in Hu3. injection Hu3 as <-.
      destruct H3 as (Hcs3 & _).
      assert (current_category s3 ∈ ({[current_category s]} : gset (option string))
                ∪ list_to_set (Some <$> categories s)) as Hstay
        by (rewrite Hc3; set_solver).
      destruct (current_category s3) as [c0|] eqn:E0; [|by rewrite E0].
      destruct (index_of c0 (categories s3)) as [i|]; [|by rewrite E0].
      destruct (categories s3 !! S i) as [nxt|] eqn:Hn; [|by rewrite E0].
      simpl. apply elem_of_union_r, elem_of_list_to_set, list_elem_of_fmap.
      exists nxt. split; [done|]. rewrite <-Hcs3. by eapply list_elem_of_lookup_2. }
    destruct (exec_tail w fuel (4 + (4 + t)) s8
      ((v ++ [GenerateQuery; Search; Summarize; UpdateCategory]) ++
         [GenerateQuery; Search; Summarize; UpdateCategory]) Hsup)
      as [(e & s9 & header & Hg & Hrender & Hz)|(sf & Hf & Hz)]; rewrite Hz;
      rewrite Hcs8 in *; right; [left|right]; eexists _, _.
    + exists header. eexists. split; [|split; [exact Hrender|split; [done|]]].
      * eapply grows_by_proper; [|eapply grows_by_trans; [exact H18|exact Hg]].
        set_solver.
      * by rewrite last_app.
    + split; [|done].
      eapply grows_by_proper; [|eapply grows_by_trans; [exact H18|exact Hf]].
      set_solver.
  - replace (7 + fuel) with (3 + (4 + fuel)) by lia.
    destruct (exec_tail w (4 + fuel) (4 + t) s4
                (v ++ [GenerateQuery; Search; Summarize; UpdateCategory]) Hsup)
      as [(e & s9 & header & Hg & Hrender & Hz)|(sf & Hf & Hz)]; rewrite Hz;
      rewrite Hcs4 in *; right; [left|right]; eexists _, _.
    + exists header. eexists. split; [|split; [exact Hrender|split; [done|]]].
      * eapply grows_by_proper; [|eapply grows_by_trans; [exact H14|exact Hg]].
        set_solver.
      * by rewrite last_app.
    + split; [|done].
      eapply grows_by_proper; [|eapply grows_by_trans; [exact H14|exact Hf]].
      set_solver.
Qed.

Lemma run_outcome (w : World) (s0 : State) :
  supplies Q w →
  let cs := if bool_decide (categories s0 = []) then default_categories
            else categories s0 in
  let start := if falsy (current_category s0) then head cs
               else current_category s0 in
  (∃ e t v, llm w t 0 = Exc e ∧ run w 12 s0 = Crashed e v ∧
            last v = Some Summarize) ∨
  (∃ e m header v,
     map_Forall (λ _ x, Q x) m ∧
     render_sections (str_of w) m header cs = Exc e ∧
     run w 12 s0 = Crashed e v ∧ last v = Some GenerateNewsletter) ∨
  (∃ sf v,
     run w 12 s0 = Finished sf v ∧
     categories sf = cs ∧
     dom (category_summaries sf) = list_to_set (Some <$> cs) ∪ {[ start ]} ∧
     all_stored Q sf).
Proof.
  intros Hsup cs start. unfold run.
  rewrite (exec_ok w 11 0 Initialize GenerateQuery s0 _ []
             (initialize_state_eq (today w) (tool_name w) s0) eq_refl).
  fold cs. fold start. set (s1 := mkState _ _ _ _ _ _ _ _ _).
  assert (all_stored Q s1) as Hempty by apply map_Forall_empty.
  destruct (exec_categories w 0 1 s1 ([] ++ [Initialize]) Hsup)
    as [(e & t & v & Hllm & Hx & Hl)
       |[(e & s2 & header & v & Hg & Hrender & Hx & Hl)
        |(sf & v & Hg & Hx)]];
    replace (11 + 0) with 11 in Hx by lia; rewrite Hx.
  - left. by exists e, t, v.
  - right. left. destruct Hg as (_ & _ & _ & _ & Hs).
    exists e, (category_summaries s2), header, v. split; [by apply Hs|done].
  - right. right. destruct Hg as (Hcs & _ & _ & Hd & Hs). simpl in Hcs, Hd.
    exists sf, v. split; [done|]. split; [done|]. split; [|by apply Hs].
    rewrite Hd, dom_empty_L. set_solver.
Qed.

End Stored.

Lemma supplies_sized (w : World) : supplies sized w.
Proof. by intros t i r sd v _ _ _ Hv. Qed.

Lemma run_key_set (w : World) (s0 : State) :
  let cs := if bool_decide (categories s0 = []) then default_categories
            else categories s0 in
  let start := if falsy (current_category s0) then head cs
               else current_category s0 in
  match run w 12 s0 with
  | StillRunning _ _ _ => False
  | Crashed e visited =>
      (last visited = Some Summarize ∧ ∃ t, llm w t 0 = Exc e) ∨
      last visited = Some GenerateNewsletter
  | Finished sf _ =>
      categories sf = cs ∧
      dom (category_summaries sf) = list_to_set (Some <$> cs) ∪ {[ start ]} ∧
      all_sized sf
  end.
Proof.
  intros cs start.
  destruct (run_outcome sized sized_empty_list w s0 (supplies_sized w))
    as [(e & t & v & Hllm & -> & Hl)
       |[(e & m & header & v & _ & _ & -> & Hl)|(sf & v & -> & H)]];
    [left; split; [done|eexists; exact Hllm]|by right|done].
Qed.

Lemma render_articles_ok (str : pyval → string) (articles : list pyval) :
  Forall article_ok articles →
  ∀ newsletter, ∃ text, render_articles str newsletter articles = Ret text.
Proof.
  induction 1 as [|a articles (title & summary & url & Ht & Hs & Hu) _ IH];
    intros newsletter; simpl; [by eexists|].
  unfold render_article. rewrite Ht, Hs, Hu. simpl. apply IH.
Qed.

Lemma render_sections_ok (str : pyval → string)
    (m : gmap (option string) pyval) (cs : list string) :
  map_Forall (λ _ v, renderable v) m →
  ∀ newsletter, ∃ text, render_sections str m newsletter cs = Ret text.
Proof.
  intros Hm. induction cs as [|c cs IH]; intros newsletter; simpl; [by eexists|].
  assert (renderable (default (PList []) (m !! Some c)))
    as (articles & -> & Harts).
  { destruct (m !! Some c) as [v|] eqn:Hv; simpl; [by eapply Hm|].
    exists []. by split. }
  simpl.
  destruct (render_articles_ok str articles Harts
              (newsletter +:+ category_emojis c +:+ nl +:+ c +:+ nl))
    as [text ->].
  simpl. apply IH.
Qed.

Lemma fill_loop (cs : list string) :
  ∀ start s, ∃ m,
    for_each start cs
      (λ _ category, bind (gets id) (λ s0,
         when (negb (summarized s0 category))
              (modify (store_summary (Some category) (PList []))))) s
    = (set_category_summaries m s, Ret tt) ∧
    ∀ k, m !! k = match category_summaries s !! k with
                  | Some v => Some v
                  | None => if bool_decide (k ∈ Some <$> cs)
                            then Some (PList []) else None
                  end.
Proof.
  induction cs as [|c cs IH]; intros start s.
  - exists (category_summaries s). split; [by destruct s|].
    intros k. destruct (category_summaries s !! k); [done|].
    by rewrite bool_decide_false by apply not_elem_of_nil.
  - simpl for_each.
    assert ((bind (gets id) (λ s0, when (negb (summarized s0 c))
               (modify (store_summary (Some c) (PList []))))) s
            = (if summarized s c then s else store_summary (Some c) (PList []) s,
               Ret tt)) as Hbody.
    { unfold when. py_unfold. simpl. by destruct (summarized s c). }
    rewrite (bind_ok _ _ s _ tt Hbody).
    destruct (summarized s c) eqn:Hs.
    + destruct (IH (S start) s) as (m & -> & Hm). exists m. split; [done|].
      intros k. rewrite Hm. destruct (category_summaries s !! k) eqn:Hk; [done|].
      apply Is_true_true in Hs. unfold summarized in Hs.
      rewrite bool_decide_spec in Hs.
      assert (k ≠ Some c) as Hne by (intros ->; rewrite Hk in Hs; by destruct Hs).
      rewrite fmap_cons.
      case_bool_decide as H1; case_bool_decide as H2; try done.
      * exfalso. apply H2. by right.
      * apply elem_of_cons in H2 as [?|?]; done.
    + destruct (IH (S start) (store_summary (Some c) (PList []) s))
        as (m & -> & Hm).
      exists m. split; [done|]. intros k. rewrite Hm.
      change (category_summaries (store_summary (Some c) (PList []) s))
        with (<[Some c := PList []]> (category_summaries s)).
      apply Is_true_false in Hs. unfold summarized in Hs.
      rewrite bool_decide_spec in Hs. apply eq_None_not_Some in Hs.
      destruct (decide (k = Some c)) as [->|Hne].
      * rewrite lookup_insert_eq, Hs, fmap_cons.
        by rewrite bool_decide_true by left.
      * rewrite lookup_insert_ne by done.
        destruct (category_summaries s !! k); [done|]. rewrite fmap_cons.
        case_bool_decide as H1; case_bool_decide as H2; try done.
        -- exfalso. apply H2. by right.
        -- apply elem_of_cons in H2 as [?|?]; done.
Qed.

Lemma generate_newsletter_eq (str : pyval → string) (s : State) :
  ∃ m, (∀ k, m !! k = match category_summaries s !! k with
                      | Some v => Some v
                      | None => if bool_decide (k ∈ Some <$> categories s)
                                then Some (PList []) else None
                      end) ∧
       generate_newsletter str s =
       match render_sections str m
               ("🏗️ Builder's News " +:+ fmt_opt (date s) +:+ nl +:+ nl)
               (categories s) with
       | Ret text => (set_newsletter_summary text (set_category_summaries m s),
                      Ret tt)
       | Exc e => (set_category_summaries m s, Exc e)
       end.
Proof.
  unfold generate_newsletter.
  rewrite (bind_ok (gets categories) _ s s (categories s)) by done.
  destruct (fill_loop (categories s) 0 s) as (m & Hrun & Hm).
  rewrite (bind_ok _ _ s _ tt Hrun).
  exists m. split; [done|]. py_unfold. simpl.
  by destruct (render_sections _ _ _ _).
Qed.

Lemma render_articles_iff (str : pyval → string) (articles : list pyval) :
  ∀ newsletter,
    (∃ text, render_articles str newsletter articles = Ret text)
    ↔ Forall article_ok articles.
Proof.
  induction articles as [|a articles IH]; intros newsletter; simpl.
  - split; [done|by eexists].
  - rewrite Forall_cons. unfold render_article, article_ok.
    destruct (py_getitem a "title") as [t|e]; simpl.
    2:{ split; [by intros [? ?]|]. by intros [(? & ? & ? & ? & _) _]. }
    destruct (py_getitem a "summary") as [sm|e]; simpl.
    2:{ split; [by intros [? ?]|]. by intros [(? & ? & ? & _ & ? & _) _]. }
    destruct (py_getitem a "url") as [u|e]; simpl.
    2:{ split; [by intros [? ?]|]. by intros [(? & ? & ? & _ & _ & ?) _]. }
    rewrite IH. split; [|by intros [_ ?]].
    intros H. split; [|done]. by exists t, sm, u.
Qed.

Lemma render_sections_iff (str : pyval → string)
    (m : gmap (option string) pyval) (cs : list string) :
  ∀ newsletter,
    (∃ text, render_sections str m newsletter cs = Ret text)
    ↔ ∀ c, c ∈ cs → renderable (default (PList []) (m !! Some c)).
Proof.
  induction cs as [|c cs IH]; intros newsletter; simpl.
  - split; [|by eexists]. intros _ c Hc. by apply elem_of_nil in Hc.
  - unfold renderable at 1.
    destruct (py_iter (default (PList []) (m !! Some c))) as [arts|e] eqn:Hit;
      simpl.
    2:{ split; [by intros [? ?]|]. intros H.
        destruct (H c) as (? & Hi & _); [by left|]. congruence. }
    destruct (render_articles str _ arts) as [n|e] eqn:Hr; simpl.
    + rewrite IH. split.
      * intros H c' [->|Hc']%elem_of_cons; [|by apply H].
        exists arts. split; [done|].
        apply (render_articles_iff str arts
                 (newsletter +:+ category_emojis c +:+ nl +:+ c +:+ nl)).
        by exists n.
      * intros H c' Hc'. apply H. by right.
    + split; [by intros [? ?]|]. intros H.
      destruct (H c) as (arts' & Hi & Hok); [by left|].
      rewrite Hit in Hi. injection Hi as <-.
      apply (render_articles_iff str arts
               (newsletter +:+ category_emojis c +:+ nl +:+ c +:+ nl)) in Hok
        as [text Ht].
      congruence.
Qed.

(** [generate_newsletter] returns when every summary stored for a declared
    category can be printed, and raises otherwise. *)
Lemma generate_newsletter_cases (str : pyval → string) (s : State) :
  ((∀ c v, c ∈ categories s → category_summaries s !! Some c = Some v →
           renderable v) →
   ∃ s', generate_newsletter str s = (s', Ret tt)) ∧
  (¬ (∀ c v, c ∈ categories s → category_summaries s !! Some c = Some v →
             renderable v) →
   ∃ s' e, generate_newsletter str s = (s', Exc e)).
Proof.
  destruct (generate_newsletter_eq str s) as (m & Hm & ->).
  assert (∀ c, c ∈ categories s →
     default (PList []) (m !! Some c)
     = default (PList []) (category_summaries s !! Some c)) as Hdef.
  { intros c Hc. rewrite Hm. destruct (category_summaries s !! Some c); [done|].
    rewrite bool_decide_true; [done|]. apply list_elem_of_fmap. by exists c. }
  pose proof (render_sections_iff str m (categories s)
    ("🏗️ Builder's News " +:+ fmt_opt (date s) +:+ nl +:+ nl)) as Hiff.
  destruct (render_sections _ _ _ _) as [text|e].
  - split; [by eexists|]. intros Hbad. exfalso. apply Hbad. intros c v Hc Hv.
    destruct Hiff as [Hiff _]. specialize (Hiff (ex_intro _ text eq_refl) c Hc).
    by rewrite Hdef, Hv in Hiff.
  - split; [|by eexists _, _]. intros H. destruct Hiff as [_ [text Ht]]; [|done].
    intros c Hc. rewrite Hdef by done.
    destruct (category_summaries s !! Some c) as [v|] eqn:Hv; simpl.
    + by eapply H.
    + exists []. by split.
Qed.

(** When the summarizer never raises and only supplies summaries that can
    be printed, every run finishes within twelve node invocations. *)
Lemma run_finishes (w : World) (s0 : State) :
  (∀ t, ∃ r, llm w t 0 = Ret r) → supplies renderable w →
  ∃ sf visited, run w 12 s0 = Finished sf visited.
Proof.
  intros Hllm Hsup.
  assert (renderable (PList [])) as H0 by (exists []; by split).
  destruct (run_outcome renderable H0 w s0 Hsup)
    as [(e & t & v & He & _)
       |[(e & m & header & v & Hm & Hrender & _)|(sf & v & Hx & _)]].
  - destruct (Hllm t) as [r Hr]. congruence.
  - destruct (render_sections_ok (str_of w) m
                (if bool_decide (categories s0 = []) then default_categories
                 else categories s0) Hm header) as [text Ht].
    rewrite Ht in Hrender. discriminate.
  - by exists sf, v.
Qed.


Lemma from_summarizer_empty (w : World) : from_summarizer w (PList []).
Proof. by left. Qed.

Lemma supplies_from_summarizer (w : World) : supplies (from_summarizer w) w.
Proof.
  intros t i r sd v Hr Hp Hv Hsz. right. split; [done|]. by exists t, i, r, sd.
Qed.

Lemma from_summarizer_sized (w : World) (v : pyval) :
  from_summarizer w v → sized v.
Proof. intros [->|[? _]]; [apply sized_empty_list|done]. Qed.

(** C3 (amended).  A newsletter run never needs more than twelve node
    invocations; it is cut short only by the summarizer call raising in
    [summarize_category] or by [generate_newsletter] failing to print an
    article, and it does finish when the summarizer never raises and only
    supplies printable summaries.  When it finishes on an input whose
    categories are pairwise distinct and whose caller-supplied current
    category is unset, empty or one of them, the keys of
    [category_summaries] are exactly the categories of the final state (the
    three defaults when the caller gave none): as many keys as categories,
    each mapped either to the empty list or to a value with a length that a
    call of the chat model in this run returned under [summaries], however
    the work was split between the bounded phase and the catch-up pass. *)
Theorem run_covers_categories (w : World) (s0 : State) :
  NoDup (categories s0) →
  (∀ c, current_category s0 = Some c → c = "" ∨ c ∈ categories s0) →
  match run w 12 s0 with
  | StillRunning _ _ _ => False
  | Crashed e visited =>
      (last visited = Some Summarize ∧ ∃ t, llm w t 0 = Exc e) ∨
      last visited = Some GenerateNewsletter
  | Finished sf _ =>
      categories sf = (if bool_decide (categories s0 = [])
                       then default_categories else categories s0) ∧
      dom (category_summaries sf) = list_to_set (Some <$> categories sf) ∧
      size (dom (category_summaries sf)) = length (categories sf) ∧
      all_stored (from_summarizer w) sf ∧
      all_sized sf
  end ∧
  ((∀ t, ∃ r, llm w t 0 = Ret r) → supplies renderable w →
   ∃ sf visited, run w 12 s0 = Finished sf visited).
Proof.
  intros Hnd Hcur. split; [|apply run_finishes].
  destruct (run_outcome (from_summarizer w) (from_summarizer_empty w) w s0
              (supplies_from_summarizer w))
    as [(e & t & v & Hllm & -> & Hl)
       |[(e & m & header & v & _ & _ & -> & Hl)|(sf & v & -> & Hcs & Hd & Hs)]];
    [left; split; [done|by exists t]|by right|].
  set (cs := if bool_decide (categories s0 = []) then default_categories
             else categories s0) in *.
  assert (NoDup cs) as Hnd'.
  { unfold cs. case_bool_decide; [|done]. by compute_done. }
  assert ((if falsy (current_category s0) then head cs else current_category s0)
            ∈ Some <$> cs) as Hin.
  { destruct (current_category s0) as [c|] eqn:Hc; simpl.
    - case_bool_decide as Hempty.
      + subst c. unfold cs. case_bool_decide; [by compute_done|].
        destruct (categories s0); [done|]. simpl. left.
      + destruct (Hcur c eq_refl) as [?|Hc']; [done|].
        unfold cs. rewrite bool_decide_false by (by intros E; rewrite E in Hc';
                                                   apply elem_of_nil in Hc').
        by apply list_elem_of_fmap_2.
    - unfold cs. case_bool_decide; [by compute_done|].
      destruct (categories s0); [done|]. simpl. left. }
  assert (dom (category_summaries sf) = list_to_set (Some <$> categories sf)) as Hd'.
  { rewrite Hd, Hcs. set_solver. }
  split; [done|]. split; [done|]. split; [|split; [done|]].
  - rewrite Hd', size_list_to_set, length_fmap; [done|].
    rewrite Hcs. by apply (NoDup_fmap_2 Some).
  - eapply map_Forall_impl; [exact Hs|]. intros k x. apply from_summarizer_sized.
Qed.

Lemma continue_categories_keys (s : State) (cs : list string)
    (c : option string) (K : gset (option string)) :
  categories s = cs → current_category s = c →
  dom (category_summaries s) = K →
  continue_categories s = continue_categories (with_keys cs c K).
Proof.
  intros Hcs Hc Hd. apply continue_categories_ext; simpl; [done|done|].
  by rewrite dom_gset_to_gmap.
Qed.

Lemma three_categories_scenario (w : World) (s0 : State) :
  categories s0 = ["A"; "B"; "C"] →
  falsy (current_category s0) ∨ current_category s0 = Some "A" →
  match run w 9 s0 with
  | Crashed e visited =>
      last visited = Some Summarize ∧ ∃ t, llm w t 0 = Exc e
  | Finished _ _ => False
  | StillRunning n s visited =>
      n = ProcessRemaining ∧
      dom (category_summaries s) = {[ Some "A"; Some "B" ]} ∧
      visited = [Initialize;
                 GenerateQuery; Search; Summarize; UpdateCategory;
                 GenerateQuery; Search; Summarize; UpdateCategory]
  end.
Proof.
  intros Hcs Hcur. unfold run.
  rewrite (exec_ok w 8 0 Initialize GenerateQuery s0 _ []
             (initialize_state_eq (today w) (tool_name w) s0) eq_refl).
  rewrite Hcs. simpl bool_decide. cbv iota.
  replace (if falsy (current_category s0) then head ["A"; "B"; "C"]
           else current_category s0) with (Some "A")
    by (destruct Hcur as [Hf | ->]; [apply Is_true_true in Hf; by rewrite Hf|done]).
  set (s1 := mkState _ _ _ _ _ _ _ _ _).
  destruct (exec_cycle sized sized_empty_list w 4 1 s1 ([] ++ [Initialize])
              (supplies_sized w))
    as [(e & Hllm & Hx)|(s3 & s4 & H3 & Hc3 & Hu3 & Hx)]; simpl in Hx |- *;
    rewrite Hx; [split; [done|eexists; exact Hllm]|].
  destruct H3 as (Hcs3 & _ & _ & Hd3 & _). simpl in Hcs3, Hd3, Hc3.
  rewrite update_category_eq, Hc3, Hcs3 in Hu3. simpl in Hu3.
  injection Hu3 as <-.
  rewrite (continue_categories_keys (advanced "B" s3) ["A"; "B"; "C"] (Some "B")
             (∅ ∪ {[Some "A"]})) by done.
  replace (continue_categories (with_keys ["A"; "B"; "C"] (Some "B") (∅ ∪ {[Some "A"]})))
    with true by (vm_compute; reflexivity).
  destruct (exec_cycle sized sized_empty_list w 0 5 (advanced "B" s3)
              [Initialize; GenerateQuery; Search; Summarize; UpdateCategory]
              (supplies_sized w))
    as [(e & Hllm & Hy)|(s7 & s8 & H7 & Hc7 & Hu7 & Hy)]; simpl in Hy |- *;
    rewrite Hy; [split; [done|eexists; exact Hllm]|].
  destruct H7 as (Hcs7 & _ & _ & Hd7 & _). simpl in Hcs7, Hd7, Hc7.
  rewrite update_category_eq, Hc7, Hcs7, Hcs3 in Hu7. simpl in Hu7.
  injection Hu7 as <-.
  rewrite (continue_categories_keys (advanced "C" s7) ["A"; "B"; "C"] (Some "C")
             (∅ ∪ {[Some "A"]} ∪ {[Some "B"]}));
    [|simpl; congruence|done|simpl; by rewrite Hd7, Hd3].
  replace (continue_categories (with_keys ["A"; "B"; "C"] (Some "C")
                                          (∅ ∪ {[Some "A"]} ∪ {[Some "B"]})))
    with false by (vm_compute; reflexivity).
  split; [done|]. split; [|done]. simpl. rewrite Hd7, Hd3. set_solver.
Qed.

(** The run on [stray_input] arrives at [update_category] in the state
    [stray_category]. *)
Lemma stray_category_reached :
  run quiet_newsletter 4 stray_input =
  StillRunning UpdateCategory stray_category
               [Initialize; GenerateQuery; Search; Summarize].
Proof. vm_compute. reflexivity. Qed.

(** C4 (counterexample).  In the state in which the run on [stray_input]
    evaluates the predicate, it answers stop although no declared category
    has a summary yet (the cap of two is not reached) and the current
    category is not the last one of the list. *)
Lemma stray_category_stops :
  continue_categories stray_category = false ∧
  ¬ (length (categories stray_category) `min` 2
     ≤ length (filter (λ cat, summarized stray_category cat)
                      (categories stray_category))) ∧
  current_category stray_category ≠ last (categories stray_category).
Proof.
  split; [vm_compute; reflexivity|]. split.
  - vm_compute. lia.
  - vm_compute. discriminate.
Qed.

(** C4 (amended).  The predicate evaluated after [update_category] answers
    stop exactly when (a) at least [min(len(categories), 2)] entries of
    [categories] are keys of [category_summaries], or (c) the current
    category is null or not an element of [categories], or (b) the first
    occurrence of the current category is the last entry of [categories];
    otherwise it answers continue.  With categories A, B, C and a run that
    starts on A, the bounded phase hands over to the catch-up pass after two
    cycles with exactly A and B summarised, unless the summarizer raised. *)
Theorem bounded_phase_stop :
  (∀ s : State,
     continue_categories s = false ↔
       length (categories s) `min` 2
         ≤ length (filter (λ cat, summarized s cat) (categories s))
       ∨ (∀ c, current_category s = Some c → c ∉ categories s)
       ∨ (∃ c front, current_category s = Some c ∧
                     categories s = front ++ [c] ∧ c ∉ front)) ∧
  (∀ (w : World) (s0 : State),
     categories s0 = ["A"; "B"; "C"] →
     falsy (current_category s0) ∨ current_category s0 = Some "A" →
     match run w 9 s0 with
     | Crashed e visited =>
         last visited = Some Summarize ∧ ∃ t, llm w t 0 = Exc e
     | Finished _ _ => False
     | StillRunning n s visited =>
         n = ProcessRemaining ∧
         dom (category_summaries s) = {[ Some "A"; Some "B" ]} ∧
         visited = [Initialize;
                    GenerateQuery; Search; Summarize; UpdateCategory;
                    GenerateQuery; Search; Summarize; UpdateCategory]
     end).
Proof. split; [apply stop_cases|apply three_categories_scenario]. Qed.

Lemma bounded_phase_stop_witness :
  categories (newsletter_input ["A"; "B"; "C"] None) = ["A"; "B"; "C"] ∧
  match run quiet_newsletter 9 (newsletter_input ["A"; "B"; "C"] None) with
  | Crashed e visited =>
      last visited = Some Summarize ∧ ∃ t, llm quiet_newsletter t 0 = Exc e
  | Finished _ _ => False
  | StillRunning n s visited =>
      n = ProcessRemaining ∧
      dom (category_summaries s) = {[ Some "A"; Some "B" ]} ∧
      visited = [Initialize;
                 GenerateQuery; Search; Summarize; UpdateCategory;
                 GenerateQuery; Search; Summarize; UpdateCategory]
  end.
Proof.
  split; [reflexivity|].
  apply (proj2 bounded_phase_stop quiet_newsletter
               (newsletter_input ["A"; "B"; "C"] None)).
  - reflexivity.
  - left. exact I.
Defined.

(** C3 (counterexample).  With the category list A, A the completed run
    ends with two categories and one key. *)
Lemma duplicate_categories_share_key :
  ∃ sf visited,
    (run quiet_newsletter 12 (newsletter_input ["A"; "A"] None)
     = Finished sf visited) ∧
    length (categories sf) = 2 ∧
    size (dom (category_summaries sf)) = 1.
Proof.
  eexists _, _. split; [vm_compute; reflexivity|].
  split; vm_compute; reflexivity.
Qed.

(** A stale current category adds a key of its own. *)
Lemma stray_category_extra_key :
  ∃ sf visited,
    (run quiet_newsletter 12 stray_input = Finished sf visited) ∧
    length (categories sf) = 3 ∧
    size (dom (category_summaries sf)) = 4.
Proof.
  eexists _, _. split; [vm_compute; reflexivity|].
  split; vm_compute; reflexivity.
Qed.

Lemma run_covers_categories_witness :
  NoDup (categories (newsletter_input ["A"; "B"; "C"] None)) ∧
  ∃ sf visited,
    run quiet_newsletter 12 (newsletter_input ["A"; "B"; "C"] None)
      = Finished sf visited ∧
    categories sf = ["A"; "B"; "C"] ∧
    dom (category_summaries sf) = list_to_set (Some <$> categories sf) ∧
    size (dom (category_summaries sf)) = 3.
Proof.
  assert (NoDup (categories (newsletter_input ["A"; "B"; "C"] None))) as Hnd
    by (vm_compute; repeat constructor; set_solver).
  assert (∀ c, current_category (newsletter_input ["A"; "B"; "C"] None) = Some c →
               c = "" ∨ c ∈ categories (newsletter_input ["A"; "B"; "C"] None))
    as Hcur by (intros c Hc; simpl in Hc; discriminate).
  split; [exact Hnd|].
  pose proof (run_covers_categories quiet_newsletter
                (newsletter_input ["A"; "B"; "C"] None) Hnd Hcur) as [H Hfin].
  destruct Hfin as (sf & visited & Hrun).
  - intros t. by exists prose.
  - intros t i r sd v Hr Hp. simpl in Hr. injection Hr as <-. discriminate.
  - rewrite Hrun in H. destruct H as (Hcs & Hd & Hsz & _).
    exists sf, visited. split; [exact Hrun|]. split; [exact Hcs|].
    split; [exact Hd|]. rewrite Hsz, Hcs. reflexivity.
Defined.

(** Whatever the state, a second catch-up pass finds nothing to do. *)
Lemma catchup_twice (tool tool' : nat → outcome pyval)
    (chat chat' : nat → outcome reply) (s : State) :
  bind (process_remaining_categories tool chat)
       (λ _, process_remaining_categories tool' chat') s
  = process_remaining_categories tool chat s.
Proof.
  destruct (process_remaining_categories_grows sized sized_empty_list
              tool chat s (λ _ _ _ _ _ _ _ Hv, Hv))
    as (s1 & Hrun & Hcs & _ & _ & Hd & _).
  rewrite (bind_ok _ _ s s1 tt Hrun), Hrun.
  apply catchup_is_noop. intros c Hc. apply elem_of_dom. rewrite Hd.
  apply elem_of_union_r, elem_of_list_to_set, list_elem_of_fmap_2.
  by rewrite <-Hcs.
Qed.

(** C5.  On a state in which every category already is a key of
    [category_summaries], the catch-up pass returns the state as it found
    it, so running it twice is the same as running it once. *)
Theorem catchup_idempotent (tool tool' : nat → outcome pyval)
    (chat chat' : nat → outcome reply) (s : State) :
  (∀ c, c ∈ categories s → is_Some (category_summaries s !! Some c)) →
  process_remaining_categories tool chat s = (s, Ret tt) ∧
  bind (process_remaining_categories tool chat)
       (λ _, process_remaining_categories tool' chat') s
  = process_remaining_categories tool chat s.
Proof.
  intros Hall. split; [by apply catchup_is_noop|].
  rewrite (bind_ok _ _ s s tt) by (by apply catchup_is_noop).
  by rewrite !catchup_is_noop.
Qed.

Lemma catchup_idempotent_witness :
  (∀ c, c ∈ categories all_summarized →
        is_Some (category_summaries all_summarized !! Some c)) ∧
  process_remaining_categories (search quiet_newsletter 5)
                               (llm quiet_newsletter 5) all_summarized
  = (all_summarized, Ret tt).
Proof.
  assert (∀ c, c ∈ categories all_summarized →
               is_Some (category_summaries all_summarized !! Some c)) as Hall.
  { intros c Hc. apply list_elem_of_singleton in Hc as ->.
    vm_compute. eauto. }
  split; [exact Hall|].
  exact (proj1 (catchup_idempotent (search quiet_newsletter 5)
                  (search quiet_newsletter 5) (llm quiet_newsletter 5)
                  (llm quiet_newsletter 5) all_summarized Hall)).
Defined.

(** C8 (counterexample).  The run on [stray_input] reaches
    [update_category] with a current category that is not in the list; the
    node returns normally and the run goes on through three more nodes to
    its regular end. *)
Lemma stray_category_not_fatal :
  current_category stray_category = Some "Z" ∧
  ("Z" ∉ categories stray_category) ∧
  run quiet_newsletter 4 stray_input =
    StillRunning UpdateCategory stray_category
                 [Initialize; GenerateQuery; Search; Summarize] ∧
  update_category stray_category = (stray_category, Ret tt) ∧
  ∃ sf, run quiet_newsletter 8 stray_input =
        Finished sf [Initialize; GenerateQuery; Search; Summarize;
                     UpdateCategory; ProcessRemaining; GenerateNewsletter; End].
Proof.
  split; [reflexivity|]. split; [set_solver|]. split; [apply stray_category_reached|].
  split; [vm_compute; reflexivity|]. eexists. vm_compute. reflexivity.
Qed.

(** C8 (amended).  When the current category is not an element of
    [categories], [update_category] catches the failed lookup and returns
    the state unchanged, the edge predicate answers stop, and the executor
    goes on with the catch-up pass, which returns, and with
    [generate_newsletter]: the condition is not surfaced to the caller.
    The run then reaches its end node exactly when every summary stored for
    a declared category after the catch-up pass can be printed, which is
    the case when the summaries stored before and those the chat model
    supplies are printable; otherwise [generate_newsletter] raises and
    aborts the run. *)
Theorem stray_category_continues (w : World) (fuel t : nat) (s : State)
    (visited : list node) (c : string) :
  current_category s = Some c → c ∉ categories s →
  update_category s = (s, Ret tt) ∧
  continue_categories s = false ∧
  exec w (S fuel) t UpdateCategory s visited =
    exec w fuel (S t) ProcessRemaining s (visited ++ [UpdateCategory]) ∧
  ∃ s1,
    process_remaining_categories (search w (S t)) (llm w (S t)) s
    = (s1, Ret tt) ∧
    ((∀ c' v, c' ∈ categories s1 → category_summaries s1 !! Some c' = Some v →
              renderable v) →
     ∃ sf, exec w (4 + fuel) t UpdateCategory s visited =
           Finished sf (visited ++ [UpdateCategory; ProcessRemaining;
                                    GenerateNewsletter; End])) ∧
    (¬ (∀ c' v, c' ∈ categories s1 → category_summaries s1 !! Some c' = Some v →
                renderable v) →
     ∃ e, exec w (4 + fuel) t UpdateCategory s visited =
          Crashed e (visited ++ [UpdateCategory; ProcessRemaining;
                                 GenerateNewsletter])) ∧
    (all_stored renderable s → supplies renderable w →
     ∀ c' v, c' ∈ categories s1 → category_summaries s1 !! Some c' = Some v →
             renderable v).
Proof.
  intros Hc Hout.
  assert (∀ c', current_category s = Some c' → c' ∉ categories s) as Habs
    by (intros c'; rewrite Hc; by intros [= <-]).
  assert (update_category s = (s, Ret tt)) as Hup
    by (by apply update_category_absent).
  assert (continue_categories s = false) as Hstop
    by (apply stop_cases; right; by left).
  assert (∀ f, exec w (S f) t UpdateCategory s visited =
               exec w f (S t) ProcessRemaining s (visited ++ [UpdateCategory]))
    as Hstep.
  { intros f. apply exec_ok; [done|]. simpl. by rewrite Hstop. }
  split; [done|]. split; [done|]. split; [apply Hstep|].
  destruct (process_remaining_categories_grows (λ _, True) I
              (search w (S t)) (llm w (S t)) s) as (s1 & Hr1 & _); [done|].
  exists s1. split; [done|].
  replace (4 + fuel) with (S (S (S (S fuel)))) by lia. rewrite Hstep.
  rewrite (exec_ok w _ (S t) ProcessRemaining GenerateNewsletter s s1 _ Hr1
             eq_refl).
  rewrite <-!app_assoc. simpl app.
  destruct (generate_newsletter_cases (str_of w) s1) as [Hyes Hno].
  split; [|split].
  - intros Hall. destruct (Hyes Hall) as [s2 Hr2].
    exists s2. simpl exec. rewrite Hr2. simpl. by rewrite <-!app_assoc.
  - intros Hbad. destruct (Hno Hbad) as (s2 & e & Hr2).
    exists e. simpl exec. rewrite Hr2. by rewrite <-!app_assoc.
  - intros Hs Hsup.
    assert (renderable (PList [])) as H0 by (exists []; by split).
    destruct (process_remaining_categories_grows renderable H0
                (search w (S t)) (llm w (S t)) s
                (λ i r sd v, Hsup (S t) i r sd v))
      as (s1' & Hr1' & _ & _ & _ & _ & Hkeep).
    rewrite Hr1 in Hr1'. injection Hr1' as <-.
    intros c' v _ Hv. by apply (Hkeep Hs (Some c') v).
Qed.

Lemma stray_category_continues_witness :
  current_category stray_category = Some "Z" ∧
  ("Z" ∉ categories stray_category) ∧
  update_category stray_category = (stray_category, Ret tt) ∧
  continue_categories stray_category = false.
Proof.
  assert ("Z" ∉ categories stray_category) as Hout by set_solver.
  split; [reflexivity|]. split; [exact Hout|].
  pose proof (stray_category_continues quiet_newsletter 0 4 stray_category
                [] "Z" eq_refl Hout) as (Hup & Hstop & _).
  split; [exact Hup|exact Hstop].
Defined.

(** C10.  [update_category] always returns normally and leaves every
    field other than [current_category], [search_query] and
    [web_research_results] as it found it, whether or not a next category
    exists and whether or not the lookup of the current one fails. *)
Theorem update_category_frame (s : State) :
  ∃ s', update_category s = (s', Ret tt) ∧
        categories s' = categories s ∧
        category_summaries s' = category_summaries s ∧
        sources_gathered s' = sources_gathered s ∧
        date s' = date s ∧
        newsletter_summary s' = newsletter_summary s ∧
        search_tool_name s' = search_tool_name s.
Proof.
  rewrite update_category_eq. eexists. split; [reflexivity|].
  destruct (current_category s) as [c|]; [|done].
  destruct (index_of c (categories s)) as [i|]; [|done].
  by destruct (categories s !! S i).
Qed.

(** [search_news] contains every failure of the search tool. *)
Lemma search_news_contains (tool : outcome pyval) (s : State) :
  ∃ s', search_news tool s = (s', Ret tt) ∧
        (∀ e, tool = Exc e →
              s' = set_web_research_results empty_results s).
Proof.
  destruct tool as [v|e].
  - destruct (search_news_grows sized sized_empty_list (Ret v) s) as (s' & -> & _).
    exists s'. split; [done|]. by intros e [=].
  - eexists. split; [reflexivity|]. by intros e' _.
Qed.

(** Apart from [initialize], a node only ever appends to
    [sources_gathered], whether it returns or raises. *)
Lemma node_keeps_sources (w : World) (t : nat) (n : node) (s : State) :
  n ≠ Initialize →
  sources_gathered s `prefix_of` sources_gathered (run_node w t n s).1.
Proof.
  intros Hn. destruct n; [done| | | | | | |]; simpl.
  - by destruct (generate_search_query_shape (llm w t 0) s) as [q ->].
  - destruct (search_news_shape (search w t 0) s) as (wr & urls & ->).
    simpl. by apply prefix_app_r.
  - pose proof (summarize_category_shape (llm w t 0) s) as H.
    destruct (llm w t 0) as [r|e]; [|by rewrite H].
    by destruct H as (v & ->).
  - by destruct (update_category_grows sized sized_empty_list s) as (s' & -> & _ & _ & Hp & _).
  - by destruct (process_remaining_categories_grows sized sized_empty_list
                   (search w t) (llm w t) s (λ _ _ _ _ _ _ _ Hv, Hv))
      as (s' & -> & _ & _ & Hp & _).
  - destruct (generate_newsletter_grows sized sized_empty_list (str_of w) s)
      as (s1 & (_ & _ & Hp & _) & [(e & header & _ & ->)|[text ->]]); done.
  - done.
Qed.

End NewsletterFacts.

(** ** Facts about both workflows *)

Module WorkflowFacts.
Import Scenarios.

(** C6 (counterexample).  The newsletter's [initialize], the first node
    invocation of a run, is given a state that lists one source and leaves
    a state that lists none. *)
Lemma newsletter_initialize_resets_sources :
  length (Newsletter.sources_gathered newsletter_with_source) = 1 ∧
  ∃ s', Newsletter.run quiet_newsletter 1 newsletter_with_source
        = Newsletter.StillRunning Newsletter.GenerateQuery s'
            [Newsletter.Initialize] ∧
        length (Newsletter.sources_gathered s') = 0.
Proof. split; [reflexivity|]. eexists. split; reflexivity. Qed.

(** The newsletter's [initialize] empties the list whatever it holds. *)
Lemma newsletter_initialize_drops_sources (today tool : string)
    (s : Newsletter.State) :
  Newsletter.sources_gathered (Newsletter.initialize_state today tool s).1 = [].
Proof. by rewrite NewsletterFacts.initialize_state_eq. Qed.

(** C6 (amended).  In the research workflow the stored [sources_gathered]
    never gets shorter: across every node invocation, [initialize]
    included, the old list is a prefix of the new one, because what a node
    returns under this field is added to the stored list; the assignment of
    the empty list in [initialize_state] leaves the stored list as it was.
    In the newsletter workflow every node other than [initialize] leaves
    the old list as a prefix of the new one, whether it returns or raises,
    and [initialize], the entry node, resets the list to empty. *)
Theorem sources_only_grow (rw : Research.World) (nw : Newsletter.World)
    (t : nat) (rn : Research.node) (nn : Newsletter.node)
    (rs : Research.State) (ns : Newsletter.State) :
  nn ≠ Newsletter.Initialize →
  (Research.sources_gathered rs
     `prefix_of` Research.sources_gathered (Research.invoke rw t rn rs).1 ∧
   length (Research.sources_gathered rs)
     ≤ length (Research.sources_gathered (Research.invoke rw t rn rs).1)) ∧
  (Newsletter.sources_gathered ns
     `prefix_of` Newsletter.sources_gathered (Newsletter.run_node nw t nn ns).1 ∧
   length (Newsletter.sources_gathered ns)
     ≤ length (Newsletter.sources_gathered (Newsletter.run_node nw t nn ns).1)) ∧
  Research.invoke rw t Research.Initialize rs
  = (Research.set_running_summary ""
       (Research.set_research_loop_count 0 rs), Ret tt) ∧
  Newsletter.sources_gathered
    (Newsletter.run_node nw t Newsletter.Initialize ns).1 = [].
Proof.
  intros Hnn.
  pose proof (ResearchFacts.invoke_keeps_sources rw t rn rs) as Hr.
  pose proof (NewsletterFacts.node_keeps_sources nw t nn ns Hnn) as Hn.
  split; [split; [done|by apply prefix_length]|].
  split; [split; [done|by apply prefix_length]|].
  split; [|apply newsletter_initialize_drops_sources].
  destruct rs. unfold Research.invoke, Research.merge. simpl.
  by rewrite !app_nil_r.
Qed.

Lemma sources_only_grow_witness :
  Newsletter.Search ≠ Newsletter.Initialize ∧
  length (Research.sources_gathered research_with_source)
    ≤ length (Research.sources_gathered
                (Research.invoke quiet_research 0 Research.Initialize
                                 research_with_source).1) ∧
  length (Newsletter.sources_gathered stray_category)
    ≤ length (Newsletter.sources_gathered
                (Newsletter.run_node quiet_newsletter 2 Newsletter.Search
                                     stray_category).1).
Proof.
  assert (Newsletter.Search ≠ Newsletter.Initialize) as Hn by discriminate.
  split; [exact Hn|].
  pose proof (sources_only_grow quiet_research quiet_newsletter 0
                Research.Initialize Newsletter.Search research_with_source
                stray_category Hn) as ((_ & H1) & (_ & H2) & _).
  split; [exact H1|exact H2].
Defined.

(** C7 (counterexample).  The research state has an empty topic and the
    reply is prose: the node returns with the empty string as query. *)
Lemma empty_topic_empty_query :
  ¬ structured "query" prose ∧
  ∃ s', Research.generate_search_query (Ret prose) (research_input "" 3)
        = (s', Ret tt) ∧
        Research.search_query s' = PStr "".
Proof.
  split.
  - intros (d & v & Hp & _). discriminate.
  - eexists. split; reflexivity.
Qed.

Lemma fallback_query_not_empty (c d : option string) :
  Newsletter.fallback_query c d ≠ "".
Proof.
  unfold Newsletter.fallback_query. by destruct (fmt_opt c).
Qed.

(** C7 (amended).  When the reply to [generate_query] is not a JSON object
    with a [query] key, then: in the research workflow, if the node returns
    (it does for text that is not JSON and for an object without the key)
    the query is the topic string, which is never null and is empty exactly
    when the topic is empty; in the newsletter workflow the node always
    returns and the query is [<category> latest news <date>], which is
    never empty. *)
Theorem malformed_reply_falls_back (r : reply) (rs : Research.State)
    (ns : Newsletter.State) :
  ¬ structured "query" r →
  (∀ rs', Research.generate_search_query (Ret r) rs = (rs', Ret tt) →
          Research.search_query rs' = PStr (Research.research_topic rs) ∧
          Research.search_query rs' ≠ PNone ∧
          (Research.search_query rs' = PStr "" ↔
           Research.research_topic rs = "")) ∧
  (parsed r = None ∨ (∃ d, parsed r = Some (PDict d)) →
   Research.generate_search_query (Ret r) rs =
   (Research.set_search_query (PStr (Research.research_topic rs)) rs, Ret tt)) ∧
  Newsletter.generate_search_query (Ret r) ns =
    (Newsletter.set_search_query
       (PStr (Newsletter.fallback_query (Newsletter.current_category ns)
                                        (Newsletter.date ns))) ns, Ret tt) ∧
  Newsletter.fallback_query (Newsletter.current_category ns)
                            (Newsletter.date ns) ≠ "".
Proof.
  intros Hbad.
  assert (∀ d, parsed r = Some (PDict d) → dict_lookup "query" d = None) as Hkey.
  { intros d Hd. destruct (dict_lookup "query" d) as [v|] eqn:Hv; [|done].
    exfalso. apply Hbad. by exists d, v. }
  split; [|split; [|split; [|apply fallback_query_not_empty]]].
  - unfold Research.generate_search_query, json_loads. py_unfold. simpl.
    destruct (parsed r) as [[| | | | |d]|] eqn:Hp; simpl;
      try (intros rs' [=]; fail).
    + rewrite (Hkey d eq_refl). simpl. intros rs' [= <-]. simpl.
      split; [done|]. split; [done|]. split; [by intros [=]|by intros ->].
    + intros rs' [= <-]. simpl.
      split; [done|]. split; [done|]. split; [by intros [=]|by intros ->].
  - unfold Research.generate_search_query, json_loads. py_unfold. simpl.
    intros [Hp|[d Hp]]; rewrite Hp; simpl; [done|].
    by rewrite (Hkey d Hp).
  - unfold Newsletter.generate_search_query, json_loads. py_unfold. simpl.
    destruct (parsed r) as [[| | | | |d]|] eqn:Hp; simpl; try done.
    by rewrite (Hkey d eq_refl).
Qed.

Lemma malformed_reply_falls_back_witness :
  ¬ structured "query" prose ∧
  Research.generate_search_query (Ret prose) (research_input "X" 3) =
    (Research.set_search_query (PStr "X") (research_input "X" 3), Ret tt) ∧
  Newsletter.generate_search_query (Ret prose) stray_category =
    (Newsletter.set_search_query (PStr "Z latest news 2025-03-04")
                                 stray_category, Ret tt).
Proof.
  assert (¬ structured "query" prose) as Hbad
    by (intros (d & v & Hp & _); discriminate).
  split; [exact Hbad|].
  pose proof (malformed_reply_falls_back prose (research_input "X" 3)
                stray_category Hbad) as (_ & Hr & Hn & _).
  split; [exact (Hr (or_introl eq_refl))|exact Hn].
Defined.

End WorkflowFacts.

(** ** The research workflow: invariants of a run and node behaviour *)

Module ResearchNodeFacts.
Import Research Scenarios ResearchFacts.

(** What a step of the executor preserves, it preserves along a run. *)
Lemma exec_preserves (w : World) (P : node → State → list node → Prop) :
  (∀ t n s v s1 n1, P n s v → invoke w t n s = (s1, Ret tt) →
                    next n s1 = Some n1 → P n1 s1 (v ++ [n])) →
  ∀ fuel t n s v n' s' v',
    P n s v → exec w fuel t n s v = StillRunning n' s' v' → P n' s' v'.
Proof.
  intros Hstep. induction fuel as [|fuel IH]; intros t n s v n' s' v' HP; simpl.
  - by intros [= <- <- <-].
  - destruct (invoke w t n s) as [s1 [[]|e]] eqn:Hrun; [|done].
    destruct (next n s1) as [n1|] eqn:Hnext; [|done].
    apply IH. by eapply Hstep.
Qed.

Lemma next_not_initialize (n n1 : node) (s : State) :
  next n s = Some n1 → n1 ≠ Initialize.
Proof.
  destruct n; simpl; try (by intros [= <-]).
  by destruct (should_continue_research s); intros [= <-].
Qed.

Lemma invoke_keeps_buffer (w : World) (t : nat) (n : node) (s s' : State) :
  invoke w t n s = (s', Ret tt) →
  web_research_results s `prefix_of` web_research_results s' ∧
  (assigns_web_research_results n →
   web_research_results s' = web_research_results s).
Proof.
  unfold invoke. destruct (run_node w t n s) as [s1 [[]|e]] eqn:Hrun; [|done].
  intros [= <-]. apply research_node_keeps_buffer in Hrun. simpl.
  destruct (assigns_web_research_results n).
  - rewrite Hrun, app_nil_r. by split.
  - split; [by apply prefix_app_r|done].
Qed.

(** X1.  The stored buffer [web_research_results] is never cleared during
    a research run.  Across every node invocation that returns, the old
    buffer is a prefix of the new one; the assignments of the empty list in
    [initialize_state] and [update_summary] leave the stored buffer exactly
    as it was, because what a node returns under this field is added to the
    stored list; and so whatever the caller put into the buffer is still
    its prefix at every later point of the run. *)
Theorem buffer_never_cleared (w : World) :
  (∀ t n s s', invoke w t n s = (s', Ret tt) →
     web_research_results s `prefix_of` web_research_results s' ∧
     (n = Initialize ∨ n = UpdateSummary →
      web_research_results s' = web_research_results s)) ∧
  (∀ fuel s0 n s visited,
     run w fuel s0 = StillRunning n s visited →
     web_research_results s0 `prefix_of` web_research_results s).
Proof.
  split.
  - intros t n s s' Hinv.
    destruct (invoke_keeps_buffer w t n s s' Hinv) as [Hp Heq].
    split; [done|]. intros [->| ->]; by apply Heq.
  - intros fuel s0 n s visited Hrun.
    apply (exec_preserves w
             (λ _ s _, web_research_results s0 `prefix_of` web_research_results s))
      with (fuel := fuel) (t := 0) (n := Initialize) (s := s0) (v := [])
           (n' := n) (v' := visited); [|done|done].
    intros t m s1 v s2 n1 HP Hinv _.
    destruct (invoke_keeps_buffer w t m s1 s2 Hinv) as [Hp _]. by etrans.
Qed.

(** X2.  At every point of a research run after the first node invocation,
    [research_loop_count] is the number of [reflect] invocations made so
    far, and [max_iterations] and [research_topic] are still the caller's. *)
Theorem loop_count_counts_reflects (w : World) (fuel : nat) (s0 s : State)
    (n : node) (visited : list node) :
  run w fuel s0 = StillRunning n s visited → visited ≠ [] →
  research_loop_count s
    = Z.of_nat (length (filter (λ m, m = Reflect) visited)) ∧
  max_iterations s = max_iterations s0 ∧
  research_topic s = research_topic s0.
Proof.
  intros Hrun Hne.
  apply (exec_preserves w
           (λ n s v, (v = [] ∧ n = Initialize ∧ s = s0) ∨
                     (v ≠ [] ∧ n ≠ Initialize ∧
                      research_loop_count s
                      = Z.of_nat (length (filter (λ m, m = Reflect) v)) ∧
                      max_iterations s = max_iterations s0 ∧
                      research_topic s = research_topic s0))
           ) with (fuel := fuel) (t := 0) (n := Initialize) (s := s0) (v := [])
                  (n' := n) (v' := visited) in Hrun; [| |by left].
  { by destruct Hrun as [(? & _)|(_ & _ & ?)]. }
  intros t m s1 v s2 n1 HP Hnode Hnext.
  pose proof (next_not_initialize _ _ _ Hnext) as Hn1.
  right. split; [by destruct v|]. split; [done|].
  rewrite filter_app, length_app.
  destruct (invoke_frame w t m s1 s2 Hnode) as (Hmax & Htopic & Hcount).
  destruct HP as [(-> & -> & ->)|(Hv & Hm & Hc & Hmx & Htp)].
  - by rewrite Hmax, Htopic, Hcount.
  - rewrite Hmax, Htopic, Hcount, Hc, decide_False by done. split; [|done].
    rewrite filter_cons, filter_nil. destruct (decide (m = Reflect)); simpl; lia.
Qed.

Lemma buffer_never_cleared_witness :
  ∃ s',
    invoke quiet_research 3 UpdateSummary
      (mkState (PStr "X") [PStr "results"; PStr "results"] [] "X" 0 "" 2)
    = (s', Ret tt) ∧
    web_research_results s' = [PStr "results"; PStr "results"].
Proof.
  eexists. split; [reflexivity|].
  refine (proj2 (proj1 (buffer_never_cleared quiet_research) 3 UpdateSummary
                   (mkState (PStr "X") [PStr "results"; PStr "results"] []
                            "X" 0 "" 2) _ eq_refl) _).
  by right.
Defined.

Lemma loop_count_counts_reflects_witness :
  ∃ n s visited,
    run quiet_research 9 (research_input "X" 3) = StillRunning n s visited ∧
    visited ≠ [] ∧
    research_loop_count s
      = Z.of_nat (length (filter (λ m, m = Reflect) visited)).
Proof.
  eexists _, _, _. split; [vm_compute; reflexivity|]. split; [done|].
  refine (proj1 (loop_count_counts_reflects quiet_research 9
                   (research_input "X" 3) _ _ _ _ _)); [|done].
  vm_compute. reflexivity.
Defined.

(** X3.  The assignments in [initialize_state] do not remove what the
    caller put into the two lists: after the first node invocation the
    stored [web_research_results] and [sources_gathered] are the caller's.
    A research run of at least two node invocations depends on the
    caller's state through [research_topic], [max_iterations] and these
    two lists only; [search_query], [research_loop_count] and
    [running_summary] are overwritten before they are read. *)
Theorem run_reads_four_fields (w : World) (fuel : nat) (s s' : State) :
  2 ≤ fuel →
  research_topic s = research_topic s' →
  max_iterations s = max_iterations s' →
  web_research_results s = web_research_results s' →
  sources_gathered s = sources_gathered s' →
  run w fuel s = run w fuel s' ∧
  ∃ s1, run w 1 s = StillRunning GenerateQuery s1 [Initialize] ∧
        web_research_results s1 = web_research_results s ∧
        sources_gathered s1 = sources_gathered s ∧
        research_loop_count s1 = 0%Z ∧ running_summary s1 = "".
Proof.
  intros Hfuel Htopic Hmax Hweb Hsrc. split.
  - destruct fuel as [|[|fuel]]; [lia|lia|].
    destruct s as [q wr sg topic c sm mx], s' as [q' wr' sg' topic' c' sm' mx'].
    simpl in Htopic, Hmax, Hweb, Hsrc. subst topic' mx' wr' sg'.
    unfold run. simpl. unfold invoke. simpl.
    unfold generate_search_query, json_loads. py_unfold. simpl.
    destruct (llm w 1) as [r|e]; simpl; [|done].
    destruct (parsed r) as [v|]; simpl; [|done].
    destruct (py_getitem v "query") as [x|[]]; simpl; done.
  - eexists. split; [reflexivity|]. simpl. by rewrite !app_nil_r.
Qed.

Lemma run_reads_four_fields_witness :
  2 ≤ 7 ∧
  run quiet_research 7 research_with_source
  = run quiet_research 7
      (mkState (PStr "stale") [] [PStr "https://example.org"] "X" 5 "old" 3).
Proof.
  split; [lia|].
  refine (proj1 (run_reads_four_fields quiet_research 7 research_with_source
                   (mkState (PStr "stale") [] [PStr "https://example.org"]
                            "X" 5 "old" 3)
                   _ eq_refl eq_refl eq_refl eq_refl)).
  lia.
Defined.

(** X4.  [search_web] on a result dictionary whose results all have a url
    returns, appends the urls to [sources_gathered] in order, and extends
    [web_research_results] with the keys of the dictionary (what
    [list.extend] draws from a dict), not with its results. *)
Theorem search_web_appends_urls (d : list (string * pyval))
    (found : pyval) (rs urls : list pyval) (s : State) :
  dict_lookup "results" d = Some found →
  py_iter found = Ret rs →
  omap (λ r, py_getitem r "url") rs = Ret urls →
  search_web (Ret (PDict d)) s =
  (set_sources_gathered (sources_gathered s ++ urls)
     (set_web_research_results (web_research_results s ++ (PStr <$> d.*1)) s),
   Ret tt).
Proof.
  intros Hd Hfound Hurls. unfold search_web. py_unfold. simpl.
  rewrite Hd. simpl.
  by rewrite Hfound, Hurls.
Qed.

Lemma search_web_appends_urls_witness :
  search_web (Ret (PDict [("results",
                           PList [PDict [("url", PStr "https://a.example")]])]))
             research_with_source =
  (mkState (PStr "") [PStr "results"]
           [PStr "https://example.org"; PStr "https://a.example"] "X" 0 "" 3,
   Ret tt).
Proof.
  exact (search_web_appends_urls
           [("results", PList [PDict [("url", PStr "https://a.example")]])]
           (PList [PDict [("url", PStr "https://a.example")]])
           [PDict [("url", PStr "https://a.example")]]
           [PStr "https://a.example"] research_with_source
           eq_refl eq_refl eq_refl).
Defined.

(** X5.  A result without a url makes [search_web] raise ([KeyError], or
    [TypeError] for a result that is not a dict) after the buffer was
    extended and before any source of the batch is recorded. *)
Theorem search_web_missing_url (d : list (string * pyval))
    (found : pyval) (rs : list pyval) (e : exn) (s : State) :
  dict_lookup "results" d = Some found →
  py_iter found = Ret rs →
  omap (λ r, py_getitem r "url") rs = Exc e →
  search_web (Ret (PDict d)) s =
  (set_web_research_results (web_research_results s ++ (PStr <$> d.*1)) s,
   Exc e) ∧
  (e = KeyError ∨ e = TypeError).
Proof.
  intros Hd Hfound Hurls. split.
  - unfold search_web. py_unfold. simpl.
    rewrite Hd. simpl.
    by rewrite Hfound, Hurls.
  - clear Hfound. revert e Hurls. induction rs as [|r rs IH]; intros e; [done|].
    simpl. destruct (py_getitem r "url") as [u|e'] eqn:Hu; simpl.
    + destruct (omap _ rs) as [us|e'']; simpl; [done|].
      intros [= <-]. by apply IH.
    + intros [= <-]. unfold py_getitem in Hu.
      destruct r as [| | | | |d']; try (injection Hu as <-; by right).
      destruct (dict_lookup "url" d'); [done|]. injection Hu as <-. by left.
Qed.

Lemma search_web_missing_url_witness :
  search_web (Ret (PDict [("results",
                 PList [PDict [("url", PStr "https://a.example")];
                        PDict [("title", PStr "t")]])]))
             research_with_source =
  (mkState (PStr "") [PStr "results"] [PStr "https://example.org"] "X" 0 "" 3,
   Exc KeyError).
Proof.
  exact (proj1 (search_web_missing_url
           [("results", PList [PDict [("url", PStr "https://a.example")];
                               PDict [("title", PStr "t")]])]
           (PList [PDict [("url", PStr "https://a.example")];
                   PDict [("title", PStr "t")]])
           [PDict [("url", PStr "https://a.example")];
            PDict [("title", PStr "t")]]
           KeyError research_with_source eq_refl eq_refl eq_refl)).
Defined.

(** X6.  [reflect_and_identify_gaps] either raises and leaves the state
    untouched (the chat model raised, or its reply is JSON but not an
    object: that [TypeError] is not among the caught classes), or returns
    having added exactly one to the counter; the query is then the reply's
    [follow_up_query], or the fallback text when the reply is not
    structured. *)
Theorem reflect_counts_once (response : outcome reply) (s : State) :
  (∃ e, reflect_and_identify_gaps response s = (s, Exc e) ∧
        (response = Exc e ∨
         e = TypeError ∧ ∃ r v, response = Ret r ∧ parsed r = Some v ∧
                                is_dict v = false)) ∨
  (∃ r q, response = Ret r ∧
          reflect_and_identify_gaps response s =
          (set_research_loop_count (research_loop_count s + 1)
             (set_search_query q s), Ret tt) ∧
          (¬ structured "follow_up_query" r →
           q = PStr ("latest developments in " +:+ research_topic s)) ∧
          (∀ d v, parsed r = Some (PDict d) →
                  dict_lookup "follow_up_query" d = Some v → q = v)).
Proof.
  unfold reflect_and_identify_gaps, json_loads. py_unfold.
  destruct response as [r|e]; simpl; [|left; eauto].
  destruct (parsed r) as [v|] eqn:Hp; simpl.
  - destruct v as [| | | | |d]; simpl;
      try (left; exists TypeError; split; [done|right]; split; [done|];
           eexists r, _; by repeat split).
    destruct (dict_lookup "follow_up_query" d) as [x|] eqn:Hx; simpl; right.
    + exists r, x. split; [done|]. split; [done|]. split.
      * intros Hbad. exfalso. apply Hbad. by exists d, x.
      * intros d' v' Hd' Hv'. congruence.
    + eexists r, _. split; [done|]. split; [done|]. split; [done|].
      intros d' v' Hd' Hv'. congruence.
  - right. eexists r, _. split; [done|]. split; [done|]. split; [done|].
    intros d' v' Hd'. congruence.
Qed.

End ResearchNodeFacts.

(** ** The newsletter workflow: node behaviour and the shape of a run *)

Module NewsletterNodeFacts.
Import Newsletter Scenarios NewsletterFacts.

(** X7.  A newsletter run of at least one node invocation depends on the
    caller's state through [date], [categories] and [current_category]
    only. *)
Theorem run_reads_three_fields (w : World) (fuel : nat) (s s' : State) :
  1 ≤ fuel →
  date s = date s' → categories s = categories s' →
  current_category s = current_category s' →
  run w fuel s = run w fuel s'.
Proof.
  intros Hfuel Hd Hcs Hc. destruct fuel as [|fuel]; [lia|]. unfold run.
  rewrite (exec_ok w fuel 0 Initialize GenerateQuery s _ []
             (initialize_state_eq (today w) (tool_name w) s) eq_refl).
  rewrite (exec_ok w fuel 0 Initialize GenerateQuery s' _ []
             (initialize_state_eq (today w) (tool_name w) s') eq_refl).
  by rewrite Hd, Hcs, Hc.
Qed.

Lemma run_reads_three_fields_witness :
  1 ≤ 12 ∧
  run quiet_newsletter 12 stray_category = run quiet_newsletter 12
    (mkState (Some "2025-03-04") ["A"; "B"; "C"] (Some "Z") PNone PNone ""
             ∅ "old text" [PStr "https://old.example"]).
Proof.
  split; [lia|].
  apply (run_reads_three_fields quiet_newsletter 12 stray_category);
    [lia|reflexivity|reflexivity|reflexivity].
Defined.

(** X8.  The newsletter's [initialize_state] always returns.  It leaves a
    category list that is not empty (the caller's, or the three defaults
    for an empty one) and a current category that is set (the caller's, or
    the first category when the caller's is unset or empty), keeps a date
    that is set and replaces an unset or empty one by today's, and resets
    the six working fields. *)
Theorem initialize_state_result (today tool : string) (s : State) :
  ∃ s' c, initialize_state today tool s = (s', Ret tt) ∧
    categories s' ≠ [] ∧
    current_category s' = Some c ∧
    (categories s ≠ [] → categories s' = categories s) ∧
    (categories s = [] → categories s' = default_categories) ∧
    (falsy (current_category s) → head (categories s') = Some c) ∧
    (¬ falsy (current_category s) → current_category s = Some c) ∧
    (¬ falsy (date s) → date s' = date s) ∧
    (falsy (date s) → date s' = Some today) ∧
    category_summaries s' = ∅ ∧ sources_gathered s' = [] ∧
    newsletter_summary s' = "" ∧ search_query s' = PStr "" ∧
    web_research_results s' = PList [] ∧ search_tool_name s' = tool.
Proof.
  rewrite initialize_state_eq. simpl.
  set (cs := if bool_decide (categories s = []) then default_categories
             else categories s).
  assert (cs ≠ []) as Hne by (unfold cs; by case_bool_decide).
  assert (∃ c, (if falsy (current_category s) then head cs
                else current_category s) = Some c) as [c Hc].
  { destruct (current_category s) as [x|]; simpl.
    - case_bool_decide; [|by eexists]. destruct cs; [done|by eexists].
    - destruct cs; [done|by eexists]. }
  eexists _, c. split; [reflexivity|]. simpl. rewrite Hc.
  split; [done|]. split; [done|].
  split; [intros ?; unfold cs; by rewrite bool_decide_false|].
  split; [intros ?; unfold cs; by rewrite bool_decide_true|].
  split; [intros Hf; apply Is_true_true in Hf; by rewrite Hf in Hc|].
  split; [intros Hf; apply Is_true_false in Hf; by rewrite Hf in Hc|].
  split; [intros Hf; apply Is_true_false in Hf; by rewrite Hf|].
  split; [intros Hf; apply Is_true_true in Hf; by rewrite Hf|].
  done.
Qed.

Lemma py_iter_sized (v : pyval) (l : list pyval) :
  py_iter v = Ret l → ∃ n, py_len v = Ret n.
Proof. destruct v; simpl; try done; by eexists. Qed.

(** X9.  [search_news] on a result dictionary records the urls of the batch
    all together or not at all: when every result has a url it stores the
    dictionary and appends the urls; when one has none it stores the empty
    result instead and leaves [sources_gathered] as it was.  It returns in
    both cases. *)
Theorem search_news_all_or_nothing (d : list (string * pyval))
    (found : pyval) (rs : list pyval) (s : State) :
  dict_lookup "results" d = Some found →
  py_iter found = Ret rs →
  search_news (Ret (PDict d)) s =
  match omap (λ r, py_getitem r "url") rs with
  | Ret urls =>
      (set_sources_gathered (sources_gathered s ++ urls)
         (set_web_research_results (PDict d) s), Ret tt)
  | Exc _ => (set_web_research_results empty_results s, Ret tt)
  end.
Proof.
  intros Hd Hfound. destruct (py_iter_sized _ _ Hfound) as [n Hn].
  unfold search_news, store_results, gather_sources. py_unfold. simpl.
  rewrite Hd. simpl. rewrite Hn. simpl. rewrite Hfound. simpl.
  by destruct (omap _ rs).
Qed.

Lemma search_news_all_or_nothing_witness :
  search_news
    (Ret (PDict [("results",
                  PList [PDict [("url", PStr "https://a.example")];
                         PDict [("title", PStr "t")]])]))
    stray_category
  = (set_web_research_results empty_results stray_category, Ret tt).
Proof.
  exact (search_news_all_or_nothing
           [("results", PList [PDict [("url", PStr "https://a.example")];
                               PDict [("title", PStr "t")]])]
           (PList [PDict [("url", PStr "https://a.example")];
                   PDict [("title", PStr "t")]])
           [PDict [("url", PStr "https://a.example")];
            PDict [("title", PStr "t")]]
           stray_category eq_refl eq_refl).
Defined.

(** X10.  [summarize_category] lets an exception of the chat model through
    with the state untouched.  Otherwise it returns and stores, under the
    current category, the value the reply has under [summaries] when that
    value has a length, and the empty list in every other case (no JSON, no
    such key, a value without length). *)
Theorem summarize_category_outcome (response : outcome reply) (s : State) :
  match response with
  | Exc e => summarize_category response s = (s, Exc e)
  | Ret r =>
      (∃ summary_data v,
         parsed r = Some summary_data ∧
         py_getitem summary_data "summaries" = Ret v ∧ sized v ∧
         summarize_category response s =
         (store_summary (current_category s) v s, Ret tt)) ∨
      ((∀ summary_data v,
          parsed r = Some summary_data →
          py_getitem summary_data "summaries" = Ret v → ¬ sized v) ∧
       summarize_category response s =
       (store_summary (current_category s) (PList []) s, Ret tt))
  end.
Proof.
  destruct response as [r|e]; [|done].
  unfold summarize_category, store_summaries, json_loads. py_unfold. simpl.
  destruct (parsed r) as [sd|]; simpl; [|by right].
  destruct (py_getitem sd "summaries") as [v|e] eqn:Hv; simpl.
  2:{ right. split; [|done]. intros ? ? [= <-]. by rewrite Hv. }
  destruct (py_len v) as [n|e] eqn:Hlen; simpl.
  - left. exists sd, v. repeat split; [done|by exists n].
  - right. split; [|by rewrite store_summary_twice].
    intros ? ? [= <-]. rewrite Hv. intros [= <-] [n Hn]. congruence.
Qed.

(** X11.  [update_category] moves to the entry that follows the first
    occurrence of the current category, clearing the query and the search
    results; when that occurrence is the last entry it changes nothing. *)
Theorem update_category_advances (s : State) (c : string)
    (front : list string) :
  current_category s = Some c → c ∉ front →
  (∀ nxt rest, categories s = front ++ c :: nxt :: rest →
               update_category s = (advanced nxt s, Ret tt)) ∧
  (categories s = front ++ [c] → update_category s = (s, Ret tt)).
Proof.
  intros Hc Hfresh. rewrite update_category_eq, Hc. split.
  - intros nxt rest ->. rewrite index_of_app_fresh by done. simpl.
    rewrite String.eqb_refl. simpl.
    replace (S (length front + 0)) with (length front + 1) by lia.
    by rewrite lookup_app_r, Nat.add_comm, Nat.add_sub by lia.
  - intros ->. rewrite index_of_app_fresh by done. simpl.
    rewrite String.eqb_refl. simpl.
    rewrite lookup_ge_None_2; [done|]. rewrite length_app. simpl. lia.
Qed.

Lemma update_category_advances_witness :
  current_category (newsletter_input ["A"; "B"; "A"] (Some "A")) = Some "A" ∧
  update_category (newsletter_input ["A"; "B"; "A"] (Some "A"))
  = (advanced "B" (newsletter_input ["A"; "B"; "A"] (Some "A")), Ret tt).
Proof.
  split; [reflexivity|].
  refine (proj1 (update_category_advances
                   (newsletter_input ["A"; "B"; "A"] (Some "A")) "A" []
                   eq_refl _) "B" ["A"] eq_refl).
  apply not_elem_of_nil.
Defined.

Lemma process_category_map (tool : outcome pyval) (response : outcome reply)
    (category : string) (s : State) :
  ∃ s' v, process_category tool response category s = (s', Ret tt) ∧
          category_summaries s' = <[Some category := v]> (category_summaries s).
Proof.
  unfold process_category. py_unfold. simpl.
  set (s1 := set_search_query _ _).
  assert (∀ s2, category_summaries s2 = category_summaries s →
                current_category s2 = Some category →
    ∃ s' v, (store_summary (current_category (set_web_research_results empty_results s2))
               (PList []) (set_web_research_results empty_results s2), Ret tt)
            = (s', @Ret unit tt) ∧
            category_summaries s' = <[Some category := v]> (category_summaries s))
    as Hfail.
  { intros s2 Hm Hc. eexists _, _. split; [done|]. simpl. by rewrite Hc, Hm. }
  assert (∀ s2 r, category_summaries s2 = category_summaries s →
                  current_category s2 = Some category →
    ∃ s' v, store_summaries r s2 = (s', Ret tt) ∧
            category_summaries s' = <[Some category := v]> (category_summaries s))
    as Hstore.
  { intros s2 r Hm Hc. destruct (store_summaries_shape r s2) as (v & _ & ->).
    eexists _, v. split; [done|]. simpl. by rewrite Hc, Hm. }
  destruct tool as [v|e]; simpl; [|by apply Hfail].
  destruct (store_results_shape v s1) as [o Ho]. rewrite Ho.
  destruct o as [[]|e]; simpl; [|by apply Hfail].
  destruct (gather_sources_shape v (set_web_research_results v s1))
    as [[urls Hg]|[[e Hg]|Hg]]; rewrite Hg; simpl; [| by apply Hfail |].
  - destruct response as [r|e]; simpl; [|by apply Hfail].
    destruct (Hstore (set_sources_gathered (sources_gathered s ++ urls)
                        (set_web_research_results v s1)) r eq_refl eq_refl)
      as (s' & v' & -> & Hm).
    by exists s', v'.
  - destruct response as [r|e]; simpl; [|by apply Hfail].
    destruct (Hstore (set_web_research_results v s1) r eq_refl eq_refl)
      as (s' & v' & -> & Hm).
    by exists s', v'.
Qed.

Lemma catchup_loop (tool : nat → outcome pyval) (chat : nat → outcome reply)
    (m : gmap (option string) pyval) (l : list string) :
  (∀ x, x ∈ l → m !! Some x = None) →
  ∀ start s, m ⊆ category_summaries s →
    ∃ s', for_each start l
            (λ i category, process_category (tool i) (chat i) category) s
          = (s', Ret tt) ∧ m ⊆ category_summaries s'.
Proof.
  induction l as [|x l IH]; intros Hfresh start s Hsub; simpl.
  - by exists s.
  - unfold bind.
    destruct (process_category_map (tool start) (chat start) x s)
      as (s1 & v & -> & Hm1).
    apply IH; [intros y Hy; apply Hfresh; by right|].
    rewrite Hm1. apply insert_subseteq_r; [apply Hfresh; left|done].
Qed.

(** X12.  The catch-up pass [process_remaining_categories] always returns,
    whatever the collaborators do.  It leaves every summary that was
    already stored as it was, adds exactly the missing categories as keys,
    keeps [categories] and [date], and only appends to
    [sources_gathered]. *)
Theorem catchup_keeps_summaries (tool : nat → outcome pyval)
    (chat : nat → outcome reply) (s : State) :
  ∃ s', process_remaining_categories tool chat s = (s', Ret tt) ∧
        category_summaries s ⊆ category_summaries s' ∧
        dom (category_summaries s')
        = dom (category_summaries s) ∪ list_to_set (Some <$> categories s) ∧
        categories s' = categories s ∧ date s' = date s ∧
        sources_gathered s `prefix_of` sources_gathered s'.
Proof.
  destruct (process_remaining_categories_grows (λ _, True) I tool chat s)
    as (s' & Hrun & Hcs & Hd & Hp & Hdom & _); [done|].
  exists s'. split; [done|]. split; [|done].
  revert Hrun. unfold process_remaining_categories. py_unfold. simpl.
  case_bool_decide; [|by intros [= <-]].
  destruct (catchup_loop tool chat (category_summaries s)
              (filter (λ cat, ¬ summarized s cat) (categories s))) with (start := 0) (s := s)
    as (s2 & -> & Hsub); [|done|by intros [= <-]].
  intros x [Hx _]%list_elem_of_filter. unfold summarized in Hx.
  rewrite bool_decide_spec in Hx. by apply eq_None_not_Some.
Qed.

(** X13.  [generate_newsletter] writes two fields only, whether it returns or
    raises: every stored summary is kept, every declared category without
    one gets the empty list, no other key is added, and
    [newsletter_summary] changes only when the node returns. *)
Theorem generate_newsletter_fills (str : pyval → string) (s : State) :
  let s' := (generate_newsletter str s).1 in
  date s' = date s ∧ categories s' = categories s ∧
  current_category s' = current_category s ∧
  search_query s' = search_query s ∧
  web_research_results s' = web_research_results s ∧
  search_tool_name s' = search_tool_name s ∧
  sources_gathered s' = sources_gathered s ∧
  category_summaries s ⊆ category_summaries s' ∧
  (∀ c, c ∈ categories s → category_summaries s !! Some c = None →
        category_summaries s' !! Some c = Some (PList [])) ∧
  dom (category_summaries s')
  = dom (category_summaries s) ∪ list_to_set (Some <$> categories s) ∧
  ((generate_newsletter str s).2 ≠ Ret tt →
   newsletter_summary s' = newsletter_summary s).
Proof.
  destruct (generate_newsletter_eq str s) as (m & Hm & ->).
  assert (category_summaries s ⊆ m) as Hsub.
  { apply map_subseteq_spec. intros k v Hk. by rewrite Hm, Hk. }
  assert (∀ c, c ∈ categories s → category_summaries s !! Some c = None →
               m !! Some c = Some (PList [])) as Hnew.
  { intros c Hc Hk. rewrite Hm, Hk, bool_decide_true; [done|].
    apply list_elem_of_fmap. by exists c. }
  assert (dom m = dom (category_summaries s)
                  ∪ list_to_set (Some <$> categories s)) as Hdom.
  { apply set_eq. intros k.
    rewrite elem_of_union, !elem_of_dom, elem_of_list_to_set, Hm.
    destruct (category_summaries s !! k) as [v|].
    - split; [by left|by eexists].
    - case_bool_decide as Hk.
      + split; [by right|by eexists].
      + split; [by intros [? ?]|]. intros [[? ?]|?]; done. }
  destruct (render_sections _ _ _ _); simpl; repeat split; done.
Qed.

(** X14.  [generate_newsletter] returns exactly when every summary stored
    for a declared category can be printed: it can be iterated and each of
    its items has a [title], a [summary] and a [url].  Summaries stored
    under other keys are not looked at. *)
Theorem generate_newsletter_returns_iff (str : pyval → string) (s : State) :
  (∃ s', generate_newsletter str s = (s', Ret tt))
  ↔ ∀ c v, c ∈ categories s → category_summaries s !! Some c = Some v →
           renderable v.
Proof.
  destruct (generate_newsletter_eq str s) as (m & Hm & ->).
  assert (∀ c, c ∈ categories s →
     default (PList []) (m !! Some c)
     = default (PList []) (category_summaries s !! Some c)) as Hdef.
  { intros c Hc. rewrite Hm. destruct (category_summaries s !! Some c); [done|].
    rewrite bool_decide_true; [done|]. apply list_elem_of_fmap. by exists c. }
  pose proof (render_sections_iff str m (categories s)
    ("🏗️ Builder's News " +:+ fmt_opt (date s) +:+ nl +:+ nl)) as Hiff.
  destruct (render_sections _ _ _ _) as [text|e].
  - split; [|by eexists]. intros _ c v Hc Hv.
    destruct Hiff as [Hiff _]. specialize (Hiff (ex_intro _ text eq_refl) c Hc).
    by rewrite Hdef, Hv in Hiff.
  - split; [by intros [? ?]|]. intros H. destruct Hiff as [_ [text Ht]]; [|done].
    intros c Hc. rewrite Hdef by done.
    destruct (category_summaries s !! Some c) as [v|] eqn:Hv; simpl.
    + by eapply H.
    + exists []. by split.
Qed.

Lemma render_sections_empty (str : pyval → string)
    (m : gmap (option string) pyval) (cs : list string) :
  (∀ c, c ∈ cs → py_iter (default (PList []) (m !! Some c)) = Ret []) →
  ∀ newsletter,
    render_sections str m newsletter cs
    = Ret (foldl (λ acc c, acc +:+ category_emojis c +:+ nl +:+ c +:+ nl)
                 newsletter cs).
Proof.
  induction cs as [|c cs IH]; intros Hall newsletter; simpl; [done|].
  rewrite Hall by left. simpl. apply IH. intros c' Hc'. apply Hall. by right.
Qed.

(** X15.  When no declared category has an article to print, the newsletter
    is the heading followed by one emoji line and one name line per
    category, in the order (and with the repetitions) of [categories]. *)
Theorem newsletter_without_articles (str : pyval → string) (s : State) :
  (∀ c v, c ∈ categories s → category_summaries s !! Some c = Some v →
          py_iter v = Ret []) →
  ∃ s', generate_newsletter str s = (s', Ret tt) ∧
        newsletter_summary s' =
        foldl (λ acc c, acc +:+ category_emojis c +:+ nl +:+ c +:+ nl)
              ("🏗️ Builder's News " +:+ fmt_opt (date s) +:+ nl +:+ nl)
              (categories s).
Proof.
  intros Hall. destruct (generate_newsletter_eq str s) as (m & Hm & ->).
  rewrite render_sections_empty; [by eexists|].
  intros c Hc. rewrite Hm.
  destruct (category_summaries s !! Some c) as [v|] eqn:Hv; simpl;
    [by eapply Hall|].
  rewrite bool_decide_true; [done|]. apply list_elem_of_fmap. by exists c.
Qed.

Lemma newsletter_without_articles_witness :
  ∃ s', generate_newsletter (λ _, "?") stray_category = (s', Ret tt) ∧
        newsletter_summary s' =
        foldl (λ acc c, acc +:+ category_emojis c +:+ nl +:+ c +:+ nl)
              ("🏗️ Builder's News " +:+ fmt_opt (date stray_category)
                 +:+ nl +:+ nl)
              (categories stray_category).
Proof.
  apply (newsletter_without_articles (λ _, "?") stray_category).
  intros c v _ Hv. simpl in Hv.
  destruct (decide (c = "Z")) as [->|Hne].
  - rewrite lookup_singleton_eq in Hv. by injection Hv as <-.
  - by rewrite lookup_singleton_ne in Hv by congruence.
Defined.

Lemma exec_more (w : World) (k : nat) :
  ∀ fuel t n s v,
    match exec w fuel t n s v with
    | StillRunning _ _ _ => False
    | _ => True
    end →
    exec w (fuel + k) t n s v = exec w fuel t n s v.
Proof.
  induction fuel as [|fuel IH]; intros t n s v; simpl; [done|].
  destruct (run_node w t n s) as [s' [[]|e]]; [|done].
  destruct (next n s'); [apply IH|done].
Qed.

Lemma supplies_anything (w : World) : supplies (λ _, True) w.
Proof. done. Qed.

Lemma run_twelve (w : World) (s0 : State) :
  let round := [GenerateQuery; Search; Summarize; UpdateCategory] in
  match run w 12 s0 with
  | Finished _ v =>
      v = Initialize :: round ++ [ProcessRemaining; GenerateNewsletter; End] ∨
      v = Initialize :: round ++ round
            ++ [ProcessRemaining; GenerateNewsletter; End]
  | Crashed _ v =>
      v = [Initialize; GenerateQuery; Search; Summarize] ∨
      v = Initialize :: round ++ [GenerateQuery; Search; Summarize] ∨
      v = Initialize :: round ++ [ProcessRemaining; GenerateNewsletter] ∨
      v = Initialize :: round ++ round ++ [ProcessRemaining; GenerateNewsletter]
  | StillRunning _ _ _ => False
  end.
Proof.
  intros round. unfold run.
  rewrite (exec_ok w 11 0 Initialize GenerateQuery s0 _ []
             (initialize_state_eq (today w) (tool_name w) s0) eq_refl).
  set (s1 := mkState _ _ _ _ _ _ _ _ _).
  destruct (exec_cycle (λ _, True) I w 7 1 s1 ([] ++ [Initialize])
              (supplies_anything w))
    as [(e & _ & Hx)|(s3 & s4 & H3 & Hc3 & Hu3 & Hx)];
    change (4 + 7) with 11 in Hx; rewrite Hx; [by left|].
  destruct (continue_categories s4) eqn:Hgo.
  - destruct (exec_cycle (λ _, True) I w 3 5 s4
                (([] ++ [Initialize])
                   ++ [GenerateQuery; Search; Summarize; UpdateCategory])
                (supplies_anything w))
      as [(e & _ & Hy)|(s7 & s8 & H7 & Hc7 & Hu7 & Hy)];
      change (4 + 3) with 7 in Hy; change (4 + 1) with 5; rewrite Hy;
      [right; by left|].
    rewrite (second_round_stops (λ _, True) I s1 s3 s4 s7 s8) by done.
    destruct (exec_tail (λ _, True) I w 0 9 s8
                ((([] ++ [Initialize])
                    ++ [GenerateQuery; Search; Summarize; UpdateCategory])
                   ++ [GenerateQuery; Search; Summarize; UpdateCategory])
                (supplies_anything w))
      as [(e & s9 & header & _ & _ & Hz)|(sf & _ & Hz)];
      change (3 + 0) with 3 in Hz; change (4 + 5) with 9; rewrite Hz.
    + right. right. by right.
    + by right.
  - destruct (exec_tail (λ _, True) I w 4 5 s4
                (([] ++ [Initialize])
                   ++ [GenerateQuery; Search; Summarize; UpdateCategory])
                (supplies_anything w))
      as [(e & s9 & header & _ & _ & Hz)|(sf & _ & Hz)];
      change (3 + 4) with 7 in Hz; change (4 + 1) with 5; rewrite Hz.
    + right. right. by left.
    + by left.
Qed.

(** X16.  Every newsletter run is over after at most twelve node
    invocations, whatever the input and the collaborators: it finishes
    after one or two rounds of the category cycle followed by the catch-up
    pass, the newsletter and the end node, or it is aborted in
    [summarize_category] or in [generate_newsletter].  No other trace
    exists; in particular the cycle is never entered a third time. *)
Theorem run_trace_shape (w : World) (fuel : nat) (s0 : State) :
  12 ≤ fuel →
  let round := [GenerateQuery; Search; Summarize; UpdateCategory] in
  match run w fuel s0 with
  | Finished _ v =>
      v = Initialize :: round ++ [ProcessRemaining; GenerateNewsletter; End] ∨
      v = Initialize :: round ++ round
            ++ [ProcessRemaining; GenerateNewsletter; End]
  | Crashed _ v =>
      v = [Initialize; GenerateQuery; Search; Summarize] ∨
      v = Initialize :: round ++ [GenerateQuery; Search; Summarize] ∨
      v = Initialize :: round ++ [ProcessRemaining; GenerateNewsletter] ∨
      v = Initialize :: round ++ round ++ [ProcessRemaining; GenerateNewsletter]
  | StillRunning _ _ _ => False
  end.
Proof.
  intros Hfuel round. pose proof (run_twelve w s0) as H12.
  replace fuel with (12 + (fuel - 12)) by lia. unfold run in *.
  rewrite exec_more; [exact H12|].
  by destruct (exec w 12 0 Initialize s0 []).
Qed.

Lemma run_trace_shape_witness :
  12 ≤ 40 ∧
  match run quiet_newsletter 40 stray_input with
  | Finished _ v =>
      v = Initialize :: [GenerateQuery; Search; Summarize; UpdateCategory]
            ++ [ProcessRemaining; GenerateNewsletter; End] ∨
      v = Initialize :: [GenerateQuery; Search; Summarize; UpdateCategory]
            ++ [GenerateQuery; Search; Summarize; UpdateCategory]
            ++ [ProcessRemaining; GenerateNewsletter; End]
  | Crashed _ v =>
      v = [Initialize; GenerateQuery; Search; Summarize] ∨
      v = Initialize :: [GenerateQuery; Search; Summarize; UpdateCategory]
            ++ [GenerateQuery; Search; Summarize] ∨
      v = Initialize :: [GenerateQuery; Search; Summarize; UpdateCategory]
            ++ [ProcessRemaining; GenerateNewsletter] ∨
      v = Initialize :: [GenerateQuery; Search; Summarize; UpdateCategory]
            ++ [GenerateQuery; Search; Summarize; UpdateCategory]
            ++ [ProcessRemaining; GenerateNewsletter]
  | StillRunning _ _ _ => False
  end.
Proof.
  split; [lia|]. apply (run_trace_shape quiet_newsletter 40 stray_input). lia.
Defined.

Lemma index_of_second (c1 c2 : string) (rest : list string) :
  c1 ≠ c2 → index_of c2 (c1 :: c2 :: rest) = Some 1.
Proof.
  intros Hne. simpl. destruct (String.eqb_spec c1 c2); [done|].
  by rewrite String.eqb_refl.
Qed.

Lemma count_first_only (s : State) (c1 : string) (l : list string) :
  dom (category_summaries s) = {[ Some c1 ]} → c1 ∉ l →
  filter (λ cat, summarized s cat) (c1 :: l) = [c1].
Proof.
  intros Hd Hfresh.
  rewrite filter_cons_True by (apply summarized_dom; rewrite Hd; set_solver).
  f_equal. apply filter_none. intros x Hx Hs%summarized_dom.
  rewrite Hd in Hs. apply elem_of_singleton in Hs. congruence.
Qed.

Lemma first_round (w : World) (fuel : nat) (s0 : State) (c1 c2 : string)
    (rest : list string) :
  categories s0 = c1 :: c2 :: rest → c1 ∉ c2 :: rest →
  falsy (current_category s0) ∨ current_category s0 = Some c1 →
  (∃ r, llm w 3 0 = Ret r) →
  ∃ s3, run w (5 + fuel) s0
        = exec w fuel 5
            (if bool_decide (rest = []) then ProcessRemaining else GenerateQuery)
            (advanced c2 s3)
            [Initialize; GenerateQuery; Search; Summarize; UpdateCategory] ∧
        categories s3 = c1 :: c2 :: rest ∧
        dom (category_summaries s3) = {[ Some c1 ]}.
Proof.
  intros Hcs Hfresh Hcur [r Hr]. unfold run.
  assert (c1 ≠ c2) as Hne by (intros ->; apply Hfresh; left).
  change (5 + fuel) with (S (4 + fuel)).
  rewrite (exec_ok w (4 + fuel) 0 Initialize GenerateQuery s0 _ []
             (initialize_state_eq (today w) (tool_name w) s0) eq_refl).
  rewrite Hcs. rewrite (bool_decide_false (c1 :: c2 :: rest = [])) by done.
  replace (if falsy (current_category s0) then head (c1 :: c2 :: rest)
           else current_category s0) with (Some c1)
    by (destruct Hcur as [Hf | ->];
        [apply Is_true_true in Hf; by rewrite Hf
        |by destruct (falsy (Some c1))]).
  set (s1 := mkState _ _ _ _ _ _ _ _ _).
  destruct (exec_cycle sized sized_empty_list w fuel 1 s1 ([] ++ [Initialize])
              (supplies_sized w))
    as [(e & Hllm & _)|(s3 & s4 & H3 & Hc3 & Hu3 & Hx)].
  { change (S (S 1)) with 3 in Hllm. rewrite Hr in Hllm. discriminate Hllm. }
  rewrite Hx. destruct H3 as (Hcs3 & _ & _ & Hd3 & _).
  simpl in Hcs3, Hd3, Hc3.
  rewrite update_category_eq, Hc3, Hcs3 in Hu3. simpl in Hu3.
  rewrite String.eqb_refl in Hu3. simpl in Hu3. injection Hu3 as <-.
  assert (dom (category_summaries s3) = {[ Some c1 ]}) as Hd
    by (rewrite Hd3; set_solver).
  exists s3. split; [|done].
  assert (continue_categories (advanced c2 s3)
          = negb (bool_decide (rest = []))) as ->.
  { assert (filter (λ cat, summarized (advanced c2 s3) cat)
                   (categories (advanced c2 s3)) = [c1]) as Hcount.
    { change (categories (advanced c2 s3)) with (categories s3).
      rewrite Hcs3. by apply count_first_only. }
    apply eq_true_iff_eq. rewrite continue_categories_true, Hcount.
    change (categories (advanced c2 s3)) with (categories s3).
    change (current_category (advanced c2 s3)) with (Some c2).
    rewrite Hcs3, negb_true_iff, bool_decide_eq_false. split.
    - intros [_ (c & i & [= <-] & Hi & Hlt)].
      rewrite (index_of_second c1 c2 rest Hne) in Hi. injection Hi as <-.
      intros ->. simpl in Hlt. lia.
    - intros Hrest. split; [simpl; lia|]. exists c2, 1.
      split; [done|]. split; [by apply index_of_second|].
      destruct rest; [done|simpl; lia]. }
  by destruct (bool_decide (rest = [])).
Qed.

(** X17.  How many categories the bounded phase summarises.  For a list of
    at least two categories whose first entry does not occur again, a run
    that starts on the first entry and whose summarizer does not raise hands
    over to the catch-up pass after one round when the list has exactly two
    entries (only the first is summarised, the second is left to the
    catch-up pass), and after two rounds when it has more (the first two are
    summarised and the third is the current category). *)
Theorem bounded_phase_rounds (w : World) (s0 : State) (c1 c2 : string)
    (rest : list string) :
  categories s0 = c1 :: c2 :: rest → c1 ∉ c2 :: rest →
  falsy (current_category s0) ∨ current_category s0 = Some c1 →
  (∀ t, ∃ r, llm w t 0 = Ret r) →
  match rest with
  | [] =>
      ∃ s, run w 5 s0
           = StillRunning ProcessRemaining s
               [Initialize; GenerateQuery; Search; Summarize; UpdateCategory] ∧
           dom (category_summaries s) = {[ Some c1 ]} ∧
           current_category s = Some c2
  | c3 :: _ =>
      ∃ s, run w 9 s0
           = StillRunning ProcessRemaining s
               [Initialize;
                GenerateQuery; Search; Summarize; UpdateCategory;
                GenerateQuery; Search; Summarize; UpdateCategory] ∧
           dom (category_summaries s) = {[ Some c1; Some c2 ]} ∧
           current_category s = Some c3
  end.
Proof.
  intros Hcs Hfresh Hcur Hllm.
  assert (c1 ≠ c2) as Hne by (intros ->; apply Hfresh; left).
  destruct rest as [|c3 rest].
  - destruct (first_round w 0 s0 c1 c2 [] Hcs Hfresh Hcur (Hllm 3))
      as (s3 & Hrun & Hcs3 & Hd3).
    change (5 + 0) with 5 in Hrun. exists (advanced c2 s3). by rewrite Hrun.
  - destruct (first_round w 4 s0 c1 c2 (c3 :: rest) Hcs Hfresh Hcur (Hllm 3))
      as (s3 & Hrun & Hcs3 & Hd3).
    change (5 + 4) with 9 in Hrun. rewrite Hrun.
    rewrite bool_decide_false by done.
    destruct (exec_cycle sized sized_empty_list w 0 5 (advanced c2 s3)
                [Initialize; GenerateQuery; Search; Summarize; UpdateCategory]
                (supplies_sized w))
      as [(e & He & _)|(s7 & s8 & H7 & Hc7 & Hu7 & Hy)].
    { destruct (Hllm 7) as [r Hr]. change (S (S 5)) with 7 in He.
      rewrite Hr in He. discriminate He. }
    change (4 + 0) with 4 in Hy. rewrite Hy.
    destruct H7 as (Hcs7 & _ & _ & Hd7 & _). simpl in Hcs7, Hd7, Hc7.
    rewrite update_category_eq, Hc7, Hcs7, Hcs3,
      (index_of_second c1 c2 (c3 :: rest) Hne) in Hu7.
    simpl in Hu7. injection Hu7 as <-.
    assert (continue_categories (advanced c3 s7) = false) as ->.
    { apply stop_cases. left. simpl. rewrite Hcs7, Hcs3.
      assert (2 ≤ length (filter (λ cat, summarized (advanced c3 s7) cat)
                                 (c1 :: c2 :: c3 :: rest))); [|simpl; lia].
      apply (count_adjacent _ _ 0 c1 c2); [done|done| |];
        apply summarized_dom; simpl; rewrite Hd7, Hd3; set_solver. }
    exists (advanced c3 s7). split; [done|]. split; [|done].
    simpl. rewrite Hd7, Hd3. set_solver.
Qed.

Lemma bounded_phase_rounds_witness :
  ∃ s, run quiet_newsletter 5 (newsletter_input ["A"; "B"] None)
       = StillRunning ProcessRemaining s
           [Initialize; GenerateQuery; Search; Summarize; UpdateCategory] ∧
       dom (category_summaries s) = {[ Some "A" ]} ∧
       current_category s = Some "B".
Proof.
  apply (bounded_phase_rounds quiet_newsletter
           (newsletter_input ["A"; "B"] None) "A" "B" []).
  - reflexivity.
  - intros H. apply list_elem_of_singleton in H. discriminate H.
  - left. exact I.
  - intros t. exists prose. reflexivity.
Defined.

End NewsletterNodeFacts.

(** ** The search tools: facts *)

Module SearchToolFacts.
Import SearchTools.

Lemma duckduckgo_result_dict (fetch : pyval → outcome pyval) (ffp : bool)
    (d : list (string * pyval)) :
  duckduckgo_result fetch ffp (PDict d) =
  Ret (if hit_complete (PDict d) then Some (hit_result fetch ffp (PDict d))
       else None).
Proof.
  unfold duckduckgo_result, hit_complete, hit_result. simpl.
  by destruct (complete _ _ _).
Qed.

Lemma duckduckgo_results_wf (fetch : pyval → outcome pyval) (ffp : bool)
    (l : list pyval) :
  ∀ results, duckduckgo_results fetch ffp l = Ret results →
             Forall (entry_ok ffp) results.
Proof.
  induction l as [|r l IH]; simpl; intros results.
  - by intros [= <-].
  - destruct r as [| | | | |d]; try done.
    rewrite duckduckgo_result_dict. simpl.
    destruct (duckduckgo_results fetch ffp l) as [rs|e]; simpl; [|done].
    specialize (IH rs eq_refl). intros [= <-].
    destruct (hit_complete (PDict d)) eqn:Hc; [|done].
    apply Forall_cons. split; [|done].
    unfold hit_complete, complete in Hc.
    apply andb_true_iff in Hc as [[Hu Ht]%andb_true_iff Hb].
    eexists _, _, _, _. split; [reflexivity|].
    rewrite Hu, Ht, Hb. repeat split; try done. by intros ->.
Qed.

Lemma duckduckgo_search_shape (hits : outcome (list pyval))
    (fetch : pyval → outcome pyval) (ffp : bool) :
  ∃ results,
    duckduckgo_search hits fetch ffp = Ret (PDict [("results", PList results)]) ∧
    Forall (entry_ok ffp) results.
Proof.
  unfold duckduckgo_search. destruct hits as [l|e]; simpl; [|by exists []].
  destruct (duckduckgo_results fetch ffp l) as [rs|e] eqn:Hrs; [|by exists []].
  exists rs. split; [done|]. by eapply duckduckgo_results_wf.
Qed.

(** X18.  [duckduckgo_search] never raises.  It returns a dictionary with the
    single key [results]; every entry has the four keys [title], [url],
    [content] and [raw_content] with a title, url and content that are not
    falsy, [raw_content] is the content when pages are not fetched, and
    there are at most as many entries as hits. *)
Theorem duckduckgo_search_total (hits : outcome (list pyval))
    (fetch : pyval → outcome pyval) (ffp : bool) :
  ∃ results,
    duckduckgo_search hits fetch ffp = Ret (PDict [("results", PList results)]) ∧
    Forall (entry_ok ffp) results ∧
    ∀ l, hits = Ret l → length results ≤ length l.
Proof.
  destruct (duckduckgo_search_shape hits fetch ffp) as (results & Hrun & Hwf).
  exists results. split; [done|]. split; [done|].
  intros l ->. revert Hrun. unfold duckduckgo_search. simpl.
  destruct (duckduckgo_results fetch ffp l) as [rs|e] eqn:Hrs;
    intros [= <-]; [|simpl; lia].
  clear Hwf. revert rs Hrs.
  induction l as [|r l IH]; simpl; intros rs; [by intros [= <-]|].
  destruct (duckduckgo_result fetch ffp r) as [o|]; simpl; [|done].
  destruct (duckduckgo_results fetch ffp l) as [rs'|]; simpl; [|done].
  specialize (IH rs' eq_refl). intros [= <-]. destruct o; simpl; lia.
Qed.

(** X19.  When every hit is a dict, the results of [duckduckgo_search] are
    the entries of the complete hits, in the order of the hits; a page that
    cannot be fetched leaves the snippet as [raw_content]. *)
Theorem duckduckgo_search_complete_hits (hits : list pyval)
    (fetch : pyval → outcome pyval) (ffp : bool) :
  Forall (λ r, is_dict r) hits →
  duckduckgo_search (Ret hits) fetch ffp =
  Ret (PDict [("results",
               PList (hit_result fetch ffp
                        <$> filter (λ r, hit_complete r) hits))]).
Proof.
  intros Hall. unfold duckduckgo_search. simpl.
  assert (duckduckgo_results fetch ffp hits =
          Ret (hit_result fetch ffp <$> filter (λ r, hit_complete r) hits))
    as ->; [|done].
  induction Hall as [|r l Hr _ IH]; [done|].
  destruct r as [| | | | |d]; try done. simpl duckduckgo_results.
  rewrite duckduckgo_result_dict, IH, filter_cons.
  destruct (decide _) as [Hc|Hc].
  - apply Is_true_true in Hc. by rewrite Hc.
  - apply Is_true_false in Hc. by rewrite Hc.
Qed.

Lemma duckduckgo_search_complete_hits_witness :
  duckduckgo_search
    (Ret [PDict [("href", PStr "https://a.example"); ("title", PStr "A");
                 ("body", PStr "alpha")];
          PDict [("href", PStr "https://b.example"); ("title", PStr "");
                 ("body", PStr "beta")];
          PDict [("title", PStr "C"); ("body", PStr "gamma");
                 ("href", PStr "https://c.example")]])
    (λ _, Exc CollaboratorError) true
  = Ret (PDict [("results",
      PList [PDict [("title", PStr "A"); ("url", PStr "https://a.example");
                    ("content", PStr "alpha"); ("raw_content", PStr "alpha")];
             PDict [("title", PStr "C"); ("url", PStr "https://c.example");
                    ("content", PStr "gamma");
                    ("raw_content", PStr "gamma")]])]).
Proof.
  apply (duckduckgo_search_complete_hits
           [PDict [("href", PStr "https://a.example"); ("title", PStr "A");
                   ("body", PStr "alpha")];
            PDict [("href", PStr "https://b.example"); ("title", PStr "");
                   ("body", PStr "beta")];
            PDict [("title", PStr "C"); ("body", PStr "gamma");
                   ("href", PStr "https://c.example")]]
           (λ _, Exc CollaboratorError) true).
  repeat constructor.
Defined.

(** X20.  One hit that is not a dict voids the whole batch of
    [duckduckgo_search]: the results are empty even when other hits are
    complete. *)
Theorem duckduckgo_search_bad_hit (hits : list pyval)
    (fetch : pyval → outcome pyval) (ffp : bool) :
  Exists (λ r, ¬ is_dict r) hits →
  duckduckgo_search (Ret hits) fetch ffp = Ret (PDict [("results", PList [])]).
Proof.
  intros Hbad. unfold duckduckgo_search. simpl.
  assert (∃ e, duckduckgo_results fetch ffp hits = Exc e) as [e ->]; [|done].
  induction Hbad as [r l Hr|r l _ IH]; simpl.
  - destruct r as [| | | | |d]; [by eexists..|]. exfalso. by apply Hr.
  - destruct IH as [e ->].
    destruct (duckduckgo_result fetch ffp r); simpl; by eexists.
Qed.

Lemma duckduckgo_search_bad_hit_witness :
  duckduckgo_search
    (Ret [PDict [("href", PStr "https://a.example"); ("title", PStr "A");
                 ("body", PStr "alpha")];
          PStr "not a hit"])
    (λ _, Exc CollaboratorError) false
  = Ret (PDict [("results", PList [])]).
Proof.
  apply (duckduckgo_search_bad_hit
           [PDict [("href", PStr "https://a.example"); ("title", PStr "A");
                   ("body", PStr "alpha")];
            PStr "not a hit"]
           (λ _, Exc CollaboratorError) false).
  apply Exists_cons_tl, Exists_cons_hd. simpl. intros H. exact H.
Defined.

Lemma entries_have_urls (ffp : bool) (results : list pyval) :
  Forall (entry_ok ffp) results →
  ∃ urls, omap (λ r, py_getitem r "url") results = Ret urls ∧
          Forall (λ u, py_truthy u) urls ∧ length urls = length results.
Proof.
  induction 1 as [|r l (t & u & c & raw & -> & Hu & _) _ (urls & IH & Hall & Hlen)].
  - by exists [].
  - exists (u :: urls). simpl. rewrite IH. simpl.
    split; [done|]. split; [by constructor|by rewrite Hlen].
Qed.

(** X21.  With the DuckDuckGo function (which [get_search_function] selects
    for every tool name other than tavily and perplexity) the newsletter's
    search node always takes its success path, whatever the network does:
    [search_news] stores the dictionary the function returned and appends
    the urls of its entries, none of which is falsy, to the sources.  This
    assumes that the tool built by [get_search_tool], called with the query
    and the config as [search_news] calls it, returns what the wrapped
    function returns. *)
Theorem duckduckgo_search_news_succeeds (name : string) (net : Network) :
  name ≠ "tavily" → name ≠ "perplexity" →
  ∀ s : Newsletter.State, ∃ results urls,
    Newsletter.search_news (call (get_search_function name) net) s =
    (Newsletter.set_sources_gathered (Newsletter.sources_gathered s ++ urls)
       (Newsletter.set_web_research_results
          (PDict [("results", PList results)]) s),
     Ret tt) ∧
    omap (λ r, py_getitem r "url") results = Ret urls ∧
    Forall (λ u, py_truthy u) urls.
Proof.
  intros Ht Hp.
  assert (get_search_function name = DuckDuckGo) as ->.
  { unfold get_search_function.
    destruct (String.eqb_spec name "duckduckgo"); [done|].
    destruct (String.eqb_spec name "tavily"); [done|].
    by destruct (String.eqb_spec name "perplexity"). }
  simpl call.
  destruct (duckduckgo_search_shape (ddgs_text net) (page_text net) false)
    as (results & -> & Hwf).
  destruct (entries_have_urls false results Hwf) as (urls & Hurls & Hok & _).
  intros s. exists results, urls. split; [|done].
  unfold Newsletter.search_news, Newsletter.store_results,
    Newsletter.gather_sources. py_unfold. simpl. by rewrite Hurls.
Qed.

Lemma duckduckgo_search_news_succeeds_witness :
  ∃ results urls,
    Newsletter.search_news
      (call (get_search_function "bing")
         (mkNetwork (Exc CollaboratorError) (λ _, Exc CollaboratorError)
            (Exc CollaboratorError) (Exc CollaboratorError)))
      Scenarios.stray_category =
    (Newsletter.set_sources_gathered
       (Newsletter.sources_gathered Scenarios.stray_category ++ urls)
       (Newsletter.set_web_research_results
          (PDict [("results", PList results)]) Scenarios.stray_category),
     Ret tt) ∧
    omap (λ r, py_getitem r "url") results = Ret urls ∧
    Forall (λ u, py_truthy u) urls.
Proof.
  refine (duckduckgo_search_news_succeeds "bing"
            (mkNetwork (Exc CollaboratorError) (λ _, Exc CollaboratorError)
               (Exc CollaboratorError) (Exc CollaboratorError)) _ _
            Scenarios.stray_category); discriminate.
Defined.

Lemma imap_urls (g : nat → pyval → pyval) (cs : list pyval) :
  (∀ i c, py_getitem (g i c) "url" = Ret c) →
  omap (λ r, py_getitem r "url") (imap g cs) = Ret cs.
Proof.
  revert g. induction cs as [|c cs IH]; intros g Hg; simpl; [done|].
  rewrite Hg. simpl. rewrite IH; [done|]. intros i c'. apply Hg.
Qed.

Lemma perplexity_search_eq (d : list (string * pyval))
    (choices choice message content : pyval) (n : Z) :
  dict_lookup "choices" d = Some choices →
  py_index choices 0 = Ret choice →
  py_getitem choice "message" = Ret message →
  py_getitem message "content" = Ret content →
  perplexity_search (Ret (PDict d)) n =
  let citations :=
    default (PList [PStr "https://perplexity.ai"]) (dict_lookup "citations" d) in
  obind (py_index citations 0) (λ first_citation,
  obind (py_rest citations) (λ other_citations,
  Ret (PDict [("results", PList (
    PDict [("title", PStr (perplexity_title n 1));
           ("url", first_citation);
           ("content", content);
           ("raw_content", content)]
    :: imap (λ i citation,
         PDict [("title", PStr (perplexity_title n (2 + i)));
                ("url", citation);
                ("content", PStr "See above for full content");
                ("raw_content", PNone)])
       other_citations))]))).
Proof.
  intros Hd Hc Hm Hcont. unfold perplexity_search. cbn [obind].
  unfold py_getitem at 1. rewrite Hd. cbn [obind]. rewrite Hc. cbn [obind].
  rewrite Hm. cbn [obind]. rewrite Hcont. by cbn [obind py_get].
Qed.

(** X22.  [perplexity_search] returns one entry per citation, in the order of
    the citations; the entries are numbered from 1 in their titles, and only
    the first carries the answer as [content] and [raw_content]. *)
Theorem perplexity_search_results (d : list (string * pyval))
    (choices choice message content c : pyval) (cs : list pyval) (n : Z) :
  dict_lookup "choices" d = Some choices →
  py_index choices 0 = Ret choice →
  py_getitem choice "message" = Ret message →
  py_getitem message "content" = Ret content →
  dict_lookup "citations" d = Some (PList (c :: cs)) →
  ∃ results,
    perplexity_search (Ret (PDict d)) n = Ret (PDict [("results", PList results)]) ∧
    omap (λ r, py_getitem r "url") results = Ret (c :: cs) ∧
    ∀ i r, results !! i = Some r →
      py_getitem r "title" = Ret (PStr (perplexity_title n (S i))) ∧
      py_getitem r "content"
      = Ret (if i is 0 then content else PStr "See above for full content") ∧
      py_getitem r "raw_content" = Ret (if i is 0 then content else PNone).
Proof.
  intros Hd Hc Hm Hcont Hcit.
  rewrite (perplexity_search_eq d choices choice message content n) by done.
  rewrite Hcit. simpl. eexists. split; [reflexivity|]. split.
  - simpl. by rewrite imap_urls.
  - intros [|i] r; simpl; [by intros [= <-]|].
    rewrite list_lookup_imap. destruct (cs !! i); simpl; [|done].
    by intros [= <-].
Qed.

Lemma perplexity_search_results_witness :
  ∃ results,
    perplexity_search
      (Ret (PDict [("choices",
                    PList [PDict [("message",
                                   PDict [("content", PStr "answer")])]]);
                   ("citations", PList [PStr "https://a.example";
                                        PStr "https://b.example"])])) 0
    = Ret (PDict [("results", PList results)]) ∧
    omap (λ r, py_getitem r "url") results
    = Ret [PStr "https://a.example"; PStr "https://b.example"] ∧
    ∀ i r, results !! i = Some r →
      py_getitem r "title" = Ret (PStr (perplexity_title 0 (S i))) ∧
      py_getitem r "content"
      = Ret (if i is 0 then PStr "answer"
             else PStr "See above for full content") ∧
      py_getitem r "raw_content" = Ret (if i is 0 then PStr "answer" else PNone).
Proof.
  exact (perplexity_search_results
           [("choices",
             PList [PDict [("message", PDict [("content", PStr "answer")])]]);
            ("citations", PList [PStr "https://a.example";
                                 PStr "https://b.example"])]
           (PList [PDict [("message", PDict [("content", PStr "answer")])]])
           (PDict [("message", PDict [("content", PStr "answer")])])
           (PDict [("content", PStr "answer")])
           (PStr "answer") (PStr "https://a.example")
           [PStr "https://b.example"] 0
           eq_refl eq_refl eq_refl eq_refl eq_refl).
Defined.

(** X23.  The edge cases of the citation list of [perplexity_search]: a
    response without [citations] yields the single default url, an empty
    list raises [IndexError] and a null raises [TypeError]; neither is
    caught. *)
Theorem perplexity_citation_edges (d : list (string * pyval))
    (choices choice message content : pyval) (n : Z) :
  dict_lookup "choices" d = Some choices →
  py_index choices 0 = Ret choice →
  py_getitem choice "message" = Ret message →
  py_getitem message "content" = Ret content →
  (dict_lookup "citations" d = None →
   perplexity_search (Ret (PDict d)) n =
   Ret (PDict [("results",
     PList [PDict [("title", PStr (perplexity_title n 1));
                   ("url", PStr "https://perplexity.ai");
                   ("content", content); ("raw_content", content)]])])) ∧
  (dict_lookup "citations" d = Some (PList []) →
   perplexity_search (Ret (PDict d)) n = Exc IndexError) ∧
  (dict_lookup "citations" d = Some PNone →
   perplexity_search (Ret (PDict d)) n = Exc TypeError).
Proof.
  intros Hd Hc Hm Hcont.
  rewrite (perplexity_search_eq d choices choice message content n) by done.
  repeat split; by intros ->.
Qed.

Lemma perplexity_citation_edges_witness :
  perplexity_search
    (Ret (PDict [("choices",
                  PList [PDict [("message",
                                 PDict [("content", PStr "answer")])]]);
                 ("citations", PList [])])) 0
  = Exc IndexError.
Proof.
  exact (proj1 (proj2 (perplexity_citation_edges
           [("choices",
             PList [PDict [("message", PDict [("content", PStr "answer")])]]);
            ("citations", PList [])]
           (PList [PDict [("message", PDict [("content", PStr "answer")])]])
           (PDict [("message", PDict [("content", PStr "answer")])])
           (PDict [("content", PStr "answer")])
           (PStr "answer") 0
           eq_refl eq_refl eq_refl eq_refl)) eq_refl).
Defined.

(** X24.  With the Perplexity function the citations of a well-formed
    response become sources of the newsletter: [search_news] stores what
    the function returned and appends the citations to [sources_gathered]
    in order.  This assumes that the tool built by [get_search_tool],
    called with the query and the config as [search_news] calls it, returns
    what the wrapped function returns. *)
Theorem perplexity_citations_are_sources (net : Network)
    (d : list (string * pyval))
    (choices choice message content c : pyval) (cs : list pyval) :
  perplexity_http net = Ret (PDict d) →
  dict_lookup "choices" d = Some choices →
  py_index choices 0 = Ret choice →
  py_getitem choice "message" = Ret message →
  py_getitem message "content" = Ret content →
  dict_lookup "citations" d = Some (PList (c :: cs)) →
  ∀ s : Newsletter.State, ∃ v,
    call (get_search_function "perplexity") net = Ret v ∧
    Newsletter.search_news (call (get_search_function "perplexity") net) s =
    (Newsletter.set_sources_gathered
       (Newsletter.sources_gathered s ++ c :: cs)
       (Newsletter.set_web_research_results v s),
     Ret tt).
Proof.
  intros Hnet Hd Hc Hm Hcont Hcit.
  change (call (get_search_function "perplexity") net)
    with (perplexity_search (perplexity_http net) 0).
  rewrite Hnet, (perplexity_search_eq d choices choice message content 0) by done.
  rewrite Hcit. simpl.
  intros s. eexists. split; [reflexivity|].
  unfold Newsletter.search_news, Newsletter.store_results,
    Newsletter.gather_sources. py_unfold. simpl.
  by rewrite imap_urls.
Qed.

Lemma perplexity_citations_are_sources_witness :
  ∃ v,
    call (get_search_function "perplexity")
      (mkNetwork (Exc CollaboratorError) (λ _, Exc CollaboratorError)
         (Exc CollaboratorError)
         (Ret (PDict [("choices",
                       PList [PDict [("message",
                                      PDict [("content", PStr "answer")])]]);
                      ("citations", PList [PStr "https://a.example"])])))
    = Ret v ∧
    Newsletter.search_news
      (call (get_search_function "perplexity")
         (mkNetwork (Exc CollaboratorError) (λ _, Exc CollaboratorError)
            (Exc CollaboratorError)
            (Ret (PDict [("choices",
                          PList [PDict [("message",
                                         PDict [("content", PStr "answer")])]]);
                         ("citations", PList [PStr "https://a.example"])]))))
      Scenarios.stray_category
    = (Newsletter.set_sources_gathered
         (Newsletter.sources_gathered Scenarios.stray_category
            ++ [PStr "https://a.example"])
         (Newsletter.set_web_research_results v Scenarios.stray_category),
       Ret tt).
Proof.
  exact (perplexity_citations_are_sources
           (mkNetwork (Exc CollaboratorError) (λ _, Exc CollaboratorError)
              (Exc CollaboratorError)
              (Ret (PDict [("choices",
                            PList [PDict [("message",
                                           PDict [("content", PStr "answer")])]]);
                           ("citations", PList [PStr "https://a.example"])])))
           [("choices",
             PList [PDict [("message", PDict [("content", PStr "answer")])]]);
            ("citations", PList [PStr "https://a.example"])]
           (PList [PDict [("message", PDict [("content", PStr "answer")])]])
           (PDict [("message", PDict [("content", PStr "answer")])])
           (PDict [("content", PStr "answer")])
           (PStr "answer") (PStr "https://a.example") []
           eq_refl eq_refl eq_refl eq_refl eq_refl eq_refl
           Scenarios.stray_category).
Defined.

End SearchToolFacts.

(** ** The configuration loader: facts *)

Module ConfigurationFacts.
Import Configuration.

Lemma collect_lookup (environ : string → option string)
    (settings : pyval) (names : list string) (cv : list (string * pyval)) :
  collect environ settings names = Ret cv →
  ∀ name,
    dict_lookup name cv =
    if bool_decide (name ∈ names) then
      match lookup_setting environ settings name with
      | Ret PNone | Exc _ => None
      | Ret v => Some v
      end
    else None.
Proof.
  revert cv. induction names as [|n names IH]; intros cv; cbn [collect].
  - intros [= <-] name. by rewrite bool_decide_false by apply not_elem_of_nil.
  - destruct (lookup_setting environ settings n) as [v|e] eqn:Hv;
      cbn [obind]; [|done].
    destruct (collect environ settings names) as [cv'|e]; cbn [obind]; [|done].
    specialize (IH cv' eq_refl). intros [= <-] name.
    destruct (String.eqb_spec name n) as [->|Hne].
    + rewrite bool_decide_true by left. rewrite Hv.
      destruct v; simpl; rewrite ?String.eqb_refl; try done.
      rewrite IH. case_bool_decide; [by rewrite Hv|done].
    + assert (dict_lookup name
                (match v with PNone => cv' | _ => (n, v) :: cv' end)
              = dict_lookup name cv') as ->.
      { destruct v; simpl; try done;
          by destruct (String.eqb_spec name n). }
      rewrite IH. case_bool_decide as H1; case_bool_decide as H2; try done.
      * exfalso. apply H2. by right.
      * apply elem_of_cons in H2 as [?|?]; done.
Qed.

Lemma collect_dict_returns (environ : string → option string)
    (d : list (string * pyval)) (names : list string) :
  ∃ cv, collect environ (PDict d) names = Ret cv.
Proof.
  induction names as [|n names [cv IH]]; cbn [collect]; [by eexists|].
  rewrite IH. unfold lookup_setting, py_get.
  destruct (environ (upper n)) as [x|]; [destruct (String.eqb x "")|];
    cbn [obind]; by eexists.
Qed.

(** X25.  Precedence in [Configuration.from_runnable_config] when the
    configurable settings are a dict.  Each field takes the value of its
    environment variable (the upper-cased field name) when that is set and
    not empty, and takes it as a string, without conversion; otherwise the
    value the settings have under the field name, unless that is [None];
    otherwise the default of the dataclass.  A settings value that is falsy
    but not [None] (0, [False], the empty string) is kept. *)
Theorem from_runnable_config_precedence (environ : string → option string)
    (config : option pyval) (d : list (string * pyval)) :
  configurable_settings config = Ret (PDict d) →
  ∃ cfg, from_runnable_config environ config = Ret cfg ∧
    ∀ name get dflt, (name, get, dflt) ∈ declared_fields →
      let from_settings :=
        match dict_lookup name d with
        | Some PNone | None => dflt
        | Some v => Value v
        end in
      get cfg = match environ (upper name) with
                | Some x => if String.eqb x "" then from_settings
                            else Value (PStr x)
                | None => from_settings
                end.
Proof.
  intros Hset. unfold from_runnable_config. rewrite Hset. cbn [obind].
  destruct (collect_dict_returns environ d field_names) as [cv Hcv].
  rewrite Hcv. cbn [obind].
  exists (construct cv). split; [done|].
  pose proof (collect_lookup environ (PDict d) field_names cv Hcv) as Hl.
  intros name get dflt Hin. cbv zeta.
  unfold declared_fields in Hin.
  repeat (apply elem_of_cons in Hin as [[= -> -> ->]|Hin]);
    [..|by apply elem_of_nil in Hin];
    unfold construct; cbn [max_web_research_loops local_llm search_api
                             fetch_full_page ollama_base_url];
    unfold field; rewrite Hl;
    (rewrite bool_decide_true by (unfold field_names; set_solver));
    unfold lookup_setting, py_get;
    (destruct (environ _) as [x|]; [destruct (String.eqb x "")|]);
    try done; by destruct (dict_lookup _ d) as [[]|].
Qed.

Lemma from_runnable_config_precedence_witness :
  ∃ cfg,
    from_runnable_config
      (λ var, if String.eqb var "FETCH_FULL_PAGE" then Some "false"
              else if String.eqb var "LOCAL_LLM" then Some "" else None)
      (Some (PDict [("configurable",
                     PDict [("local_llm", PStr "llama3");
                            ("fetch_full_page", PBool true);
                            ("max_web_research_loops", PInt 0)])]))
    = Ret cfg ∧
    ∀ name get dflt, (name, get, dflt) ∈ declared_fields →
      let from_settings :=
        match dict_lookup name [("local_llm", PStr "llama3");
                                ("fetch_full_page", PBool true);
                                ("max_web_research_loops", PInt 0)] with
        | Some PNone | None => dflt
        | Some v => Value v
        end in
      get cfg =
      match (λ var, if String.eqb var "FETCH_FULL_PAGE" then Some "false"
                    else if String.eqb var "LOCAL_LLM" then Some "" else None)
              (upper name) with
      | Some x => if String.eqb x "" then from_settings else Value (PStr x)
      | None => from_settings
      end.
Proof.
  exact (from_runnable_config_precedence
           (λ var, if String.eqb var "FETCH_FULL_PAGE" then Some "false"
                   else if String.eqb var "LOCAL_LLM" then Some "" else None)
           (Some (PDict [("configurable",
                          PDict [("local_llm", PStr "llama3");
                                 ("fetch_full_page", PBool true);
                                 ("max_web_research_loops", PInt 0)])]))
           [("local_llm", PStr "llama3"); ("fetch_full_page", PBool true);
            ("max_web_research_loops", PInt 0)]
           eq_refl).
Defined.

Lemma lookup_setting_env (environ : string → option string)
    (settings : pyval) (name x : string) :
  environ (upper name) = Some x → x ≠ "" →
  lookup_setting environ settings name = Ret (PStr x).
Proof.
  intros Hx Hne. unfold lookup_setting. rewrite Hx.
  by destruct (String.eqb_spec x "").
Qed.

Lemma lookup_setting_unset (environ : string → option string)
    (settings : pyval) (name : string) :
  is_dict settings = false → ¬ env_set environ (upper name) →
  lookup_setting environ settings name = Exc AttributeError.
Proof.
  intros Hnd Hunset. unfold lookup_setting.
  assert (py_get settings name PNone = Exc AttributeError) as ->
    by (by destruct settings).
  destruct (environ (upper name)) as [x|] eqn:Hx; [|done].
  destruct (String.eqb_spec x ""); [done|].
  exfalso. apply Hunset. by exists x.
Qed.

(** X26.  Configurable settings that are not a dict are an error only when
    they have to be consulted: [from_runnable_config] returns (with every
    field a string of the environment) when all five environment variables
    are set and not empty, and raises [AttributeError] as soon as one of them
    is unset or empty. *)
Theorem settings_read_on_demand (environ : string → option string)
    (config : option pyval) (settings : pyval) :
  configurable_settings config = Ret settings →
  is_dict settings = false →
  ((∀ name, name ∈ field_names → env_set environ (upper name)) →
   ∃ cfg, from_runnable_config environ config = Ret cfg ∧
     ∀ name get dflt x, (name, get, dflt) ∈ declared_fields →
       environ (upper name) = Some x → get cfg = Value (PStr x)) ∧
  ((∃ name, name ∈ field_names ∧ ¬ env_set environ (upper name)) →
   from_runnable_config environ config = Exc AttributeError).
Proof.
  intros Hset Hnd. unfold from_runnable_config. rewrite Hset. cbn [obind].
  split.
  - intros Hall.
    assert (∃ cv, collect environ settings field_names = Ret cv) as [cv Hcv].
    { revert Hall. generalize field_names. intros names.
      induction names as [|n names IH]; intros Hall; simpl; [by eexists|].
      destruct (Hall n) as (x & Hx & Hne); [by left|].
      rewrite (lookup_setting_env environ settings n x Hx Hne). simpl.
      destruct IH as [cv ->]; [intros m Hm; apply Hall; by right|].
      by eexists. }
    rewrite Hcv. cbn [obind]. exists (construct cv). split; [done|].
    pose proof (collect_lookup environ settings field_names cv Hcv) as Hl.
    intros name get dflt x Hin Hx.
    assert (name ∈ field_names) as Hname.
    { unfold declared_fields in Hin.
      repeat (apply elem_of_cons in Hin as [[= -> -> ->]|Hin]);
        [..|by apply elem_of_nil in Hin]; unfold field_names; set_solver. }
    destruct (Hall name Hname) as (x' & Hx' & Hne).
    assert (x' = x) as -> by congruence.
    specialize (Hl name). rewrite bool_decide_true in Hl by done.
    rewrite (lookup_setting_env environ settings name x Hx Hne) in Hl.
    unfold declared_fields in Hin.
    repeat (apply elem_of_cons in Hin as [[= -> -> ->]|Hin]);
      [..|by apply elem_of_nil in Hin];
      unfold construct; cbn [max_web_research_loops local_llm search_api
                               fetch_full_page ollama_base_url];
      unfold field; by rewrite Hl.
  - intros (name & Hname & Hunset).
    assert (collect environ settings field_names = Exc AttributeError) as ->;
      [|done].
    revert Hname. generalize field_names. intros names.
    induction names as [|n names IH]; intros Hname; simpl.
    { by apply elem_of_nil in Hname. }
    destruct (lookup_setting environ settings n) as [v|e] eqn:Hv; simpl.
    + apply elem_of_cons in Hname as [->|Hname].
      * by rewrite lookup_setting_unset in Hv.
      * by rewrite IH.
    + revert Hv. unfold lookup_setting.
      assert (py_get settings n PNone = Exc AttributeError) as ->
        by (by destruct settings).
      destruct (environ (upper n)) as [x|]; [destruct (String.eqb x "")|];
        congruence.
Qed.

Lemma settings_read_on_demand_witness :
  ∃ cfg,
    from_runnable_config (λ _, Some "x")
      (Some (PDict [("configurable", PStr "oops")])) = Ret cfg ∧
    ∀ name get dflt x, (name, get, dflt) ∈ declared_fields →
      Some "x" = Some x → get cfg = Value (PStr x).
Proof.
  apply (proj1 (settings_read_on_demand (λ _, Some "x")
                  (Some (PDict [("configurable", PStr "oops")]))
                  (PStr "oops") eq_refl eq_refl)).
  intros name _. exists "x". split; [reflexivity|discriminate].
Defined.

End ConfigurationFacts.
